(** * Response extraction, sanitizing and schema filling: a shallow embedding

    The Python sources embedded here are
    - [Evaluation Module/Evaluation_Module_V1.0.py]
      ([call_ollama_api], [_extract_first_complete_json],
      [_clean_json_response], [extract_conversation_data],
      [save_evaluation_report], [batch_evaluate_sessions]);
    - [Job_Transformer_Ollama_v1.0.py] and [Job_Transformer_Supabase_v1.0.py]
      ([parse_llama_response], [fill_json_template],
      [save_initial_json_to_db]);
    - [Job_Transformer_Supabase_v1.2.py]
      ([clean_response], [parse_extracted_value], [set_nested_value],
      [get_nested_value], [intelligently_fill_template] and its two passes);
    - [Job Description Transformer_V1.2.py] ([_extract_salary_range],
      [_extract_experience_years]).

    Conventions of the model.  A Python [str] is a list of characters, each a
    code point below 256.  Python
    integers are [Z].  An exception that leaves a function is a [None] or an
    explicit error constructor of the result.  Dictionaries keep their
    insertion order (association lists) where the source iterates over them
    and are finite maps where only lookups matter. *)

From Stdlib Require Import ZArith Bool Ascii.
From stdpp Require Import gmap strings list.

(** ** Python strings *)

Abbreviation text := (list ascii).

Definition str (s : string) : text := String.list_ascii_of_string s.
Arguments str _%_string.

Module Py.

Local Open Scope Z_scope.

Definition chr_eqb (a b : ascii) : bool := Ascii.eqb a b.

Definition code (c : ascii) : N := N_of_ascii c.

(** [str.isspace] on one character: the C0 blanks, the four separators
    FS/GS/RS/US, the space, NEL and the no-break space. *)
Definition isspace (c : ascii) : bool :=
  let n := code c in
  ((9 <=? n) && (n <=? 13) || (28 <=? n) && (n <=? 32)
   || (n =? 133) || (n =? 160))%N.

Definition isdigit (c : ascii) : bool :=
  let n := code c in ((48 <=? n) && (n <=? 57))%N.

(** [c.lower()] and [c.upper()]: the ASCII and the Latin-1 letters.  The
    upper-case forms of the characters 181, 223 and 255 are no characters
    of the model; they never yield a letter of the words the sources look
    for, and are left as they are. *)
Definition lower_chr (c : ascii) : ascii :=
  let n := code c in
  if ((65 <=? n) && (n <=? 90)
      || (192 <=? n) && (n <=? 222) && negb (n =? 215))%N
  then ascii_of_N (n + 32) else c.

Definition upper_chr (c : ascii) : ascii :=
  let n := code c in
  if ((97 <=? n) && (n <=? 122)
      || (224 <=? n) && (n <=? 254) && negb (n =? 247))%N
  then ascii_of_N (n - 32) else c.

Definition lower (s : text) : text := map lower_chr s.
Definition upper (s : text) : text := map upper_chr s.

Fixpoint text_eqb (a b : text) : bool :=
  match a, b with
  | [], [] => true
  | x :: a', y :: b' => chr_eqb x y && text_eqb a' b'
  | _, _ => false
  end.

(** [s.startswith(p)] *)
Fixpoint startswith (p s : text) : bool :=
  match p, s with
  | [], _ => true
  | x :: p', y :: s' => chr_eqb x y && startswith p' s'
  | _ :: _, [] => false
  end.

(** [s.endswith(p)] *)
Definition endswith (p s : text) : bool := startswith (rev p) (rev s).

(** [s.lstrip()], [s.rstrip()], [s.strip()] *)
Fixpoint lstrip (s : text) : text :=
  match s with
  | c :: s' => if isspace c then lstrip s' else s
  | [] => []
  end.

Definition rstrip (s : text) : text := rev (lstrip (rev s)).

Definition strip (s : text) : text := rstrip (lstrip s).

(** Offset of the first occurrence of [needle] in [s], counted from [i]. *)
Fixpoint find_at (needle s : text) (i : nat) : option nat :=
  if startswith needle s then Some i
  else match s with
       | [] => None
       | _ :: s' => find_at needle s' (S i)
       end.

(** [s.find(needle)]: the lowest index, or [-1]. *)
Definition find (needle s : text) : Z :=
  match find_at needle s 0 with
  | Some i => Z.of_nat i
  | None => -1
  end.

(** [s.find(needle, start)] for a [start] within [0 .. len(s)]. *)
Definition find_from (needle s : text) (start : Z) : Z :=
  match find_at needle (drop (Z.to_nat start) s) (Z.to_nat start) with
  | Some i => Z.of_nat i
  | None => -1
  end.

(** [needle in s] *)
Definition contains (needle s : text) : bool :=
  match find_at needle s 0 with Some _ => true | None => false end.

(** A slice bound as Python normalises it: a negative bound counts from
    the end, and the result is clamped to [0 .. len]. *)
Definition clamp (len : nat) (i : Z) : nat :=
  let j := if i <? 0 then i + Z.of_nat len else i in
  Z.to_nat (Z.min (Z.max j 0) (Z.of_nat len)).

(** [s[start:stop]] *)
Definition slice (s : text) (start stop : Z) : text :=
  let a := clamp (length s) start in
  let b := clamp (length s) stop in
  take (b - a)%nat (drop a s).

(** [s[start:]] *)
Definition slice_from (s : text) (start : Z) : text :=
  drop (clamp (length s) start) s.

(** [s.replace(old, new)] for a non-empty [old]: occurrences are taken
    left to right and do not overlap.  [skip] counts the characters of
    the occurrence just replaced that are still to be passed over. *)
Fixpoint replace_go (old new : text) (skip : nat) (s : text) : text :=
  match s with
  | [] => []
  | c :: s' =>
      match skip with
      | S k => replace_go old new k s'
      | O =>
          if startswith old s
          then new ++ replace_go old new (length old - 1)%nat s'
          else c :: replace_go old new 0%nat s'
      end
  end.

Definition replace (old new s : text) : text := replace_go old new 0%nat s.

(** [s.split(sep)] for a one-character separator. *)
Fixpoint split (sep : ascii) (s : text) : list text :=
  match s with
  | [] => [[]]
  | c :: s' =>
      if chr_eqb c sep then [] :: split sep s'
      else match split sep s' with
           | w :: ws => (c :: w) :: ws
           | [] => [[c]]
           end
  end.

(** [s.split(sep, 1)] when [sep] occurs in [s]: the part before the
    first separator and the part after it. *)
Fixpoint split_once (sep : ascii) (s : text) : text * text :=
  match s with
  | [] => ([], [])
  | c :: s' =>
      if chr_eqb c sep then ([], s')
      else let '(a, b) := split_once sep s' in (c :: a, b)
  end.

(** [sep.join(parts)] *)
Fixpoint join (sep : text) (parts : list text) : text :=
  match parts with
  | [] => []
  | [p] => p
  | p :: ps => p ++ sep ++ join sep ps
  end.

(** [int(s)] for a run of decimal digits.  On a run of more than 4300
    digits [int] raises a [ValueError]; the value given here for such a
    run is that of its digits all the same. *)
Definition int_of_digits (s : text) : Z :=
  fold_left (fun acc c => 10 * acc + Z.of_N (code c - 48)) s 0.

End Py.

Arguments Py.chr_eqb : simpl never.
Arguments Py.isspace : simpl never.
Arguments Py.isdigit : simpl never.
Arguments Py.lower_chr : simpl never.
Arguments Py.upper_chr : simpl never.

(** ** Regular expressions ([re])

    Patterns are kept as syntax trees and run by a backtracking matcher
    with the order of preference of Python's [re]: the first alternative
    first, a greedy repetition as long as possible first, a lazy one as
    short as possible first.  A group records the span it matched last. *)

Module Re.

Local Open Scope nat_scope.

Inductive re : Type :=
| Eps
| Chr (p : ascii -> bool)
| Seq (a b : re)
| Alt (a b : re)
| Star (greedy : bool) (a : re)
| Grp (n : nat) (a : re)
| Bol
| Eol.

(** A capture: group number, start and end offset in the subject. *)
Definition caps := list (nat * (nat * nat)).

(** The rounds of a repetition: [step] matches the repeated pattern
    once.  A round has to consume a character, so [S (length s)] rounds
    are enough. *)
Fixpoint rounds {R : Type} (greedy : bool)
    (step : nat -> text -> caps ->
            (nat -> text -> caps -> option R) -> option R)
    (k : nat -> text -> caps -> option R)
    (fuel : nat) (i : nat) (s : text) (c : caps) : option R :=
  match fuel with
  | O => k i s c
  | S f =>
      let again i' s' c' :=
        if i' =? i then None else rounds greedy step k f i' s' c' in
      if greedy then
        match step i s c again with
        | Some x => Some x
        | None => k i s c
        end
      else
        match k i s c with
        | Some x => Some x
        | None => step i s c again
        end
  end.

(** [run r i s c k]: match [r] at offset [i], where [s] is the rest of
    the subject, then hand over to [k]. *)
Fixpoint run {R : Type} (r : re) (i : nat) (s : text) (c : caps)
    (k : nat -> text -> caps -> option R) : option R :=
  match r with
  | Eps => k i s c
  | Chr p =>
      match s with
      | x :: s' => if p x then k (S i) s' c else None
      | [] => None
      end
  | Seq a b => run a i s c (fun i' s' c' => run b i' s' c' k)
  | Alt a b =>
      match run a i s c k with
      | Some x => Some x
      | None => run b i s c k
      end
  | Star greedy a => rounds greedy (run a) k (S (length s)) i s c
  | Grp n a => run a i s c (fun i' s' c' => k i' s' ((n, (i, i')) :: c'))
  | Bol => if i =? 0 then k i s c else None
  | Eol =>
      match s with
      | [] => k i s c
      | [x] => if Py.chr_eqb x "010" then k i s c else None
      | _ => None
      end
  end.

(** A match attempt at offset [i]; with [must_advance] an empty match is
    refused, the way the engine does after an empty match at [i]. *)
Definition match_at (r : re) (must_advance : bool) (i : nat) (s : text)
    : option (nat * caps) :=
  run r i s []
    (fun e _ c => if must_advance && (e =? i)%nat then None else Some (e, c)).

(** A match: start, end and captures. *)
Definition found : Type := nat * nat * caps.

(** [re.search]: the leftmost match. *)
Fixpoint search_from (r : re) (i : nat) (s : text) : option found :=
  match match_at r false i s with
  | Some (e, c) => Some (i, e, c)
  | None =>
      match s with
      | [] => None
      | _ :: s' => search_from r (S i) s'
      end
  end.

Definition search (r : re) (s : text) : option found := search_from r 0 s.

(** Text of a group of a match; group 0 is the whole match. *)
Definition group (whole : text) (m : found) (n : nat) : text :=
  let '(b, e, c) := m in
  match n with
  | O => take (e - b) (drop b whole)
  | _ =>
      match List.find (fun x => (fst x =? n)%nat) c with
      | Some (_, (gb, ge)) => take (ge - gb) (drop gb whole)
      | None => []
      end
  end.

(** [re.sub(r, repl, s)]: matches are taken left to right and do not
    overlap; after an empty match the next one at the same offset has to
    be non-empty.  [skip] counts the matched characters still to pass. *)
Fixpoint sub_go (r : re) (repl : found -> text) (skip : nat) (i : nat)
    (s : text) : text :=
  let pass (n : nat) : text :=
    match s with
    | [] => []
    | _ :: s' => sub_go r repl n (S i) s'
    end in
  let keep : text :=
    match s with
    | [] => []
    | x :: s' => x :: sub_go r repl 0 (S i) s'
    end in
  match skip with
  | S n => pass n
  | O =>
      match match_at r false i s with
      | None => keep
      | Some (e, c) =>
          if (e =? i)%nat then
            repl (i, e, c) ++
            match match_at r true i s with
            | None => keep
            | Some (e2, c2) => repl (i, e2, c2) ++ pass (e2 - i - 1)
            end
          else repl (i, e, c) ++ pass (e - i - 1)
      end
  end.

Definition sub (r : re) (repl : found -> text) (s : text) : text :=
  sub_go r repl 0 0 s.

(** [re.sub(r, '', s)] *)
Definition remove (r : re) (s : text) : text := sub r (fun _ => []) s.

(** [re.finditer(r, s)], with the same rule for empty matches. *)
Fixpoint finditer_go (r : re) (skip : nat) (i : nat) (s : text)
    : list found :=
  let pass (n : nat) : list found :=
    match s with
    | [] => []
    | _ :: s' => finditer_go r n (S i) s'
    end in
  match skip with
  | S n => pass n
  | O =>
      match match_at r false i s with
      | None => pass 0
      | Some (e, c) =>
          if (e =? i)%nat then
            (i, e, c) ::
            match match_at r true i s with
            | None => pass 0
            | Some (e2, c2) => (i, e2, c2) :: pass (e2 - i - 1)
            end
          else (i, e, c) :: pass (e - i - 1)
      end
  end.

Definition finditer (r : re) (s : text) : list found := finditer_go r 0 0 s.

(** *** Pattern syntax *)

Definition chr (c : ascii) : re := Chr (Py.chr_eqb c).
(** a letter under [re.IGNORECASE] *)
Definition chr_i (c : ascii) : re :=
  Chr (fun x => Py.chr_eqb (Py.lower_chr x) (Py.lower_chr c)).
Definition lit (s : text) : re := foldr (fun c r => Seq (chr c) r) Eps s.
Definition lit_i (s : text) : re := foldr (fun c r => Seq (chr_i c) r) Eps s.
(** [\d], [\s], [.] *)
Definition digit : re := Chr Py.isdigit.
Definition space : re := Chr Py.isspace.
Definition dot : re := Chr (fun x => negb (Py.chr_eqb x "010")).
(** [[...]] and [[^...]] over a list of characters *)
Definition one_of (cs : text) : re :=
  Chr (fun x => existsb (Py.chr_eqb x) cs).
Definition none_of (cs : text) : re :=
  Chr (fun x => negb (existsb (Py.chr_eqb x) cs)).
(** [a?], [a*], [a*?], [a+], [a{3}], [a{1,3}] *)
Definition opt (a : re) : re := Alt a Eps.
Definition star (a : re) : re := Star true a.
Definition lazy (a : re) : re := Star false a.
Definition plus (a : re) : re := Seq a (Star true a).
Definition seqs (rs : list re) : re := foldr Seq Eps rs.
Definition alts (r : re) (rs : list re) : re := foldl Alt r rs.
Definition times (n : nat) (a : re) : re := seqs (replicate n a).
Definition upto3 (a : re) : re := Seq a (opt (Seq a (opt a))).

End Re.

(** ** Characters that cannot be written inside a string literal *)

Definition dquote : ascii := "034"%char.
Definition squote : ascii := "039"%char.
Definition newline : ascii := "010"%char.
Definition creturn : ascii := "013"%char.

(** ** ResponseExtractor and ResponseSanitizer of the evaluation module *)

Module Evaluation.

Local Open Scope Z_scope.

(** The loop of [_extract_first_complete_json]: [whole] is the text,
    [rest] what [enumerate] still has to deliver, [i] its index. *)
Fixpoint extract_loop (whole rest : text) (i : nat)
    (brace_count start_idx : Z) : text :=
  match rest with
  | [] => []
  | char :: rest' =>
      if Py.chr_eqb char "{" then
        let start_idx' := if start_idx =? -1 then Z.of_nat i else start_idx in
        extract_loop whole rest' (S i) (brace_count + 1) start_idx'
      else if Py.chr_eqb char "}" then
        let brace_count' := brace_count - 1 in
        if (brace_count' =? 0) && negb (start_idx =? -1)
        then Py.slice whole start_idx (Z.of_nat i + 1)
        else extract_loop whole rest' (S i) brace_count' start_idx
      else extract_loop whole rest' (S i) brace_count start_idx
  end.

Definition _extract_first_complete_json (t : text) : text :=
  extract_loop t t 0 0 (-1).

Definition fence_json : text := str "```json".
Definition fence : text := str "```".

(** The extraction step of [call_ollama_api] (the three branches and the
    emptiness test that follows them).  [None] stands for the
    [ValueError] the source raises, which makes the call return [None]. *)
Definition locate_json (raw_response : text) : option text :=
  let json_content :=
    if Py.contains fence_json raw_response then
      let json_start := Py.find fence_json raw_response + 7 in
      let json_end := Py.find_from fence raw_response json_start in
      Some (Py.strip (Py.slice raw_response json_start json_end))
    else if Py.startswith (str "{") (Py.strip raw_response) then
      Some (_extract_first_complete_json (Py.strip raw_response))
    else
      let start_idx := Py.find (str "{") raw_response in
      if negb (start_idx =? -1)
      then Some (_extract_first_complete_json
                   (Py.slice_from raw_response start_idx))
      else None in
  match json_content with
  | Some [] => None
  | other => other
  end.

(** [,(\s*[}\]])] *)
Definition trailing_comma : Re.re :=
  Re.Seq (Re.chr ",")
    (Re.Grp 1 (Re.Seq (Re.star Re.space) (Re.one_of (str "}]")))).

Definition _clean_json_response (json_content : text) : text :=
  let json_content :=
    Py.replace (dquote :: str "N/A" ++ [dquote]) (str "null") json_content in
  let json_content :=
    Py.replace (squote :: str "N/A" ++ [squote]) (str "null") json_content in
  let json_content := Py.replace (str ": N/A") (str ": null") json_content in
  let json_content := Py.replace (str ":N/A") (str ": null") json_content in
  let json_content :=
    Py.replace [creturn] (str " ")
      (Py.replace [newline] (str " ") json_content) in
  Re.sub trailing_comma (fun m => Re.group json_content m 1) json_content.

(** [call_ollama_api] from the reply of the endpoint on: the text that is
    handed to [json.loads], or [None] where the source returns [None]
    before parsing. *)
Definition call_ollama_api_json_content (status_code : Z)
    (raw_response : text) : option text :=
  if status_code =? 200 then
    match locate_json raw_response with
    | Some json_content => Some (_clean_json_response json_content)
    | None => None
    end
  else None.

End Evaluation.

(** ** The field-block reader of the job pipeline
    ([JobDescriptionParser] of [Job_Transformer_Ollama_v1.0.py]; the one of
    [Job_Transformer_Supabase_v1.0.py] has the same text) *)

Module Ollama.

(** [^(FIELD_NAME|Field|Key)\s*[-:]?\s*] under [re.IGNORECASE] *)
Definition name_prefix : Re.re :=
  Re.seqs
    [ Re.Bol;
      Re.Grp 1 (Re.alts (Re.lit_i (str "FIELD_NAME"))
                  [Re.lit_i (str "Field"); Re.lit_i (str "Key")]);
      Re.star Re.space;
      Re.opt (Re.one_of (str "-:"));
      Re.star Re.space ].

(** The body of the loop over the lines. *)
Definition parse_line (extracted_data : gmap text text) (line : text)
    : gmap text text :=
  let line := Py.strip line in
  if Py.contains (str ":") line then
    let '(field_name, value) := Py.split_once ":" line in
    let field_name := Py.strip field_name in
    let value := Py.strip value in
    let field_name := Re.remove name_prefix field_name in
    if negb (Py.text_eqb value []) &&
       negb (Py.text_eqb (Py.lower value) (str "open"))
    then <[field_name := value]> extracted_data
    else <[field_name := str "OPEN"]> extracted_data
  else extracted_data.

Definition parse_llama_response (llama_response : text) : gmap text text :=
  let lines := Py.split newline (Py.strip llama_response) in
  fold_left parse_line lines ∅.

End Ollama.

(** ** The free-text cleaner of [IntelligentJobDescriptionParser]
    ([Job_Transformer_Supabase_v1.2.py]) *)

Module Cleaner.

Definition field_descriptions : list text :=
  [ str "Job title or position name";
    str "Brief summary or overview of the job role";
    str "Work schedule type";
    str "Daily tasks and responsibilities";
    str "Required technical skills and technologies";
    str "Required soft skills and personal qualities";
    str "Description of required experience";
    str "Required education credentials" ].

(** [x in xs] for a list of strings *)
Definition among (x : text) (xs : list text) : bool :=
  existsb (Py.text_eqb x) xs.

(** [^.*?w.*?:\s*] under [re.IGNORECASE] *)
Definition lead_in (w : text) : Re.re :=
  Re.seqs [ Re.Bol; Re.lazy Re.dot; Re.lit_i w; Re.lazy Re.dot;
            Re.chr ":"; Re.star Re.space ].

(** [^.*?from.*?job description.*?:\s*] *)
Definition lead_in_from : Re.re :=
  Re.seqs [ Re.Bol; Re.lazy Re.dot; Re.lit_i (str "from"); Re.lazy Re.dot;
            Re.lit_i (str "job description"); Re.lazy Re.dot;
            Re.chr ":"; Re.star Re.space ].

(** [q([^q]+)q], where [q] is the double quote *)
Definition quoted : Re.re :=
  Re.seqs [ Re.chr dquote; Re.Grp 1 (Re.plus (Re.none_of [dquote]));
            Re.chr dquote ].

(** [\s*\(.*?\)] *)
Definition parenthetical : Re.re :=
  Re.seqs [ Re.star Re.space; Re.chr "("; Re.lazy Re.dot; Re.chr ")" ].

(** [\s*w.*?(v1|v2|..).*$] under [re.IGNORECASE] *)
Definition tail_with (w : text) (v : text) (vs : list text) : Re.re :=
  Re.seqs [ Re.star Re.space; Re.lit_i w; Re.lazy Re.dot;
            Re.Grp 1 (Re.alts (Re.lit_i v) (map Re.lit_i vs));
            Re.star Re.dot; Re.Eol ].

(** [\s*combining.*?sentences.*?:] *)
Definition combining : Re.re :=
  Re.seqs [ Re.star Re.space; Re.lit_i (str "combining"); Re.lazy Re.dot;
            Re.lit_i (str "sentences"); Re.lazy Re.dot; Re.chr ":" ].

(** [\s*no other information.*$] *)
Definition no_other : Re.re :=
  Re.seqs [ Re.star Re.space; Re.lit_i (str "no other information");
            Re.star Re.dot; Re.Eol ].

(** [\s*so this.*?covers.*$] *)
Definition so_this : Re.re :=
  Re.seqs [ Re.star Re.space; Re.lit_i (str "so this"); Re.lazy Re.dot;
            Re.lit_i (str "covers"); Re.star Re.dot; Re.Eol ].

(** [^[-•*]\s*]; the bullet is no character of the model *)
Definition bullet : Re.re :=
  Re.seqs [ Re.Bol; Re.one_of (str "-*"); Re.star Re.space ].

(** [\s*[.!?]+$] *)
Definition trailing_punct : Re.re :=
  Re.seqs [ Re.star Re.space; Re.plus (Re.one_of (str ".!?")); Re.Eol ].

(** [\n+] and [\s+] *)
Definition newlines : Re.re := Re.plus (Re.chr newline).
Definition spaces : Re.re := Re.plus Re.space.

Definition skip_words : list text :=
  [ str "combining"; str "relevant"; str "covers"; str "aspects";
    str "information"; str "provided" ].

Definition negative_tokens : list text :=
  [ str "n/a"; str "not mentioned"; str "not specified";
    str "not available"; str "none" ].

(** The block that keeps at most two sentences of a job summary. *)
Definition keep_sentences (response : text) : text :=
  let sentences := Py.split "." response in
  let clean_sentences :=
    filter (fun sentence : text =>
              negb (Py.text_eqb sentence []) &&
              negb (existsb (fun skip => Py.contains skip (Py.lower sentence))
                      skip_words))
           (map Py.strip sentences) in
  match clean_sentences with
  | [] => response
  | _ =>
      let response := Py.join (str ". ") (take 2 clean_sentences) in
      if Py.endswith (str ".") response then response
      else response ++ str "."
  end.

(** The part of [clean_response] after the test for the sentinel. *)
Definition scrub (response field_path : text) : text :=
  if among response field_descriptions then str "OPEN" else
  let response := Re.remove (lead_in (str "extract")) response in
  let response := Re.remove lead_in_from response in
  let response := Re.remove (lead_in (str "the following")) response in
  let response := Re.remove (lead_in (str "here is")) response in
  let response := Re.remove (lead_in (str "based on")) response in
  let response := Re.remove (lead_in (str "title")) response in
  let response := Re.remove (lead_in (str "summary")) response in
  let response := Re.remove (lead_in (str "skills")) response in
  let response :=
    match Re.search quoted response with
    | Some quoted_match => Re.group response quoted_match 1
    | None => response
    end in
  let response := Re.remove parenthetical response in
  let response :=
    Re.remove (tail_with (str "-") (str "mentioned")
                 [str "found"; str "listed"]) response in
  let response :=
    Re.remove (tail_with (str "this") (str "matches")
                 [str "meets"; str "is"]) response in
  let response := Re.remove combining response in
  let response := Re.remove no_other response in
  let response := Re.remove so_this response in
  let response :=
    if Py.contains (str "jobSummary") field_path
    then keep_sentences response else response in
  let response := Re.remove bullet response in
  let response := Re.remove trailing_punct response in
  let response := Re.sub newlines (fun _ => str " ") response in
  let response := Re.sub spaces (fun _ => str " ") response in
  let response := Py.strip response in
  if Py.text_eqb response [] || among (Py.lower response) negative_tokens
  then str "OPEN"
  else if among response field_descriptions then str "OPEN"
  else response.

Definition clean_response (response field_path : text) : text :=
  if Py.text_eqb response [] || Py.text_eqb (Py.strip response) []
  then str "OPEN" else
  let response := Py.strip response in
  if Py.contains (str "OPEN") (Py.upper response)
     && (10 <? length response)%nat
  then str "OPEN"
  else scrub response field_path.

End Cleaner.

(** ** JSON values as Python holds them after [json.load]

    Numbers are integers (a document with fractional numbers is outside
    the model).  A [dict] keeps its insertion order; a well-formed one has
    no key twice. *)

#[local] Set Warnings "-register-all".

Inductive json : Type :=
| JNull
| JBool (b : bool)
| JInt (n : Z)
| JStr (s : text)
| JList (items : list json)
| JDict (members : list (text * json)).

Module Dict.

(** [key in d] and [d[key]] ([None]: [KeyError]) *)
Fixpoint get (key : text) (d : list (text * json)) : option json :=
  match d with
  | [] => None
  | (k, v) :: d' => if Py.text_eqb k key then Some v else get key d'
  end.

Definition has (key : text) (d : list (text * json)) : bool :=
  match get key d with Some _ => true | None => false end.

(** [d[key] = value]: in place for a key that is there, at the end for a
    new one. *)
Fixpoint set (key : text) (value : json) (d : list (text * json))
    : list (text * json) :=
  match d with
  | [] => [(key, value)]
  | (k, v) :: d' =>
      if Py.text_eqb k key then (k, value) :: d'
      else (k, v) :: set key value d'
  end.

End Dict.

(** Truth value of a JSON value ([if x:]). *)
Definition truthy (v : json) : bool :=
  match v with
  | JNull => false
  | JBool b => b
  | JInt n => negb (n =? 0)%Z
  | JStr s => negb (Py.text_eqb s [])
  | JList l => match l with [] => false | _ => true end
  | JDict d => match d with [] => false | _ => true end
  end.

(** ** Conversation reconstruction of the evaluation module *)

Module Conversation.

Section WithStr.

(** [str(v)] for a value that is no string: Python's rendering of the
    value, which the reconstruction only passes on. *)
Variable render : json -> text.

Definition py_str (v : json) : text :=
  match v with
  | JStr s => s
  | _ => render v
  end.

Definition role_keys : list text := [str "role"; str "speaker"; str "type"].
Definition message_keys : list text :=
  [str "message"; str "content"; str "text"; str "response"].
Definition conversation_keys : list text :=
  [ str "conversation"; str "chat_history"; str "messages"; str "qa_pairs";
    str "dialogue"; str "conversation_history" ].

(** The [for key in keys: if key in exchange: ...; break] loops. *)
Fixpoint first_present (keys : list text) (exchange : list (text * json))
    : option json :=
  match keys with
  | [] => None
  | key :: keys' =>
      match Dict.get key exchange with
      | Some v => Some v
      | None => first_present keys' exchange
      end
  end.

(** The body of the loop over the exchanges: what is appended to
    [conversation] for one of them. *)
Definition standardized (exchange : json) : list json :=
  match exchange with
  | JDict d =>
      match first_present role_keys d, first_present message_keys d with
      | Some role, Some content =>
          [JDict [(str "role", role); (str "content", content)]]
      | _, _ => []
      end
  | _ => []
  end.

Definition standardize_all (exchanges : list json) : list json :=
  concat (map standardized exchanges).

(** [zip(questions, answers)] turned into alternating turns. *)
Fixpoint qa_turns (questions answers : list json) : list json :=
  match questions, answers with
  | q :: questions', a :: answers' =>
      JDict [(str "role", JStr (str "assistant")); (str "content", JStr (py_str q))]
      :: JDict [(str "role", JStr (str "user")); (str "content", JStr (py_str a))]
      :: qa_turns questions' answers'
  | _, _ => []
  end.

(** The loop over [conversation_keys]: the first key that is present is
    used and the loop left, whatever that key holds. *)
Fixpoint first_conversation (keys : list text)
    (session_information : list (text * json)) : list json :=
  match keys with
  | [] => []
  | key :: keys' =>
      match Dict.get key session_information with
      | Some raw_conversation =>
          match raw_conversation with
          | JList exchanges => standardize_all exchanges
          | _ => []
          end
      | None => first_conversation keys' session_information
      end
  end.

(** [extract_conversation_data].  Where [session_data] is no [dict], the
    membership test or the indexing that follows it raises or the test is
    false; both ways the function returns the empty list. *)
Definition extract_conversation_data (session_information : json)
    : list json :=
  match session_information with
  | JList (session_item :: _) =>
      match session_item with
      | JDict item =>
          match Dict.get (str "session_data") item with
          | Some (JDict session_data) =>
              match Dict.get (str "conversation_history") session_data with
              | Some (JList conversation_history) =>
                  standardize_all conversation_history
              | _ => []
              end
          | _ => []
          end
      | _ => []
      end
  | JDict info =>
      let conversation := first_conversation conversation_keys info in
      match conversation with
      | [] =>
          match Dict.get (str "questions") info,
                Dict.get (str "answers") info with
          | Some (JList questions), Some (JList answers) =>
              qa_turns questions answers
          | _, _ => []
          end
      | _ => conversation
      end
  | _ => []
  end.

End WithStr.

End Conversation.

(** ** The reconstruction sub-contract in the words of the specification

    The three shapes of the input, the alias sets, and the rule that an
    entry without a resolvable role or content is dropped, written from
    the sub-contract and not from the loops of
    [extract_conversation_data].  The sub-contract names three of the
    conversation aliases and leaves their list open; the six below are
    those of the source, in its order. *)

Module Reconstruction.

Section WithStr.

Variable render : json -> text.

Definition role_aliases : list text := [str "role"; str "speaker"; str "type"].
Definition content_aliases : list text :=
  [str "message"; str "content"; str "text"; str "response"].
Definition conversation_aliases : list text :=
  [ str "conversation"; str "chat_history"; str "messages"; str "qa_pairs";
    str "dialogue"; str "conversation_history" ].

(** What an object holds for an alias set: the value under the first
    alias of the set that is a key of the object. *)
Definition resolved (aliases : list text) (object : list (text * json))
    : option json :=
  head (omap (fun alias => Dict.get alias object) aliases).

(** An entry of a conversation list as an exchange; an entry that is no
    object, or has no resolvable role or no resolvable content, is
    dropped. *)
Definition exchange_of (entry : json) : option json :=
  match entry with
  | JDict object =>
      match resolved role_aliases object, resolved content_aliases object with
      | Some role, Some content =>
          Some (JDict [(str "role", role); (str "content", content)])
      | _, _ => None
      end
  | _ => None
  end.

Definition exchanges_of (conversation : json) : list json :=
  match conversation with
  | JList entries => omap exchange_of entries
  | _ => []
  end.

(** (a) a list whose first element is a session object that nests a
    [conversation_history] list under [session_data] *)
Definition wrapped (input : json) : list json :=
  match input with
  | JList (JDict session :: _) =>
      match Dict.get (str "session_data") session with
      | Some (JDict session_data) =>
          from_option exchanges_of []
            (Dict.get (str "conversation_history") session_data)
      | _ => []
      end
  | _ => []
  end.

(** (b) as the specification words it: a direct object that exposes one
    of the aliased keys, whichever it is; [exchanges] are the exchanges of
    what it holds under that key. *)
Definition exposes (input : json) (exchanges : list json) : Prop :=
  exists object alias conversation,
    input = JDict object
    /\ alias ∈ conversation_aliases
    /\ Dict.get alias object = Some conversation
    /\ exchanges_of conversation = exchanges.

(** (b) narrowed to one key: a direct object, read under the first of
    the aliased keys that it has, whatever that key holds. *)
Definition direct (input : json) : list json :=
  match input with
  | JDict object =>
      from_option exchanges_of [] (resolved conversation_aliases object)
  | _ => []
  end.

(** (c) parallel [questions] and [answers] arrays of an object, zipped
    into alternating turns of the assistant and of the user *)
Definition turn (role : text) (said : json) : json :=
  JDict [ (str "role", JStr role);
          (str "content",
           JStr match said with JStr s => s | _ => render said end) ].

Definition parallel (input : json) : list json :=
  match input with
  | JDict object =>
      match Dict.get (str "questions") object,
            Dict.get (str "answers") object with
      | Some (JList questions), Some (JList answers) =>
          concat
            (zip_with
               (fun q a => [turn (str "assistant") q; turn (str "user") a])
               questions answers)
      | _, _ => []
      end
  | _ => []
  end.

(** The attempts in their order, stopping at the first that yields at
    least one exchange. *)
Fixpoint first_yield (attempts : list (list json)) : list json :=
  match attempts with
  | [] => []
  | [] :: attempts' => first_yield attempts'
  | exchanges :: _ => exchanges
  end.

End WithStr.

End Reconstruction.

(** ** The batch driver of the evaluation module *)

Module Batch.

Section WithEvaluator.

(** The world the evaluation of one session acts on (the store, the
    endpoint), and the evaluation itself: [evaluate_interview_session]
    returns a report or [None], and the driver also provides for an
    exception. *)
Variable world : Type.

Inductive outcome : Type :=
| Returned (evaluation : option json)
| Raised.

Variable evaluate_interview_session : text -> world -> outcome * world.

Record results : Type := {
  successful_evaluations : list (text * json);
  failed_evaluations : list text;
  total_processed : nat;
  (** the quotient [successes / total], which the source multiplies by 100 *)
  success_rate : nat * nat
}.

Inductive batch_result : Type :=
| Completed (r : results)
| ZeroDivisionError.

(** The [for session_id in session_ids] loop; the two lists grow at
    their ends. *)
Fixpoint batch_loop (session_ids : list text)
    (successful : list (text * json)) (failed : list text) (w : world)
    : list (text * json) * list text * world :=
  match session_ids with
  | [] => (successful, failed, w)
  | session_id :: rest =>
      match evaluate_interview_session session_id w with
      | (Returned (Some evaluation), w') =>
          if truthy evaluation
          then batch_loop rest (successful ++ [(session_id, evaluation)]) failed w'
          else batch_loop rest successful (failed ++ [session_id]) w'
      | (Returned None, w') =>
          batch_loop rest successful (failed ++ [session_id]) w'
      | (Raised, w') =>
          batch_loop rest successful (failed ++ [session_id]) w'
      end
  end.

Definition batch_evaluate_sessions (session_ids : list text) (w : world)
    : batch_result * world :=
  let '(successful, failed, w') := batch_loop session_ids [] [] w in
  match length session_ids with
  | O => (ZeroDivisionError, w')
  | S _ =>
      (Completed {| successful_evaluations := successful;
                    failed_evaluations := failed;
                    total_processed := length session_ids;
                    success_rate := (length successful, length session_ids) |},
       w')
  end.

(** The sessions in the order in which the loop evaluates them, with the
    world each evaluation starts from. *)
Fixpoint visits (session_ids : list text) (w : world) : list (text * world) :=
  match session_ids with
  | [] => []
  | session_id :: rest =>
      (session_id, w) ::
      visits rest (snd (evaluate_interview_session session_id w))
  end.

(** Whether the evaluation of a session from a world counts as a success. *)
Definition succeeds (visit : text * world) : bool :=
  match fst (evaluate_interview_session (fst visit) (snd visit)) with
  | Returned (Some evaluation) => truthy evaluation
  | _ => false
  end.

End WithEvaluator.

(** *** The batch driver of the job pipeline
    ([process_all_pending_jobs_intelligently]) *)

Section WithProcessor.

Variable world : Type.

(** [parser.process_job_description_intelligently(template_id)]: it
    returns ([true]) or raises ([false]). *)
Variable process : text -> world -> bool * world.

(** What the driver prints. *)
Inductive line : Type :=
| NoPendingJobs
| Found (count : nat)
| Processing (template_id : text)
| Succeeded (template_id : text)
| Failed (template_id : text)
| BatchComplete
| BatchError
| NoClient.

Fixpoint process_each (pending : list text) (w : world)
    : list line * world :=
  match pending with
  | [] => ([], w)
  | template_id :: rest =>
      let '(ok, w') := process template_id w in
      let '(lines, w'') := process_each rest w' in
      (Processing template_id
       :: (if ok then Succeeded template_id else Failed template_id)
       :: lines, w'')
  end.

(** [client_ready] is the truth value of [parser.supabase_client];
    [pending] is [result.data] of the query for the jobs without a schema,
    as the list of their ids; [None]: the query raised. *)
Definition process_all_pending_jobs_intelligently (client_ready : bool)
    (pending : option (list text)) (w : world) : list line * world :=
  if negb client_ready then ([NoClient], w) else
  match pending with
  | None => ([BatchError], w)
  | Some [] => ([NoPendingJobs], w)
  | Some jobs =>
      let '(lines, w') := process_each jobs w in
      (Found (length jobs) :: lines ++ [BatchComplete], w')
  end.

(** The verdict lines of an output, in order. *)
Definition verdicts (lines : list line) : list (text * bool) :=
  concat
    (map (fun l =>
            match l with
            | Succeeded template_id => [(template_id, true)]
            | Failed template_id => [(template_id, false)]
            | _ => []
            end) lines).

(** The jobs in the order of the loop with the world each starts from. *)
Fixpoint job_visits (pending : list text) (w : world) : list (text * world) :=
  match pending with
  | [] => []
  | template_id :: rest =>
      (template_id, w) :: job_visits rest (snd (process template_id w))
  end.

End WithProcessor.

End Batch.

(** ** The persistent store and the writes to it *)

Module Store.

(** A row is an object; [.data] of a reply is a list of rows or [None];
    a request can also raise. *)
Abbreviation row := (list (text * json)).

Inductive response : Type :=
| Data (data : option (list row))
| Fails.

(** The two requests the writes use,
    [table(t).select(columns).eq(column, key).execute()] and
    [table(t).update({column: value}).eq(key_column, key).execute()],
    as an interface: the store answers and moves to its next state. *)
Class Client (store : Type) : Type := {
  select_eq : text -> text -> text -> text -> store -> response * store;
  update_eq : text -> text -> json -> text -> text -> store -> response * store
}.

(** [r.data and len(r.data) > 0] *)
Definition has_rows (data : option (list row)) : bool :=
  match data with
  | Some (_ :: _) => true
  | _ => false
  end.

(** [row.get(column)] as a truth value *)
Definition populated (column : text) (r : row) : bool :=
  match Dict.get column r with
  | Some v => truthy v
  | None => false
  end.

Section Writes.

Context {store : Type} `{Client store}.

(** [save_evaluation_report] of the evaluation module; [client_ready]
    is the truth value of [self.supabase_client]. *)
Definition save_evaluation_report (client_ready : bool) (session_id : text)
    (evaluation_report : json) (s : store) : bool * store :=
  if negb client_ready then (false, s) else
  match select_eq (str "interview_sessions") (str "session_id")
          (str "session_id") session_id s with
  | (Fails, s1) => (false, s1)
  | (Data check_response, s1) =>
      if negb (has_rows check_response) then (false, s1) else
      match update_eq (str "interview_sessions") (str "Interview_report")
              evaluation_report (str "session_id") session_id s1 with
      | (Fails, s2) => (false, s2)
      | (Data update_response, s2) =>
          if has_rows update_response then
            match select_eq (str "interview_sessions")
                    (str "Interview_report") (str "session_id")
                    session_id s2 with
            | (Fails, s3) => (false, s3)
            | (Data verify_response, s3) =>
                match verify_response with
                | Some (first :: _) =>
                    (populated (str "Interview_report") first, s3)
                | _ => (false, s3)
                end
            end
          else (false, s2)
      end
  end.

(** What a write of the job pipeline does: it returns [result.data] or
    raises. *)
Inductive saved : Type :=
| Returns (data : option (list row))
| Raises.

(** [save_initial_json_to_db] of [Job_Transformer_Supabase_v1.0.py] *)
Definition save_initial_json_to_db_v1_0 (client_ready : bool)
    (template_id : text) (initial_json : json) (s : store) : saved * store :=
  if negb client_ready then (Raises, s) else
  match update_eq (str "job_templates") (str "initial_json_schema")
          initial_json (str "template_id") template_id s with
  | (Fails, s1) => (Raises, s1)
  | (Data data, s1) => (Returns data, s1)
  end.

(** [save_initial_json_to_db] of [Job_Transformer_Supabase_v1.2.py];
    [if not r.data] also takes an empty list. *)
Definition save_initial_json_to_db (client_ready : bool)
    (template_id : text) (initial_json : json) (s : store) : saved * store :=
  if negb client_ready then (Raises, s) else
  match select_eq (str "job_templates") (str "template_id")
          (str "template_id") template_id s with
  | (Fails, s1) => (Raises, s1)
  | (Data check_result, s1) =>
      if negb (has_rows check_result) then (Raises, s1) else
      match update_eq (str "job_templates") (str "initial_json_schema")
              initial_json (str "template_id") template_id s1 with
      | (Fails, s2) => (Raises, s2)
      | (Data data, s2) =>
          if has_rows data then (Returns data, s2) else (Raises, s2)
      end
  end.

(** [verify_database_update] of [Job_Transformer_Supabase_v1.2.py];
    a row without the column raises [KeyError], which gives [False]. *)
Definition verify_database_update (client_ready : bool) (template_id : text)
    (s : store) : bool * store :=
  if negb client_ready then (false, s) else
  match select_eq (str "job_templates") (str "initial_json_schema")
          (str "template_id") template_id s with
  | (Fails, s1) => (false, s1)
  | (Data (Some (first :: _)), s1) =>
      match Dict.get (str "initial_json_schema") first with
      | Some JNull => (false, s1)
      | Some _ => (true, s1)
      | None => (false, s1)
      end
  | (Data _, s1) => (false, s1)
  end.

End Writes.

(** *** Two stores to run the writes on *)

(** Rows of a table whose [key_column] holds the string [key]. *)
Definition matches (key_column key : text) (r : row) : bool :=
  match Dict.get key_column r with
  | Some (JStr k) => Py.text_eqb k key
  | _ => false
  end.

(** A store of one table that keeps what it is told. *)
Definition memory : Type := list row.

#[global] Instance memory_client : Client memory := {|
  select_eq _ _ key_column key s :=
    (Data (Some (List.filter (matches key_column key) s)), s);
  update_eq _ column value key_column key s :=
    let s' :=
      map (fun r => if matches key_column key r
                    then Dict.set column value r else r) s in
    (Data (Some (List.filter (matches key_column key) s')), s')
|}.

(** A store that answers an update with the rows as they would be, and
    keeps none of it (a rule of the store undoes the write). *)
Record forgetful : Type := Forgetful { kept : list row }.

#[global] Instance forgetful_client : Client forgetful := {|
  select_eq _ _ key_column key s :=
    (Data (Some (List.filter (matches key_column key) (kept s))), s);
  update_eq _ column value key_column key s :=
    let s' :=
      map (fun r => if matches key_column key r
                    then Dict.set column value r else r) (kept s) in
    (Data (Some (List.filter (matches key_column key) s')), s)
|}.

End Store.

(** ** The salary range of the pattern-based transformer
    ([Job Description Transformer_V1.2.py]) *)

Module Transformer.

Local Open Scope Z_scope.

(** [\d{1,3}(?:,\d{3})*] and the same followed by [(?:\.\d{2})?] *)
Definition grouped_number : Re.re :=
  Re.Seq (Re.upto3 Re.digit)
    (Re.star (Re.Seq (Re.chr ",") (Re.times 3 Re.digit))).
Definition grouped_amount : Re.re :=
  Re.Seq grouped_number
    (Re.opt (Re.Seq (Re.chr ".") (Re.times 2 Re.digit))).

(** [(?:-|to)] under [re.IGNORECASE] *)
Definition dash_or_to : Re.re := Re.Alt (Re.chr "-") (Re.lit_i (str "to")).

(** [self.salary_patterns], matched under [re.IGNORECASE]:
    - [\$(amount)\s*(?:-|to)\s*\$(amount)]
    - [\$(number)\s*k?\s*(?:-|to)\s*\$?(number)\s*k?]
    - [(number)\s*(?:-|to)\s*(number)\s*(?:per year|annually|\/year)] *)
Definition salary_patterns : list Re.re :=
  [ Re.seqs [ Re.chr "$"; Re.Grp 1 grouped_amount; Re.star Re.space;
              dash_or_to; Re.star Re.space; Re.chr "$";
              Re.Grp 2 grouped_amount ];
    Re.seqs [ Re.chr "$"; Re.Grp 1 grouped_number; Re.star Re.space;
              Re.opt (Re.chr_i "k"); Re.star Re.space; dash_or_to;
              Re.star Re.space; Re.opt (Re.chr "$");
              Re.Grp 2 grouped_number; Re.star Re.space;
              Re.opt (Re.chr_i "k") ];
    Re.seqs [ Re.Grp 1 grouped_number; Re.star Re.space; dash_or_to;
              Re.star Re.space; Re.Grp 2 grouped_number; Re.star Re.space;
              Re.alts (Re.lit_i (str "per year"))
                [Re.lit_i (str "annually"); Re.lit_i (str "/year")] ] ].

Record salary : Type := {
  min : Z;
  max : Z;
  currency : text
}.

Definition default_range : salary :=
  {| min := 80000; max := 120000; currency := str "USD" |}.

(** [int(re.sub(r'[^\d]', '', g))]: [None] is the [ValueError] of [int]
    on the empty string. *)
Definition int_of_group (g : text) : option Z :=
  match List.filter Py.isdigit g with
  | [] => None
  | digits => Some (Py.int_of_digits digits)
  end.

(** The two bounds a match stands for, after the [k] notation. *)
Definition bounds (whole group1 group2 : text) : option (Z * Z) :=
  match int_of_group group1, int_of_group group2 with
  | Some min_sal, Some max_sal =>
      if Py.contains (str "k") (Py.lower whole)
      then Some (min_sal * 1000, max_sal * 1000)
      else Some (min_sal, max_sal)
  | _, _ => None
  end.

(** [20000 <= min_sal <= 500000 and min_sal < max_sal] *)
Definition plausible (b : Z * Z) : bool :=
  (20000 <=? fst b) && (fst b <=? 500000) && (fst b <? snd b).

(** The loops over the matches: the first plausible one is returned. *)
Fixpoint first_plausible (candidates : list (option (Z * Z))) : salary :=
  match candidates with
  | [] => default_range
  | Some b :: rest =>
      if plausible b
      then {| min := fst b; max := snd b; currency := str "USD" |}
      else first_plausible rest
  | None :: rest => first_plausible rest
  end.

(** The candidates in the order of the two loops: pattern by pattern,
    match by match. *)
Definition candidates (t : text) : list (option (Z * Z)) :=
  concat
    (map (fun pattern =>
            map (fun m => bounds (Re.group t m 0) (Re.group t m 1)
                            (Re.group t m 2))
                (Re.finditer pattern t))
         salary_patterns).

Definition _extract_salary_range (t : text) : salary :=
  first_plausible (candidates t).

End Transformer.

(** ** Value coercion of [IntelligentJobDescriptionParser]
    ([Job_Transformer_Supabase_v1.2.py]) *)

Module Coerce.

Local Open Scope Z_scope.

(** [(\d+)] *)
Definition digits_run : Re.re := Re.Grp 1 (Re.plus Re.digit).

(** [[\$]?(\d{1,3}(?:,\d{3})*(?:\.\d{2})?)] *)
Definition salary_number : Re.re :=
  Re.Seq (Re.opt (Re.chr "$")) (Re.Grp 1 Transformer.grouped_amount).

(** [^.*?=\s*[q']?] and [[q']?\s*$], where [q] is the double quote *)
Definition assignment : Re.re :=
  Re.seqs [ Re.Bol; Re.lazy Re.dot; Re.chr "="; Re.star Re.space;
            Re.opt (Re.one_of [dquote; squote]) ].
Definition closing_quote : Re.re :=
  Re.seqs [ Re.opt (Re.one_of [dquote; squote]); Re.star Re.space; Re.Eol ].

(** [s.strip(chars)] *)
Fixpoint lstrip_chars (chars s : text) : text :=
  match s with
  | c :: s' => if existsb (Py.chr_eqb c) chars then lstrip_chars chars s' else s
  | [] => []
  end.
Definition strip_chars (chars s : text) : text :=
  rev (lstrip_chars chars (rev (lstrip_chars chars s))).

(** [int(float(g))] for digits with an optional fraction of two digits:
    the digits in front of the point. *)
Definition int_of_amount (g : text) : Z :=
  Py.int_of_digits (List.filter Py.isdigit (hd [] (Py.split "." g))).

Definition is_open (s : text) : bool := Py.text_eqb s (str "OPEN").

(** The loop that cleans the items of a list field. *)
Definition clean_items (items : list text) : list json :=
  concat
    (map (fun item =>
            let item := Re.remove assignment item in
            let item := Re.remove closing_quote item in
            let item := strip_chars [squote; dquote] item in
            if negb (Py.text_eqb item []) && negb (is_open item)
            then [JStr item] else [])
         items).

Definition objective (obj : text) : json :=
  JDict [ (str "objective", JStr obj); (str "timeframe", JStr (str "OPEN"));
          (str "metric", JStr (str "OPEN")) ].

Definition parse_extracted_value (raw_value field_path : text)
    (default_value : json) : json :=
  if is_open raw_value || Py.text_eqb raw_value [] then default_value
  else if Py.contains (str "requiredYears") field_path then
    match Re.search digits_run raw_value with
    | Some years_match =>
        JInt (Py.int_of_digits (Re.group raw_value years_match 1))
    | None => JInt 0
    end
  else if Py.contains (str "acceptsExperienceInLieu") field_path then
    JBool (Py.contains (str "true") (Py.lower raw_value)
           || Py.contains (str "yes") (Py.lower raw_value)
           || Py.contains (str "equivalent") (Py.lower raw_value))
  else if Py.contains (str "salary") field_path
          && (Py.contains (str "min") field_path
              || Py.contains (str "max") field_path) then
    let stripped := Py.replace (str ",") [] raw_value in
    match Re.search salary_number stripped with
    | Some salary_match =>
        JInt (int_of_amount
                (Py.replace (str ",") [] (Re.group stripped salary_match 1)))
    | None => JInt 0
    end
  else if Py.endswith (str "duties") field_path
          || Py.endswith (str "benefits") field_path
          || Py.endswith (str "technical") field_path
          || Py.endswith (str "soft") field_path then
    let items :=
      if Py.contains (str "|") raw_value
      then List.filter (fun item => negb (Py.text_eqb item []))
             (map Py.strip (Py.split "|" raw_value))
      else if negb (is_open raw_value) then [raw_value] else [] in
    JList (clean_items items)
  else if Py.contains (str "keyObjectives") field_path then
    if Py.contains (str "|") raw_value then
      JList (map (fun obj => objective (Py.strip obj))
               (List.filter (fun obj => negb (Py.text_eqb (Py.strip obj) []))
                  (Py.split "|" raw_value)))
    else if negb (is_open raw_value) then JList [objective raw_value]
    else JList []
  else
    if negb (is_open raw_value) then JStr raw_value else default_value.

End Coerce.

(** ** The schema filler of [IntelligentJobDescriptionParser]
    ([Job_Transformer_Supabase_v1.2.py])

    The filler works on its own deep copy of the template
    ([json.loads(json.dumps(template))]), so its passes are functions from
    the copy to the copy as it is after the pass.  [None] stands for an
    exception ([KeyError], [TypeError], [AttributeError]) that leaves
    [intelligently_fill_template]. *)

Module Filler.

Local Open Scope Z_scope.

(** [fill_template_recursively] of [_ensure_complete_template_structure],
    with the defaults [OPEN], [[]] and [0] it is called with.  For a
    member that is a number equal to zero (this takes [False]) under a key
    other than [requiredYears], each of the three branches of the source
    assigns the integer [0]. *)
Fixpoint fill_template_recursively (obj : json) : json :=
  match obj with
  | JDict members =>
      JDict
        (map (fun member =>
                match member with
                | (key, value) =>
                    (key,
                     match value with
                     | JDict _ => fill_template_recursively value
                     | JList _ => fill_template_recursively value
                     | JStr s =>
                         if Py.text_eqb s [] then JStr (str "OPEN") else value
                     | JInt n =>
                         if (n =? 0) && negb (Py.text_eqb key (str "requiredYears"))
                         then JInt 0 else value
                     | JBool b =>
                         if negb b && negb (Py.text_eqb key (str "requiredYears"))
                         then JInt 0 else value
                     | JNull => value
                     end)
                end)
             members)
  | JList items =>
      JList
        (map (fun item =>
                match item with
                | JDict _ => fill_template_recursively item
                | _ => item
                end)
             items)
  | _ => obj
  end.

Definition _ensure_complete_template_structure (template : json) : json :=
  fill_template_recursively template.

(** [a == b] on JSON values: [False == 0] and [True == 1], and objects are
    equal when they have the same members in any order. *)
Fixpoint py_eqb (a b : json) : bool :=
  match a, b with
  | JNull, JNull => true
  | JBool x, JBool y => Bool.eqb x y
  | JBool x, JInt n => (if x then 1 else 0) =? n
  | JInt n, JBool y => n =? (if y then 1 else 0)
  | JInt n, JInt m => n =? m
  | JStr s, JStr t => Py.text_eqb s t
  | JList xs, JList ys =>
      (fix all2 (xs ys : list json) : bool :=
         match xs, ys with
         | [], [] => true
         | x :: xs', y :: ys' => py_eqb x y && all2 xs' ys'
         | _, _ => false
         end) xs ys
  | JDict d, JDict e =>
      (length d =? length e)%nat
      && (fix all_in (d : list (text * json)) : bool :=
            match d with
            | [] => true
            | (k, v) :: d' =>
                match Dict.get k e with
                | Some w => py_eqb v w && all_in d'
                | None => false
                end
            end) d
  | _, _ => false
  end.

(** [set_nested_value]: the walk along [keys[:-1]] makes the objects that
    are missing; a step into a value that is no object raises
    [TypeError]. *)
Fixpoint set_path (data : json) (keys : list text) (value : json)
    : option json :=
  match keys, data with
  | [key], JDict current => Some (JDict (Dict.set key value current))
  | key :: rest, JDict current =>
      let next :=
        match Dict.get key current with
        | Some v => v
        | None => JDict []
        end in
      match set_path next rest value with
      | Some v' => Some (JDict (Dict.set key v' current))
      | None => None
      end
  | _, _ => None
  end.

Definition set_nested_value (data : json) (path : text) (value : json)
    : option json :=
  set_path data (Py.split "." path) value.

(** [get_nested_value]: Python's [None] also for a path that is not
    there. *)
Fixpoint get_path (data : json) (keys : list text) : json :=
  match keys with
  | [] => data
  | key :: rest =>
      match data with
      | JDict current =>
          match Dict.get key current with
          | Some v => get_path v rest
          | None => JNull
          end
      | _ => JNull
      end
  end.

Definition get_nested_value (data : json) (path : text) : json :=
  get_path data (Py.split "." path).

(** [self.field_mappings]: path and default of each entry, in the order
    of the source (the descriptions and keywords only go into prompts). *)
Definition field_mappings : list (text * json) :=
  [ (str "jobProfile.JobId", JStr (str "OPEN"));
    (str "jobProfile.coreDetails.title", JStr (str "OPEN"));
    (str "jobProfile.coreDetails.jobSummary", JStr (str "OPEN"));
    (str "jobProfile.coreDetails.employmentType.agreement", JStr (str "OPEN"));
    (str "jobProfile.coreDetails.employmentType.schedule", JStr (str "OPEN"));
    (str "jobProfile.coreDetails.employmentType.term", JStr (str "OPEN"));
    (str "jobProfile.coreDetails.jobLocation.type", JStr (str "OPEN"));
    (str "jobProfile.coreDetails.jobLocation.applicantLocationRequirement",
     JStr (str "OPEN"));
    (str "jobProfile.responsibilities.dayToDayDuties", JList []);
    (str "jobProfile.responsibilities.keyObjectives", JList []);
    (str "jobProfile.qualifications.skills.technical", JList []);
    (str "jobProfile.qualifications.skills.soft", JList []);
    (str "jobProfile.qualifications.experience.requiredYears", JInt 0);
    (str "jobProfile.qualifications.experience.description", JStr (str "OPEN"));
    (str "jobProfile.qualifications.education.requiredCredential",
     JStr (str "OPEN"));
    (str "jobProfile.qualifications.education.acceptsExperienceInLieu",
     JBool false);
    (str "jobProfile.companyContext.culture", JStr (str "OPEN"));
    (str "jobProfile.companyContext.growthOpportunities", JStr (str "OPEN"));
    (str "jobProfile.compensation.salary.min", JInt 0);
    (str "jobProfile.compensation.salary.max", JInt 0);
    (str "jobProfile.compensation.salary.currency", JStr (str "USD"));
    (str "jobProfile.compensation.benefits", JList []) ].

(** [OPEN] stands for [str "OPEN"] as a JSON value. *)
Definition OPEN : json := JStr (str "OPEN").

Section WithModel.

(** The reply of the completion endpoint to the prompt for a field;
    [call_llama3] returns the empty string when the endpoint fails. *)
Variable call_llama3 : text -> text.

(** [extract_field_specific_info] after the prompt is built. *)
Definition extract_field_specific_info (field_path : text) : text :=
  let response := call_llama3 field_path in
  if negb (Py.text_eqb (Py.strip response) [])
  then Cleaner.clean_response response field_path
  else str "OPEN".

(** The body of the loop over [self.field_mappings]. *)
Definition overlay (filled_template : json) (mapping : text * json)
    : option json :=
  let '(field_path, default) := mapping in
  if Py.text_eqb field_path (str "jobProfile.JobId") then Some filled_template
  else
    let raw_value := extract_field_specific_info field_path in
    let parsed_value :=
      Coerce.parse_extracted_value raw_value field_path default in
    let current_value := get_nested_value filled_template field_path in
    if match current_value with JNull => true | _ => false end
       || (negb (py_eqb parsed_value default)
           && negb (py_eqb parsed_value OPEN))
    then set_nested_value filled_template field_path parsed_value
    else if py_eqb parsed_value OPEN && negb (py_eqb default OPEN)
    then set_nested_value filled_template field_path default
    else Some filled_template.

(** A loop of updates that an exception ends. *)
Fixpoint each {A : Type} (f : json -> A -> option json) (xs : list A)
    (data : json) : option json :=
  match xs with
  | [] => Some data
  | x :: xs' =>
      match f data x with
      | Some data' => each f xs' data'
      | None => None
      end
  end.

Definition custom_tag_paths : list text :=
  [ str "jobProfile.coreDetails.customTags";
    str "jobProfile.responsibilities.customTags";
    str "jobProfile.qualifications.customTags";
    str "jobProfile.companyContext.customTags";
    str "jobProfile.compensation.customTags";
    str "jobProfile.interviewGuidance.customTags" ].

Definition extra_notes_paths : list text :=
  [ str "jobProfile.coreDetails.extraNotes";
    str "jobProfile.responsibilities.extraNotes";
    str "jobProfile.qualifications.extraNotes";
    str "jobProfile.companyContext.extraNotes";
    str "jobProfile.compensation.extraNotes";
    str "jobProfile.interviewGuidance.extraNotes" ].

(** The loop over the keys of a question; [None]: the question is no
    object and has no [keys]. *)
Definition reset_question (question : json) : option json :=
  match question with
  | JDict members =>
      Some (JDict (map (fun '(q_key, v) =>
                          (q_key,
                           match v with
                           | JStr _ => OPEN
                           | JList _ => JList [OPEN]
                           | _ => v
                           end)) members))
  | _ => None
  end.

(** All of a list of optional values, or [None]. *)
Fixpoint all_some {A : Type} (xs : list (option A)) : option (list A) :=
  match xs with
  | [] => Some []
  | Some x :: xs' =>
      match all_some xs' with
      | Some ys => Some (x :: ys)
      | None => None
      end
  | None :: _ => None
  end.

(** The loop over the keys of a stage of the interview flow. *)
Definition reset_member (member : text * json) : option (text * json) :=
  let '(key, v) := member in
  match v with
  | JStr _ => Some (key, OPEN)
  | JInt _ => Some (key, JInt 0)
  | JBool _ => Some (key, JInt 0)
  | JList questions =>
      if Py.text_eqb key (str "evaluators") then Some (key, JList [OPEN])
      else if Py.text_eqb key (str "questions") then
        match all_some (map reset_question questions) with
        | Some questions' => Some (key, JList questions')
        | None => None
        end
      else Some (key, v)
  | _ => Some (key, v)
  end.

Definition reset_stage (stage : json) : option json :=
  match stage with
  | JDict members =>
      match all_some (map reset_member members) with
      | Some members' => Some (JDict members')
      | None => None
      end
  | _ => None
  end.

(** The interview flow as the loop over its stages leaves it. *)
Definition reset_interview_flow (template : json) : option json :=
  let path := str "jobProfile.interviewGuidance.interviewFlow" in
  let interview_flow := get_nested_value template path in
  if truthy interview_flow then
    match interview_flow with
    | JList stages =>
        match all_some (map reset_stage stages) with
        | Some stages' => set_nested_value template path (JList stages')
        | None => None
        end
    | _ => None
    end
  else Some template.

Definition _fill_special_template_fields (template : json) : option json :=
  template ← each (fun t path => set_nested_value t path (JList []))
               custom_tag_paths template;
  template ← each (fun t path => set_nested_value t path OPEN)
               extra_notes_paths template;
  template ← set_nested_value template
               (str "jobProfile.interviewGuidance.assessmentPlan") (JList []);
  template ← set_nested_value template
               (str "jobProfile.interviewGuidance.competencyProfile") (JList []);
  template ← reset_interview_flow template;
  template ← set_nested_value template
               (str "jobProfile.meta.customFields.hardwareRequirement") OPEN;
  template ← set_nested_value template
               (str "jobProfile.meta.customFields.timezoneOverlap") OPEN;
  set_nested_value template (str "jobProfile.meta.customFields.clearance") OPEN.

(** [d[k1][k2]...[kn] = value]: every object on the way has to be there. *)
Fixpoint assign (data : json) (keys : list text) (value : json)
    : option json :=
  match data, keys with
  | JDict current, [key] => Some (JDict (Dict.set key value current))
  | JDict current, key :: rest =>
      match Dict.get key current with
      | Some v =>
          match assign v rest value with
          | Some v' => Some (JDict (Dict.set key v' current))
          | None => None
          end
      | None => None
      end
  | _, _ => None
  end.

(** [intelligently_fill_template]; [now] is the text of the time stamp. *)
Definition intelligently_fill_template (now : text) (template : json)
    (template_id : text) : option json :=
  let filled_template := template in
  filled_template ← assign filled_template [str "jobProfile"; str "JobId"]
                      (JStr template_id);
  let filled_template := _ensure_complete_template_structure filled_template in
  filled_template ← each overlay field_mappings filled_template;
  filled_template ← _fill_special_template_fields filled_template;
  filled_template ← assign filled_template
                      [str "jobProfile"; str "meta"; str "lastUpdated"]
                      (JStr now);
  filled_template ← assign filled_template
                      [str "jobProfile"; str "meta"; str "source"]
                      (JStr (str "AI-Extracted"));
  assign filled_template [str "jobProfile"; str "meta"; str "schemaVersion"]
    (JStr (str "v1.1")).

End WithModel.

(** *** Leaves and their paths *)

Inductive step : Type :=
| Key (k : text)
| Index (i : nat).

Definition under (s : step) (leaf : list step * json) : list step * json :=
  (s :: fst leaf, snd leaf).

(** The leaves of a tree with their paths, in document order: scalars,
    empty lists and empty objects. *)
Fixpoint leaves (v : json) : list (list step * json) :=
  match v with
  | JDict members =>
      match members with
      | [] => [([], v)]
      | _ =>
          (fix go (ms : list (text * json)) : list (list step * json) :=
             match ms with
             | [] => []
             | (k, x) :: ms' => map (under (Key k)) (leaves x) ++ go ms'
             end) members
      end
  | JList items =>
      match items with
      | [] => [([], v)]
      | _ =>
          (fix go (i : nat) (xs : list json) : list (list step * json) :=
             match xs with
             | [] => []
             | x :: xs' => map (under (Index i)) (leaves x) ++ go (S i) xs'
             end) 0%nat items
      end
  | _ => [([], v)]
  end.

Definition leaf_paths (v : json) : list (list step) := map fst (leaves v).

(** The leaves below the members of an object and below the items of a
    list that starts at index [i]. *)
Fixpoint leaves_members (ms : list (text * json)) : list (list step * json) :=
  match ms with
  | [] => []
  | (k, x) :: ms' => map (under (Key k)) (leaves x) ++ leaves_members ms'
  end.

Fixpoint leaves_items (i : nat) (xs : list json) : list (list step * json) :=
  match xs with
  | [] => []
  | x :: xs' => map (under (Index i)) (leaves x) ++ leaves_items (S i) xs'
  end.

(** What the structural pass makes of the member [value] under [key]. *)
Definition completed (key : text) (value : json) : json :=
  match value with
  | JDict _ => fill_template_recursively value
  | JList _ => fill_template_recursively value
  | JStr s => if Py.text_eqb s [] then JStr (str "OPEN") else value
  | JInt n =>
      if (n =? 0) && negb (Py.text_eqb key (str "requiredYears"))
      then JInt 0 else value
  | JBool b =>
      if negb b && negb (Py.text_eqb key (str "requiredYears"))
      then JInt 0 else value
  | JNull => value
  end.

(** What it makes of an item of a list. *)
Definition completed_item (item : json) : json :=
  match item with
  | JDict _ => fill_template_recursively item
  | _ => item
  end.

(** The member reached from [v] through objects along [keys]. *)
Fixpoint member (v : json) (keys : list text) : option json :=
  match keys with
  | [] => Some v
  | key :: rest =>
      match v with
      | JDict members =>
          match Dict.get key members with
          | Some x => member x rest
          | None => None
          end
      | _ => None
      end
  end.

End Filler.

(** ** Objects on the heap, and the template filler that shares them
    ([fill_json_template] of [Job_Transformer_Ollama_v1.0.py])

    A [dict] or a [list] is an object at an address; a value that holds
    one holds its address, so two values can hold the same object and an
    assignment through one of them shows through the other. *)

Module Heap.

Local Open Scope Z_scope.

Abbreviation loc := nat.

Inductive value : Type :=
| VNull
| VBool (b : bool)
| VInt (n : Z)
| VStr (s : text)
| VRef (l : loc).

Inductive object : Type :=
| ODict (members : list (text * value))
| OList (items : list value).

Record heap : Type := {
  cells : gmap loc object;
  next : loc
}.

Definition empty : heap := {| cells := ∅; next := 0%nat |}.

(** A computation on the heap that can end in an exception. *)
Inductive outcome (A : Type) : Type :=
| Ok (a : A)
| Raise.
Arguments Ok {A} a.
Arguments Raise {A}.

Definition M (A : Type) : Type := heap -> outcome A * heap.

Definition ret {A : Type} (a : A) : M A := fun h => (Ok a, h).

Definition bind {A B : Type} (m : M A) (f : A -> M B) : M B :=
  fun h =>
    match m h with
    | (Ok a, h') => f a h'
    | (Raise, h') => (Raise, h')
    end.

Definition raise {A : Type} : M A := fun h => (Raise, h).

Notation "x <~ y ; z" := (bind y (fun x : _ => z))
  (at level 20, y at level 100, z at level 200, only parsing).

(** A new object. *)
Definition alloc (o : object) : M value :=
  fun h =>
    (Ok (VRef (next h)),
     {| cells := <[next h := o]> (cells h); next := S (next h) |}).

(** The members of the [dict] a value holds ([TypeError] otherwise). *)
Definition members_of (v : value) : M (list (text * value)) :=
  fun h =>
    match v with
    | VRef l =>
        match cells h !! l with
        | Some (ODict ms) => (Ok ms, h)
        | _ => (Raise, h)
        end
    | _ => (Raise, h)
    end.

Fixpoint get (key : text) (ms : list (text * value)) : option value :=
  match ms with
  | [] => None
  | (k, v) :: ms' => if Py.text_eqb k key then Some v else get key ms'
  end.

Fixpoint set (key : text) (x : value) (ms : list (text * value))
    : list (text * value) :=
  match ms with
  | [] => [(key, x)]
  | (k, v) :: ms' =>
      if Py.text_eqb k key then (k, x) :: ms' else (k, v) :: set key x ms'
  end.

(** [v[key]] *)
Definition subscript (v : value) (key : text) : M value :=
  ms <~ members_of v;
  match get key ms with
  | Some x => ret x
  | None => raise
  end.

(** [v[key] = x]: the object itself changes. *)
Definition store (v : value) (key : text) (x : value) : M unit :=
  ms <~ members_of v;
  fun h =>
    match v with
    | VRef l =>
        (Ok tt, {| cells := <[l := ODict (set key x ms)]> (cells h);
                   next := next h |})
    | _ => (Raise, h)
    end.

(** [v[k1]...[kn] = x] *)
Fixpoint assign (v : value) (keys : list text) (x : value) : M unit :=
  match keys with
  | [] => raise
  | [key] => store v key x
  | key :: rest => inner <~ subscript v key; assign inner rest x
  end.

(** A run of assignments through the same value, up to the first one
    that raises. *)
Fixpoint assign_all (v : value) (writes : list (list text * value))
    : M unit :=
  match writes with
  | [] => ret tt
  | (keys, x) :: writes' => _ <~ assign v keys x; assign_all v writes'
  end.

(** [d.copy()]: a new [dict] with the same members; what the members
    hold is shared. *)
Definition copy (v : value) : M value :=
  ms <~ members_of v; alloc (ODict ms).

(** [json.load]: the tree as new objects. *)
Fixpoint load (j : json) : M value :=
  match j with
  | JNull => ret VNull
  | JBool b => ret (VBool b)
  | JInt n => ret (VInt n)
  | JStr s => ret (VStr s)
  | JList items =>
      vs <~ (fix go (items : list json) : M (list value) :=
               match items with
               | [] => ret []
               | x :: items' =>
                   v <~ load x; vs <~ go items'; ret (v :: vs)
               end) items;
      alloc (OList vs)
  | JDict members =>
      ms <~ (fix go (members : list (text * json)) : M (list (text * value)) :=
               match members with
               | [] => ret []
               | (k, x) :: members' =>
                   v <~ load x; ms <~ go members'; ret ((k, v) :: ms)
               end) members;
      alloc (ODict ms)
  end.

(** [json.dumps]: the tree a value stands for in a heap.  [fuel] bounds
    the depth; [None] for a dangling address or a tree deeper than that. *)
Fixpoint dump (fuel : nat) (h : heap) (v : value) : option json :=
  match v with
  | VNull => Some JNull
  | VBool b => Some (JBool b)
  | VInt n => Some (JInt n)
  | VStr s => Some (JStr s)
  | VRef l =>
      match fuel with
      | O => None
      | S fuel' =>
          match cells h !! l with
          | Some (OList items) =>
              option_map JList
                ((fix go (items : list value) : option (list json) :=
                    match items with
                    | [] => Some []
                    | x :: items' =>
                        match dump fuel' h x, go items' with
                        | Some j, Some js => Some (j :: js)
                        | _, _ => None
                        end
                    end) items)
          | Some (ODict members) =>
              option_map JDict
                ((fix go (members : list (text * value))
                    : option (list (text * json)) :=
                    match members with
                    | [] => Some []
                    | (k, x) :: members' =>
                        match dump fuel' h x, go members' with
                        | Some j, Some js => Some ((k, j) :: js)
                        | _, _ => None
                        end
                    end) members)
          | None => None
          end
      end
  end.

(** The two loops of [load] and of [dump] on their own. *)
Fixpoint load_items (items : list json) : M (list value) :=
  match items with
  | [] => ret []
  | x :: items' => v <~ load x; vs <~ load_items items'; ret (v :: vs)
  end.

Fixpoint load_members (members : list (text * json))
    : M (list (text * value)) :=
  match members with
  | [] => ret []
  | (k, x) :: members' =>
      v <~ load x; ms <~ load_members members'; ret ((k, v) :: ms)
  end.

Definition dump_items (dump_value : value -> option json)
    : list value -> option (list json) :=
  fix go (items : list value) : option (list json) :=
    match items with
    | [] => Some []
    | x :: items' =>
        match dump_value x, go items' with
        | Some j, Some js => Some (j :: js)
        | _, _ => None
        end
    end.

Definition dump_members (dump_value : value -> option json)
    : list (text * value) -> option (list (text * json)) :=
  fix go (members : list (text * value)) : option (list (text * json)) :=
    match members with
    | [] => Some []
    | (k, x) :: members' =>
        match dump_value x, go members' with
        | Some j, Some js => Some ((k, j) :: js)
        | _, _ => None
        end
    end.

(** [json.loads(json.dumps(v))]: a deep copy. *)
Definition deep_copy (fuel : nat) (v : value) : M value :=
  fun h =>
    match dump fuel h v with
    | Some j => load j h
    | None => (Raise, h)
    end.

(** [int(s)] of a string: blanks around, a sign, and decimal digits
    that single underscores may separate. *)
Definition py_int (s : text) : option Z :=
  let s := Py.strip s in
  let '(negative, body) :=
    match s with
    | "-"%char :: r => (true, r)
    | "+"%char :: r => (false, r)
    | _ => (false, s)
    end in
  let groups := Py.split "_" body in
  if forallb (fun g => negb (Py.text_eqb g []) && forallb Py.isdigit g) groups
  then
    let n := Py.int_of_digits (concat groups) in
    Some (if negative then - n else n)
  else None.

(** *** Where the addresses of a heap point *)

(** The values an object holds. *)
Definition values (o : object) : list value :=
  match o with
  | ODict members => map snd members
  | OList items => items
  end.

(** A value that holds no address below [n], and one that holds none
    from [n] on. *)
Definition value_from (n : loc) (v : value) : Prop :=
  match v with VRef l => (n <= l)%nat | _ => True end.
Definition value_below (n : loc) (v : value) : Prop :=
  match v with VRef l => (l < n)%nat | _ => True end.

(** A value that is no address. *)
Definition scalar (v : value) : Prop :=
  match v with VRef _ => False | _ => True end.

(** No object lives at or above [next]. *)
Definition tidy (h : heap) : Prop :=
  forall l, (next h <= l)%nat -> cells h !! l = None.

(** The objects below [n] hold addresses below [n] only. *)
Definition closed_below (n : loc) (h : heap) : Prop :=
  forall l o, (l < n)%nat -> cells h !! l = Some o ->
              Forall (value_below n) (values o).

(** The objects from [n] on hold addresses from [n] on only. *)
Definition fresh_from (n : loc) (h : heap) : Prop :=
  forall l o, (n <= l)%nat -> cells h !! l = Some o ->
              Forall (value_from n) (values o).

(** A heap as loading leaves it. *)
Definition well_formed (h : heap) : Prop :=
  tidy h /\ closed_below (next h) h.

(** [h'] is [h] with new objects on top: what was there is as it was, and
    the new objects hold addresses from [n] on, below the new top. *)
Record grows (n : loc) (h h' : heap) : Prop := {
  grows_next : (next h <= next h')%nat;
  grows_tidy : tidy h';
  grows_frame : forall l, (l < next h)%nat -> cells h' !! l = cells h !! l;
  grows_fresh :
    forall l o, (next h <= l)%nat -> cells h' !! l = Some o ->
                Forall (value_from n) (values o);
  grows_closed :
    forall l o, (next h <= l)%nat -> cells h' !! l = Some o ->
                Forall (value_below (next h')) (values o)
}.

(** What loading a tree promises: it succeeds on a tidy heap and adds
    objects on top of it, and the value it returns holds a new address. *)
Definition loads (j : json) : Prop :=
  forall n h, (n <= next h)%nat -> tidy h ->
  exists v h',
    load j h = (Ok v, h') /\ grows n h h'
    /\ value_from n v /\ value_below (next h') v.

Section Fill.

(** [extracted_data.get(key, default)] *)
Definition get_or (extracted_data : gmap text text) (key default : text)
    : text :=
  match extracted_data !! key with
  | Some v => v
  | None => default
  end.

(** [extracted_data.get(key) and extracted_data[key] != "OPEN"] *)
Definition given (extracted_data : gmap text text) (key : text) : bool :=
  match extracted_data !! key with
  | Some v => negb (Py.text_eqb v []) && negb (Py.text_eqb v (str "OPEN"))
  | None => false
  end.

(** [[x.strip() for x in s.split("|") if x.strip()]] *)
Definition pipe_items (s : text) : list text :=
  List.filter (fun x => negb (Py.text_eqb x []))
    (map Py.strip (Py.split "|" s)).

(** The statement [if given: target = [items]] for a list of strings. *)
Definition fill_list (filled : value) (extracted_data : gmap text text)
    (key : text) (target : list text) : M unit :=
  if given extracted_data key then
    l <~ alloc (OList (map VStr (pipe_items (get_or extracted_data key []))));
    assign filled target l
  else ret tt.

(** The list of objective objects. *)
Fixpoint objectives (items : list text) : M (list value) :=
  match items with
  | [] => ret []
  | obj :: items' =>
      o <~ alloc (ODict [ (str "objective", VStr obj);
                          (str "timeframe", VStr (str "OPEN"));
                          (str "metric", VStr (str "OPEN")) ]);
      os <~ objectives items';
      ret (o :: os)
  end.

(** [fill_json_template]; [job_id] and [now] are the two texts the
    source makes from the clock.  The handler of the [try] around the
    salary bounds takes the [ValueError] of [int]; an error of the two
    assignments themselves comes back from the same assignments in the
    handler, so it leaves the function either way. *)
Definition fill_json_template (job_id now : text) (template : value)
    (extracted_data : gmap text text) : M value :=
  let field key default := VStr (get_or extracted_data (str key) (str default)) in
  let at_ (path : list string) := map str path in
  filled_template <~ copy template;
  _ <~ assign filled_template (at_ ["jobProfile"; "JobId"]) (VStr job_id);
  _ <~ assign filled_template (at_ ["jobProfile"; "coreDetails"; "title"])
         (field "JOB_TITLE" "OPEN");
  _ <~ assign filled_template (at_ ["jobProfile"; "coreDetails"; "jobSummary"])
         (field "JOB_SUMMARY" "OPEN");
  _ <~ assign filled_template
         (at_ ["jobProfile"; "coreDetails"; "employmentType"; "agreement"])
         (field "EMPLOYMENT_TYPE" "OPEN");
  _ <~ assign filled_template
         (at_ ["jobProfile"; "coreDetails"; "employmentType"; "schedule"])
         (field "SCHEDULE" "OPEN");
  _ <~ assign filled_template
         (at_ ["jobProfile"; "coreDetails"; "employmentType"; "term"])
         (field "TERM" "OPEN");
  _ <~ assign filled_template
         (at_ ["jobProfile"; "coreDetails"; "jobLocation"; "type"])
         (field "LOCATION_TYPE" "OPEN");
  _ <~ assign filled_template
         (at_ ["jobProfile"; "coreDetails"; "jobLocation";
               "applicantLocationRequirement"])
         (field "LOCATION_REQUIREMENT" "OPEN");
  _ <~ (if given extracted_data (str "KEY_OBJECTIVES") then
          os <~ objectives
                  (pipe_items (get_or extracted_data (str "KEY_OBJECTIVES") []));
          l <~ alloc (OList os);
          assign filled_template
            (at_ ["jobProfile"; "responsibilities"; "keyObjectives"]) l
        else ret tt);
  _ <~ fill_list filled_template extracted_data (str "DAY_TO_DAY_DUTIES")
         (at_ ["jobProfile"; "responsibilities"; "dayToDayDuties"]);
  _ <~ fill_list filled_template extracted_data (str "TECHNICAL_SKILLS")
         (at_ ["jobProfile"; "qualifications"; "skills"; "technical"]);
  _ <~ fill_list filled_template extracted_data (str "SOFT_SKILLS")
         (at_ ["jobProfile"; "qualifications"; "skills"; "soft"]);
  _ <~ (let years_str := get_or extracted_data (str "REQUIRED_YEARS") (str "0") in
        let years :=
          match Re.search Coerce.digits_run years_str with
          | Some years_match =>
              Py.int_of_digits (Re.group years_str years_match 1)
          | None => 0
          end in
        assign filled_template
          (at_ ["jobProfile"; "qualifications"; "experience"; "requiredYears"])
          (VInt years));
  _ <~ assign filled_template
         (at_ ["jobProfile"; "qualifications"; "experience"; "description"])
         (field "EXPERIENCE_DESCRIPTION" "OPEN");
  _ <~ assign filled_template
         (at_ ["jobProfile"; "qualifications"; "education";
               "requiredCredential"])
         (field "EDUCATION_REQUIRED" "OPEN");
  _ <~ assign filled_template
         (at_ ["jobProfile"; "qualifications"; "education";
               "acceptsExperienceInLieu"])
         (VBool (Py.text_eqb
                   (Py.lower (get_or extracted_data
                                (str "ACCEPTS_EXPERIENCE_IN_LIEU")
                                (str "false")))
                   (str "true")));
  _ <~ assign filled_template (at_ ["jobProfile"; "companyContext"; "culture"])
         (field "COMPANY_CULTURE" "OPEN");
  _ <~ assign filled_template
         (at_ ["jobProfile"; "companyContext"; "growthOpportunities"])
         (field "GROWTH_OPPORTUNITIES" "OPEN");
  _ <~ (let salary_min := at_ ["jobProfile"; "compensation"; "salary"; "min"] in
        let salary_max := at_ ["jobProfile"; "compensation"; "salary"; "max"] in
        match py_int (get_or extracted_data (str "SALARY_MIN") (str "0")),
              py_int (get_or extracted_data (str "SALARY_MAX") (str "0")) with
        | Some min_salary, Some max_salary =>
            _ <~ assign filled_template salary_min (VInt min_salary);
            assign filled_template salary_max (VInt max_salary)
        | _, _ =>
            _ <~ assign filled_template salary_min (VInt 0);
            assign filled_template salary_max (VInt 0)
        end);
  _ <~ assign filled_template
         (at_ ["jobProfile"; "compensation"; "salary"; "currency"])
         (field "CURRENCY" "USD");
  _ <~ fill_list filled_template extracted_data (str "BENEFITS")
         (at_ ["jobProfile"; "compensation"; "benefits"]);
  _ <~ fill_list filled_template extracted_data (str "COMPETENCY_PROFILE")
         (at_ ["jobProfile"; "interviewGuidance"; "competencyProfile"]);
  _ <~ fill_list filled_template extracted_data (str "ASSESSMENT_PLAN")
         (at_ ["jobProfile"; "interviewGuidance"; "assessmentPlan"]);
  _ <~ assign filled_template (at_ ["jobProfile"; "meta"; "lastUpdated"])
         (VStr now);
  ret filled_template.

End Fill.

End Heap.

(** ** Vocabulary of the statements on extraction *)

Module Braces.

Local Open Scope Z_scope.

(** What one character adds to the brace depth. *)
Definition delta (c : ascii) : Z :=
  if Py.chr_eqb c "{" then 1 else if Py.chr_eqb c "}" then -1 else 0.

(** [nested d body]: read at depth [d], the braces of [body] never close
    more than they opened, and the depth is back at [d = 0] at its end.
    [{ body }] is then an object text whose own closing brace is the
    first one to bring the depth counter back to zero. *)
Fixpoint nested (d : Z) (body : text) : bool :=
  match body with
  | [] => d =? 0
  | c :: body' => (0 <=? d + delta c) && nested (d + delta c) body'
  end.

(** The text of an object with the given body. *)
Definition object (body : text) : text := "{"%char :: body ++ ["}"%char].

End Braces.

(** ** Vocabulary of the statements on sanitizing *)

Module Tokens.

(** The [N/A] tokens: [N/A] in double or single quotes, and a bare
    [N/A] that follows a colon directly or after one blank (a space, a
    line feed or a carriage return). *)
Definition na_tokens : list text :=
  [ dquote :: str "N/A" ++ [dquote];
    squote :: str "N/A" ++ [squote];
    str ":N/A";
    str ": N/A";
    ":"%char :: newline :: str "N/A";
    ":"%char :: creturn :: str "N/A" ].

Definition na_free (s : text) : bool :=
  forallb (fun t => negb (Py.contains t s)) na_tokens.

(** [closes s]: after blanks, [s] goes on with a closing brace or
    bracket. *)
Fixpoint closes (s : text) : bool :=
  match s with
  | [] => false
  | c :: s' =>
      if Py.isspace c then closes s'
      else Py.chr_eqb c "}" || Py.chr_eqb c "]"
  end.

(** A trailing comma at the head of [s]. *)
Definition comma_closes (s : text) : bool :=
  match s with
  | c :: s' => Py.chr_eqb c "," && closes s'
  | [] => false
  end.

(** No comma of [s] is a trailing comma. *)
Fixpoint comma_free (s : text) : bool :=
  match s with
  | [] => true
  | _ :: s' => negb (comma_closes s) && comma_free s'
  end.

(** What the two replacements of line breaks do to one character. *)
Definition unbreak (c : ascii) : ascii :=
  if Py.chr_eqb creturn c then " "%char
  else if Py.chr_eqb newline c then " "%char else c.

(** A character that is no blank of the three above. *)
Definition plain (c : ascii) : bool :=
  negb (Py.chr_eqb c " " || Py.chr_eqb c newline || Py.chr_eqb c creturn).

End Tokens.

(** ** A template to run the filler on *)

(** A template with the members the filler names. *)
Definition sample_template : json :=
  let section (members : list (text * json)) : json :=
    JDict (members ++ [ (str "customTags", JList []);
                        (str "extraNotes", JStr []) ]) in
  JDict
    [ (str "jobProfile",
       JDict
         [ (str "JobId", JStr []);
           (str "coreDetails",
            section
              [ (str "title", JStr []);
                (str "jobSummary", JStr []);
                (str "employmentType",
                 JDict [ (str "agreement", JStr []);
                         (str "schedule", JStr []);
                         (str "term", JStr []) ]);
                (str "jobLocation",
                 JDict [ (str "type", JStr []);
                         (str "applicantLocationRequirement", JStr []) ]) ]);
           (str "responsibilities",
            section
              [ (str "dayToDayDuties", JList []);
                (str "keyObjectives", JList []) ]);
           (str "qualifications",
            section
              [ (str "skills",
                 JDict [ (str "technical", JList []);
                         (str "soft", JList []) ]);
                (str "experience",
                 JDict [ (str "requiredYears", JInt 0);
                         (str "description", JStr []) ]);
                (str "education",
                 JDict [ (str "requiredCredential", JStr []);
                         (str "acceptsExperienceInLieu", JBool false) ]) ]);
           (str "companyContext",
            section
              [ (str "culture", JStr []);
                (str "growthOpportunities", JStr []) ]);
           (str "compensation",
            section
              [ (str "salary",
                 JDict [ (str "min", JInt 0);
                         (str "max", JInt 0);
                         (str "currency", JStr []) ]);
                (str "benefits", JList []) ]);
           (str "interviewGuidance",
            section
              [ (str "competencyProfile", JList []);
                (str "assessmentPlan", JList []);
                (str "interviewFlow",
                 JList [ JDict [ (str "stage", JStr []);
                                 (str "durationMinutes", JInt 0);
                                 (str "evaluators", JList []) ] ]) ]);
           (str "meta",
            JDict [ (str "lastUpdated", JStr []);
                    (str "source", JStr []);
                    (str "schemaVersion", JStr []);
                    (str "customFields",
                     JDict [ (str "hardwareRequirement", JStr []);
                             (str "timezoneOverlap", JStr []);
                             (str "clearance", JStr []) ]) ]) ]) ].

(** ** Vocabulary of the statements on conversations *)

Module Exchange.

(** An exchange in the standard form: the two keys [role] and [content],
    in this order, and nothing else. *)
Definition standard (exchange : json) : Prop :=
  exists role content,
    exchange = JDict [(str "role", role); (str "content", content)].

End Exchange.

(** ** Vocabulary of the statements on the field map *)

Module Fields.

(** A value as the field map holds it: not empty, no blanks around it,
    and the sentinel itself when it reads [open] in whatever case. *)
Definition settled (value : text) : Prop :=
  value <> [] /\ Py.strip value = value
  /\ (Py.lower value = str "open" -> value = str "OPEN").

End Fields.

(** ** Vocabulary of the statements on the cleaner and the coercion *)

Module Cleaned.

(** A text the cleaner may return: not empty, no blanks around it, none
    of the words for a missing value and none of the field descriptions. *)
Definition presentable (result : text) : Prop :=
  result <> [] /\ Py.strip result = result
  /\ Cleaner.among (Py.lower result) Cleaner.negative_tokens = false
  /\ Cleaner.among result Cleaner.field_descriptions = false.

End Cleaned.

Module Kinds.

(** The JSON type of a value. *)
Inductive kind : Type :=
| Null | Boolean | Number | String | Array | Object.

Definition kind_of (v : json) : kind :=
  match v with
  | JNull => Null
  | JBool _ => Boolean
  | JInt _ => Number
  | JStr _ => String
  | JList _ => Array
  | JDict _ => Object
  end.

End Kinds.

(** ** Vocabulary of the statements on paths *)

Module Paths.

(** Two lists of keys that part at some key: neither is a prefix of the
    other. *)
Fixpoint diverge (a b : list text) : bool :=
  match a, b with
  | x :: a', y :: b' => if Py.text_eqb x y then diverge a' b' else true
  | _, _ => false
  end.

End Paths.

(** ** The years of experience of the pattern-based transformer
    ([Job Description Transformer_V1.2.py]) *)

Module Qualifications.

Local Open Scope Z_scope.

(** [years?], and an optional [of] with the blanks after it, under
    [re.IGNORECASE] *)
Definition years : Re.re :=
  Re.Seq (Re.lit_i (str "year")) (Re.opt (Re.chr_i "s")).
Definition of_ : Re.re :=
  Re.opt (Re.Seq (Re.lit_i (str "of")) (Re.star Re.space)).

(** [self.experience_patterns], matched under [re.IGNORECASE]; [OF]
    stands for the optional group above:
    - [(\d+)\+?\s*years?\s*OF experience]
    - [(\d+)\+?\s*years?\s*in]
    - [minimum\s*OF(\d+)\s*years?]
    - [at least\s*(\d+)\s*years?] *)
Definition experience_patterns : list Re.re :=
  [ Re.seqs [ Re.Grp 1 (Re.plus Re.digit); Re.opt (Re.chr "+");
              Re.star Re.space; years; Re.star Re.space; of_;
              Re.lit_i (str "experience") ];
    Re.seqs [ Re.Grp 1 (Re.plus Re.digit); Re.opt (Re.chr "+");
              Re.star Re.space; years; Re.star Re.space;
              Re.lit_i (str "in") ];
    Re.seqs [ Re.lit_i (str "minimum"); Re.star Re.space; of_;
              Re.Grp 1 (Re.plus Re.digit); Re.star Re.space; years ];
    Re.seqs [ Re.lit_i (str "at least"); Re.star Re.space;
              Re.Grp 1 (Re.plus Re.digit); Re.star Re.space; years ] ].

(** The numbers of the matches in the order of the two loops: pattern by
    pattern, match by match. *)
Definition year_candidates (t : text) : list Z :=
  concat
    (map (fun pattern =>
            map (fun m => Py.int_of_digits (Re.group t m 1))
                (Re.finditer pattern t))
         experience_patterns).

(** The loops: the first number within [0 .. 20] is returned. *)
Fixpoint first_in_range (candidates : list Z) : Z :=
  match candidates with
  | [] => 3
  | years :: rest =>
      if (0 <=? years) && (years <=? 20) then years else first_in_range rest
  end.

Definition _extract_experience_years (t : text) : Z :=
  first_in_range (year_candidates t).

End Qualifications.

(** ** What a match of a pattern is

    The matcher of [Re] searches; this says what it finds.  A state is an
    offset, the rest of the subject from there, and the captures so far;
    [spans r st st'] holds when the pattern [r] can take the matcher from
    [st] to [st']. *)

Module Spans.

Definition state : Type := nat * text * Re.caps.

Fixpoint spans (r : Re.re) (st st' : state) : Prop :=
  match r with
  | Re.Eps => st' = st
  | Re.Chr p =>
      exists x, p x = true /\ st.1.2 = x :: st'.1.2
                /\ st'.1.1 = S st.1.1 /\ st'.2 = st.2
  | Re.Seq a b => exists st1, spans a st st1 /\ spans b st1 st'
  | Re.Alt a b => spans a st st' \/ spans b st st'
  | Re.Star _ a => rtc (spans a) st st'
  | Re.Grp n a =>
      exists c, spans a st (st'.1, c)
                /\ st'.2 = (n, (st.1.1, st'.1.1)) :: c
  | Re.Bol => st.1.1 = 0 /\ st' = st
  | Re.Eol => (st.1.2 = [] \/ st.1.2 = [newline]) /\ st' = st
  end.

(** Every match of [r] takes a character with the property [P]. *)
Definition feeds (P : ascii -> Prop) (r : Re.re) : Prop :=
  forall st st', spans r st st' -> exists x, x ∈ st.1.2 /\ P x.

(** A decimal digit. *)
Definition digit (x : ascii) : Prop := Py.isdigit x = true.

End Spans.

(** ** Vocabulary of the statements on amounts *)

Module Amounts.

(** The text of an amount without a thousands separator: one to three
    digits, and two more after a point or nothing. *)
Inductive amount : text -> Prop :=
| amount_whole d :
    1 <= length d <= 3 -> Forall Spans.digit d -> amount d
| amount_cents d x y :
    1 <= length d <= 3 -> Forall Spans.digit d ->
    Spans.digit x -> Spans.digit y ->
    amount (d ++ ["."%char; x; y]).

End Amounts.

(** * Properties *)

Example strip_example :
  Py.strip (str "  a b  ") = str "a b".
Proof. reflexivity. Qed.

Example split_example :
  Py.split ":" (str "a:b:") = [str "a"; str "b"; str ""].
Proof. reflexivity. Qed.

Example replace_example :
  Py.replace (str "aa") (str "b") (str "aaaXaa") = str "baXb".
Proof. reflexivity. Qed.

Example slice_example :
  Py.slice (str "abcdef") 2 (-1)%Z = str "cde".
Proof. reflexivity. Qed.

Example sub_example :
  Re.remove (Re.seqs [Re.star Re.space; Re.chr "("; Re.lazy Re.dot; Re.chr ")"])
    (str "a (b) c (d)") = str "a c".
Proof. vm_compute. reflexivity. Qed.

Example search_example :
  Re.search (Re.Grp 1 (Re.plus Re.digit)) (str "ab 123 45") = Some (3, 6, [(1, (3, 6))])%nat.
Proof. vm_compute. reflexivity. Qed.

Example sub_empty_example :
  Re.sub (Re.star (Re.chr "x")) (fun _ => str "-") (str "abxd") = str "-a-b--d-".
Proof. vm_compute. reflexivity. Qed.

Example extract_example :
  Evaluation.locate_json (str "Sure: {a:{b:1}} and } more {") = Some (str "{a:{b:1}}").
Proof. vm_compute. reflexivity. Qed.

Example extract_prefix_brace :
  Evaluation.locate_json (str "Use {x}: {a:1} done") = Some (str "{x}").
Proof. vm_compute. reflexivity. Qed.

Example clean_example :
  Evaluation._clean_json_response (str "{a: N/A, b:[1, 2, ] , }") = str "{a: null, b:[1, 2 ]  }".
Proof. vm_compute. reflexivity. Qed.

(** ** Facts on the string primitives *)

Section PyFacts.

Lemma chr_eqb_true a b : Py.chr_eqb a b = true <-> a = b.
Proof. apply Ascii.eqb_eq. Qed.

Lemma chr_eqb_false a b : Py.chr_eqb a b = false <-> a <> b.
Proof. apply Ascii.eqb_neq. Qed.

Lemma chr_eqb_refl a : Py.chr_eqb a a = true.
Proof. by apply chr_eqb_true. Qed.

Lemma startswith_app p s : Py.startswith p (p ++ s) = true.
Proof. induction p as [|c p IH]; simpl; [done|]. by rewrite chr_eqb_refl. Qed.

Lemma startswith_split p q s :
  Py.startswith (p ++ q) s
  = Py.startswith p s && Py.startswith q (drop (length p) s).
Proof.
  revert s; induction p as [|c p IH]; intros s; simpl; [done|].
  destruct s as [|x s]; simpl; [done|].
  rewrite IH. by destruct (Py.chr_eqb c x).
Qed.

(** [find_at] fails exactly when no suffix starts with the needle. *)
Lemma find_at_None needle s i :
  Py.find_at needle s i = None <->
  forall k, Py.startswith needle (drop k s) = false.
Proof.
  revert i; induction s as [|c s IH]; intros i; simpl.
  - destruct (Py.startswith needle []) eqn:E; split; try done.
    + intros H. specialize (H 0%nat). simpl in H. congruence.
    + intros _ k. by rewrite drop_nil.
  - destruct (Py.startswith needle (c :: s)) eqn:E.
    + split; [done|]. intros H. specialize (H 0%nat). simpl in H. congruence.
    + rewrite IH. split.
      * intros H [|k]; [done|]. apply H.
      * intros H k. apply (H (S k)).
Qed.

Lemma contains_false needle s :
  Py.contains needle s = false <->
  forall k, Py.startswith needle (drop k s) = false.
Proof.
  unfold Py.contains. rewrite <- (find_at_None needle s 0).
  destruct (Py.find_at needle s 0); split; congruence.
Qed.

(** The first occurrence of a character that the prefix does not hold. *)
Lemma find_at_chr c p s i :
  Py.contains [c] p = false ->
  Py.find_at [c] (p ++ c :: s) i = Some (i + length p)%nat.
Proof.
  revert i; induction p as [|x p IH]; intros i H.
  - simpl. rewrite chr_eqb_refl. f_equal. lia.
  - unfold Py.contains in H. simpl in H. simpl.
    destruct (Py.chr_eqb c x) eqn:E; [done|].
    rewrite IH; [f_equal; lia|].
    apply contains_false. apply (find_at_None [c] p 1).
    by destruct (Py.find_at [c] p 1).
Qed.

Lemma lstrip_app_nonspace p c s :
  Py.isspace c = false ->
  Py.lstrip (p ++ c :: s) = Py.lstrip p ++ c :: s.
Proof.
  intros Hc. induction p as [|x p IH]; simpl.
  - by rewrite Hc.
  - by destruct (Py.isspace x).
Qed.

Lemma rstrip_app_nonspace p c s :
  Py.isspace c = false ->
  Py.rstrip (p ++ c :: s) = p ++ c :: Py.rstrip s.
Proof.
  intros Hc. unfold Py.rstrip.
  rewrite rev_app_distr. simpl. rewrite <- app_assoc. simpl.
  rewrite lstrip_app_nonspace by done.
  rewrite rev_app_distr. simpl. rewrite rev_involutive.
  by rewrite <- app_assoc.
Qed.

(** What [lstrip] leaves starts with a character of the text. *)
Lemma lstrip_head p x q : Py.lstrip p = x :: q -> x ∈ p.
Proof.
  induction p as [|y p IH]; simpl; [done|].
  destruct (Py.isspace y).
  - intros H. right. by apply IH.
  - intros [= -> _]. left.
Qed.

Lemma contains_chr_false c p : Py.contains [c] p = false -> c ∉ p.
Proof.
  intros H Hin. rewrite contains_false in H.
  apply list_elem_of_lookup in Hin as [k Hk].
  specialize (H k). apply drop_S in Hk. rewrite Hk in H.
  simpl in H. by rewrite chr_eqb_refl in H.
Qed.

End PyFacts.

(** ** Extraction of the first complete object *)

Section Extraction.

Import Evaluation Braces.
Local Open Scope Z_scope.

(** Inside a nested body the counter stays positive, so the loop runs up
    to the closing brace of the object and returns there. *)
Lemma extract_loop_nested body : forall whole rest i d start_idx,
  0 <= d -> start_idx <> -1 ->
  nested d body = true ->
  extract_loop whole (body ++ "}"%char :: rest) i (d + 1) start_idx
  = Py.slice whole start_idx (Z.of_nat (i + length body) + 1).
Proof.
  induction body as [|c body IH]; intros whole rest i d start_idx Hd Hs Hn.
  - simpl in Hn. apply Z.eqb_eq in Hn. subst d. simpl.
    apply Z.eqb_neq in Hs. rewrite Hs. simpl.
    by rewrite Nat.add_0_r.
  - simpl in Hn. apply andb_true_iff in Hn as [Hc Hn].
    apply Z.leb_le in Hc. unfold delta in Hc, Hn.
    cbn [app extract_loop].
    replace (Z.of_nat (i + length (c :: body)) + 1)
      with (Z.of_nat (S i + length body) + 1) by (simpl; lia).
    destruct (Py.chr_eqb c "{") eqn:E1.
    + apply Z.eqb_neq in Hs. rewrite Hs.
      replace (d + 1 + 1) with ((d + 1) + 1) by lia.
      apply IH; [lia| by apply Z.eqb_neq |done].
    + destruct (Py.chr_eqb c "}") eqn:E2.
      * replace (d + 1 - 1 =? 0) with false
          by (symmetry; apply Z.eqb_neq; lia).
        simpl.
        replace (d + 1 - 1) with ((d + -1) + 1) by lia.
        apply IH; [lia|done|done].
      * replace (d + 0) with d in Hn by lia. by apply IH.
Qed.

Lemma slice_prefix (a b : text) :
  Py.slice (a ++ b) 0 (Z.of_nat (length a)) = a.
Proof.
  unfold Py.slice, Py.clamp. simpl.
  rewrite length_app.
  replace (Z.to_nat (Z.min (Z.max 0 0) _)) with 0%nat by lia.
  destruct (Z.of_nat (length a) <? 0) eqn:E; [apply Z.ltb_lt in E; lia|].
  replace (Z.to_nat _) with (length a) by lia.
  rewrite Nat.sub_0_r, drop_0. by rewrite take_app_length.
Qed.

Lemma extract_object body rest :
  nested 0 body = true ->
  _extract_first_complete_json (object body ++ rest) = object body.
Proof.
  intros Hn. unfold _extract_first_complete_json, object.
  cbn [app extract_loop]. rewrite chr_eqb_refl. 
  change (-1 =? -1) with true. cbn iota.
  rewrite <- app_assoc. cbn [app].
  rewrite (extract_loop_nested body _ rest 1 0 0); [|lia|lia|done].
  replace (Z.of_nat (1 + length body) + 1)
    with (Z.of_nat (length ("{"%char :: body ++ ["}"%char])))
    by (simpl; rewrite length_app; simpl; lia).
  change ("{"%char :: body ++ "}"%char :: rest)
    with (("{"%char :: body) ++ "}"%char :: rest).
  rewrite (app_assoc _ ["}"%char] rest : (("{"%char :: body) ++ "}"%char :: rest) = _).
  apply slice_prefix.
Qed.

Lemma strip_around_object prefix body suffix :
  Py.strip (prefix ++ object body ++ suffix)
  = Py.lstrip prefix ++ object body ++ Py.rstrip suffix.
Proof.
  unfold Py.strip, object. cbn [app].
  rewrite lstrip_app_nonspace by done.
  rewrite <- !app_assoc. cbn [app].
  change (Py.lstrip prefix ++ "{"%char :: body ++ "}"%char :: suffix)
    with (Py.lstrip prefix ++ ("{"%char :: body) ++ "}"%char :: suffix).
  rewrite (app_assoc (Py.lstrip prefix)).
  rewrite rstrip_app_nonspace by done.
  by rewrite <- app_assoc.
Qed.

Lemma slice_from_length (a b : text) :
  Py.slice_from (a ++ b) (Z.of_nat (length a)) = b.
Proof.
  unfold Py.slice_from, Py.clamp. rewrite length_app.
  destruct (Z.of_nat (length a) <? 0) eqn:E; [apply Z.ltb_lt in E; lia|].
  replace (Z.to_nat _) with (length a) by lia.
  by rewrite drop_app_length.
Qed.

End Extraction.

(** C1 (as amended).  When the reply holds no [```json] fence marker and
    the prose in front of the object holds no opening brace, the extraction
    step of [call_ollama_api] returns exactly the text of the embedded
    object [{ body }] whose braces are nested, whatever follows it: the
    scan starts at the first opening brace and stops at the closing brace
    that brings the depth counter back to zero. *)
Theorem locate_json_embedded_object (prefix body suffix : text) :
  Py.contains (str "{") prefix = false ->
  Py.contains Evaluation.fence_json
    (prefix ++ Braces.object body ++ suffix) = false ->
  Braces.nested 0 body = true ->
  Evaluation.locate_json (prefix ++ Braces.object body ++ suffix)
  = Some (Braces.object body).
Proof.
  intros Hp Hf Hn. unfold Evaluation.locate_json. rewrite Hf.
  rewrite strip_around_object.
  destruct (Py.startswith (str "{") _) eqn:Hs.
  - destruct (Py.lstrip prefix) as [|x q] eqn:Hl.
    + cbn [app]. by rewrite extract_object.
    + exfalso. simpl in Hs.
      apply andb_true_iff in Hs as [Hx _]. apply chr_eqb_true in Hx. subst x.
      apply lstrip_head in Hl. by apply (contains_chr_false "{" prefix).
  - assert (Hfind : Py.find (str "{") (prefix ++ Braces.object body ++ suffix)
                    = Z.of_nat (length prefix)).
    { unfold Py.find. change (str "{") with ["{"%char].
      unfold Braces.object. cbn [app].
      by rewrite (find_at_chr "{" prefix _ 0 Hp). }
    rewrite Hfind.
    replace (negb (Z.of_nat (length prefix) =? -1)%Z) with true
      by (symmetry; apply negb_true_iff, Z.eqb_neq; lia).
    rewrite slice_from_length. by rewrite extract_object.
Qed.

(** The amended statement at the reply [Sure: {a:{b:1}} and } more {]. *)
Lemma locate_json_embedded_object_witness :
  Evaluation.locate_json
    (str "Sure: " ++ Braces.object (str "a:{b:1}") ++ str " and } more {")
  = Some (Braces.object (str "a:{b:1}")).
Proof.
  apply (locate_json_embedded_object (str "Sure: ") (str "a:{b:1}")
           (str " and } more {")); reflexivity.
Defined.

(** C1 fails as stated: with balanced braces in the prose in front of the
    object, the scan starts in the prose and returns [{x}], not the
    embedded object [{"a":1}]. *)
Lemma locate_json_prose_brace :
  let body := dquote :: "a"%char :: dquote :: str ":1" in
  let reply := str "Use {x}: " ++ Braces.object body ++ str " done" in
  Braces.nested 0 body = true /\
  Evaluation.locate_json reply = Some (str "{x}") /\
  Evaluation.locate_json reply <> Some (Braces.object body).
Proof. vm_compute. repeat split; congruence. Qed.

(** ** The sanitizer on clean input *)

Section Sanitizing.

Import Evaluation Tokens.

Lemma replace_go_absent old new s :
  (forall k, Py.startswith old (drop k s) = false) ->
  Py.replace_go old new 0 s = s.
Proof.
  induction s as [|c s IH]; intros H; cbn [Py.replace_go]; [done|].
  pose proof (H 0%nat) as H0. rewrite drop_0 in H0. rewrite H0.
  f_equal. apply IH. intros k. apply (H (S k)).
Qed.

Lemma replace_absent old new s :
  Py.contains old s = false -> Py.replace old new s = s.
Proof. intros H. apply replace_go_absent. by apply contains_false. Qed.

Lemma replace_chr c d s :
  Py.replace [c] [d] s = map (fun x => if Py.chr_eqb c x then d else x) s.
Proof.
  unfold Py.replace. induction s as [|x s IH]; simpl; [done|].
  rewrite andb_true_r. destruct (Py.chr_eqb c x); simpl; by rewrite IH.
Qed.

Lemma replace_breaks s :
  Py.replace [creturn] (str " ") (Py.replace [newline] (str " ") s)
  = map unbreak s.
Proof.
  change (str " ") with [" "%char]. rewrite !replace_chr, map_map.
  apply map_ext. intros c. unfold unbreak.
  destruct (Py.chr_eqb newline c) eqn:E.
  - apply chr_eqb_true in E. by subst c.
  - done.
Qed.

Lemma unbreak_fixed c a : c <> " "%char -> unbreak a = c -> a = c.
Proof.
  unfold unbreak. intros Hc.
  destruct (Py.chr_eqb creturn a); [congruence|].
  destruct (Py.chr_eqb newline a); congruence.
Qed.

Lemma unbreak_space a :
  unbreak a = " "%char -> a = " "%char \/ a = newline \/ a = creturn.
Proof.
  unfold unbreak.
  destruct (Py.chr_eqb creturn a) eqn:E1; [apply chr_eqb_true in E1; auto|].
  destruct (Py.chr_eqb newline a) eqn:E2; [apply chr_eqb_true in E2; auto|].
  auto.
Qed.

Lemma unbreak_not_break a : unbreak a <> newline /\ unbreak a <> creturn.
Proof.
  unfold unbreak.
  destruct (Py.chr_eqb creturn a) eqn:E1; [done|].
  destruct (Py.chr_eqb newline a) eqn:E2; [done|].
  apply chr_eqb_false in E1, E2. split; congruence.
Qed.

Lemma unbreak_idem c : unbreak (unbreak c) = unbreak c.
Proof.
  unfold unbreak.
  destruct (Py.chr_eqb creturn c) eqn:E1; [done|].
  destruct (Py.chr_eqb newline c) eqn:E2; [done|].
  by rewrite E1, E2.
Qed.

Lemma unbreak_isspace c : Py.isspace (unbreak c) = Py.isspace c.
Proof.
  unfold unbreak.
  destruct (Py.chr_eqb creturn c) eqn:E1; [apply chr_eqb_true in E1; by subst|].
  destruct (Py.chr_eqb newline c) eqn:E2; [apply chr_eqb_true in E2; by subst|].
  done.
Qed.

(** A needle without blanks starts the text after the replacements of
    line breaks exactly if it started the text before them. *)
Lemma startswith_unbreak needle s :
  forallb plain needle = true ->
  Py.startswith needle (map unbreak s) = Py.startswith needle s.
Proof.
  revert s; induction needle as [|c needle IH]; intros s Hn; [done|].
  simpl in Hn. apply andb_true_iff in Hn as [Hc Hn].
  destruct s as [|a s]; simpl; [done|].
  rewrite IH by done. f_equal.
  unfold plain in Hc. apply negb_true_iff in Hc.
  apply orb_false_iff in Hc as [Hc H3]. apply orb_false_iff in Hc as [H1 H2].
  apply chr_eqb_false in H1, H2, H3.
  destruct (Py.chr_eqb c (unbreak a)) eqn:E1, (Py.chr_eqb c a) eqn:E2;
    try done.
  - apply chr_eqb_true in E1. apply chr_eqb_false in E2.
    exfalso. apply E2. symmetry. by apply unbreak_fixed.
  - apply chr_eqb_true in E2. apply chr_eqb_false in E1. subst a.
    exfalso. apply E1. unfold unbreak.
    destruct (Py.chr_eqb creturn c) eqn:F1;
      [apply chr_eqb_true in F1; congruence|].
    destruct (Py.chr_eqb newline c) eqn:F2; [|done].
    apply chr_eqb_true in F2; congruence.
Qed.

Lemma contains_unbreak needle s :
  forallb plain needle = true ->
  Py.contains needle (map unbreak s) = Py.contains needle s.
Proof.
  intros Hn.
  assert (H : forall t, Py.contains needle t = false <->
                        Py.contains needle (map unbreak t) = false).
  { intros t. rewrite !contains_false. split; intros H k.
    - rewrite skipn_map, startswith_unbreak; done.
    - rewrite <- startswith_unbreak, <- skipn_map; done. }
  destruct (Py.contains needle s) eqn:E1,
           (Py.contains needle (map unbreak s)) eqn:E2; try done.
  - apply H in E2. congruence.
  - apply H in E1. congruence.
Qed.

(** The bare token with a space can come from any of the three bare
    tokens. *)
Lemma startswith_bare_unbreak s :
  Py.startswith (str ": N/A") (map unbreak s) = true ->
  Py.startswith (str ": N/A") s = true \/
  Py.startswith (":"%char :: newline :: str "N/A") s = true \/
  Py.startswith (":"%char :: creturn :: str "N/A") s = true.
Proof.
  change (str ": N/A") with ([":"%char; " "%char] ++ str "N/A").
  change (":"%char :: newline :: str "N/A")
    with ([":"%char; newline] ++ str "N/A").
  change (":"%char :: creturn :: str "N/A")
    with ([":"%char; creturn] ++ str "N/A").
  rewrite !startswith_split.
  destruct s as [|a [|b s]]; [done| |].
  { cbn [map Py.startswith]. by rewrite !andb_false_r. }
  cbn [map length skipn]. rewrite !drop_0.
  rewrite (startswith_unbreak (str "N/A")) by done.
  cbn [Py.startswith]. rewrite !andb_true_r.
  intros H. apply andb_true_iff in H as [H Hr].
  apply andb_true_iff in H as [Ha Hb].
  apply chr_eqb_true in Ha, Hb.
  symmetry in Ha. apply unbreak_fixed in Ha; [|done]. subst a.
  symmetry in Hb. rewrite Hr, chr_eqb_refl.
  destruct (unbreak_space b Hb) as [Hb' | [Hb' | Hb']]; subst b;
    rewrite chr_eqb_refl; auto.
Qed.

Lemma unbreak_eqb c p :
  plain p = true -> Py.chr_eqb (unbreak c) p = Py.chr_eqb c p.
Proof.
  intros Hp.
  pose proof (startswith_unbreak [p] [c]) as H. simpl in H.
  rewrite Hp in H. specialize (H eq_refl). rewrite !andb_true_r in H.
  unfold Py.chr_eqb in *. by rewrite (Ascii.eqb_sym _ p), (Ascii.eqb_sym c p).
Qed.

Lemma closes_unbreak s : closes (map unbreak s) = closes s.
Proof.
  induction s as [|c s IH]; simpl; [done|].
  by rewrite unbreak_isspace, IH, !unbreak_eqb.
Qed.

Lemma comma_free_unbreak s : comma_free (map unbreak s) = comma_free s.
Proof.
  induction s as [|c s IH]; [done|].
  cbn [map comma_free comma_closes].
  by rewrite IH, closes_unbreak, unbreak_eqb.
Qed.

Lemma isspace_not_closer c :
  Py.isspace c = true -> Py.chr_eqb c "}" || Py.chr_eqb c "]" = false.
Proof.
  intros H.
  destruct (Py.chr_eqb c "}") eqn:E1; [apply chr_eqb_true in E1; by subst|].
  destruct (Py.chr_eqb c "]") eqn:E2; [apply chr_eqb_true in E2; by subst|].
  done.
Qed.

Lemma closer_false t (K : nat -> text -> Re.caps -> option (nat * Re.caps)) j c :
  closes t = false -> Re.run (Re.one_of (str "}]")) j t c K = None.
Proof.
  destruct t as [|y t]; [done|]. simpl. intros H.
  rewrite orb_false_r.
  destruct (Py.isspace y) eqn:E.
  - by rewrite isspace_not_closer.
  - by rewrite H.
Qed.

(** The blanks and the closer of the pattern find nothing where the text
    does not close. *)
Lemma rounds_space_closes (K : nat -> text -> Re.caps -> option (nat * Re.caps)) t :
  forall fuel j c,
  closes t = false ->
  Re.rounds true (Re.run Re.space)
    (fun j t c => Re.run (Re.one_of (str "}]")) j t c K) fuel j t c = None.
Proof.
  induction t as [|y t IH]; intros fuel j c H.
  - destruct fuel; done.
  - destruct fuel as [|f]; cbn [Re.rounds]; [by apply closer_false|].
    rewrite (closer_false (y :: t)) by done.
    cbn [Re.run Re.space].
    destruct (Py.isspace y) eqn:E; [|done].
    replace (S j =? j)%nat with false by (symmetry; apply Nat.eqb_neq; lia).
    rewrite IH; [done|]. simpl in H. by rewrite E in H.
Qed.

Lemma match_at_trailing_comma ma i s :
  comma_closes s = false -> Re.match_at trailing_comma ma i s = None.
Proof.
  intros H. unfold Re.match_at, trailing_comma, Re.chr, Re.star.
  cbn [Re.run]. destruct s as [|x s]; [done|].
  simpl in H. unfold Py.chr_eqb in *. rewrite Ascii.eqb_sym.
  destruct (Ascii.eqb x ","); [|done].
  by apply rounds_space_closes.
Qed.

Lemma sub_comma_free repl s :
  forall i, comma_free s = true -> Re.sub_go trailing_comma repl 0 i s = s.
Proof.
  induction s as [|x s IH]; intros i H.
  - cbn [Re.sub_go]. by rewrite match_at_trailing_comma.
  - cbn [comma_free] in H. apply andb_true_iff in H as [H1 H2].
    apply negb_true_iff in H1.
    cbn [Re.sub_go]. rewrite match_at_trailing_comma by done.
    by rewrite IH.
Qed.

(** On a text without tokens and trailing commas the sanitizer only
    turns line breaks into spaces. *)
Lemma clean_free x :
  na_free x = true -> comma_free x = true ->
  _clean_json_response x = map unbreak x.
Proof.
  intros Hna Hc. unfold na_free, na_tokens in Hna. cbn [forallb] in Hna.
  apply andb_true_iff in Hna as [H1%negb_true_iff Hna].
  apply andb_true_iff in Hna as [H2%negb_true_iff Hna].
  apply andb_true_iff in Hna as [H3%negb_true_iff Hna].
  apply andb_true_iff in Hna as [H4%negb_true_iff _].
  unfold _clean_json_response.
  rewrite (replace_absent _ _ x H1), (replace_absent _ _ x H2),
    (replace_absent _ _ x H4), (replace_absent _ _ x H3).
  rewrite replace_breaks. unfold Re.sub.
  apply sub_comma_free. by rewrite comma_free_unbreak.
Qed.

Lemma na_free_unbreak x : na_free x = true -> na_free (map unbreak x) = true.
Proof.
  intros Hna. unfold na_free, na_tokens in *. cbn [forallb] in *.
  repeat (apply andb_true_iff in Hna as [?%negb_true_iff Hna]).
  assert (Hbare : Py.contains (str ": N/A") (map unbreak x) = false).
  { apply contains_false. intros k.
    destruct (Py.startswith _ _) eqn:E; [|done].
    rewrite skipn_map in E.
    apply startswith_bare_unbreak in E as [E | [E | E]].
    - assert (F : Py.contains (str ": N/A") x = false) by done.
      rewrite contains_false in F. by rewrite F in E.
    - assert (F : Py.contains (":"%char :: newline :: str "N/A") x = false)
        by done.
      rewrite contains_false in F. by rewrite F in E.
    - assert (F : Py.contains (":"%char :: creturn :: str "N/A") x = false)
        by done.
      rewrite contains_false in F. by rewrite F in E. }
  assert (Hbreak : forall b, b = newline \/ b = creturn ->
            Py.contains (":"%char :: b :: str "N/A") (map unbreak x) = false).
  { intros b Hb. apply contains_false. intros k.
    rewrite skipn_map. destruct (drop k x) as [|a [|a' t]];
      [done|cbn [map Py.startswith]; by rewrite andb_false_r|].
    cbn [map Py.startswith].
    destruct (Py.chr_eqb b (unbreak a')) eqn:E; [|by rewrite andb_false_r].
    apply chr_eqb_true in E. exfalso.
    destruct (unbreak_not_break a') as [N1 N2].
    destruct Hb; subst b; congruence. }
  rewrite Hbare, !Hbreak by auto.
  rewrite !contains_unbreak by done.
  by rewrite H, H0, H1.
Qed.

End Sanitizing.

(** C8.  On a text free of [N/A] tokens and of trailing commas before a
    closing brace or bracket, sanitizing twice gives what sanitizing once
    gives. *)
Theorem clean_json_response_idempotent (x : text) :
  Tokens.na_free x = true ->
  Tokens.comma_free x = true ->
  Evaluation._clean_json_response (Evaluation._clean_json_response x)
  = Evaluation._clean_json_response x.
Proof.
  intros Hna Hc. rewrite (clean_free x) by done.
  rewrite clean_free.
  - rewrite map_map. apply map_ext. intros c. apply unbreak_idem.
  - by apply na_free_unbreak.
  - by rewrite comma_free_unbreak.
Qed.

(** C8 at a two-line object text. *)
Lemma clean_json_response_idempotent_witness :
  let x := str "{a: [1, 2]," ++ newline :: str " b: {c: 3}}" in
  Evaluation._clean_json_response (Evaluation._clean_json_response x)
  = Evaluation._clean_json_response x.
Proof.
  apply (clean_json_response_idempotent
           (str "{a: [1, 2]," ++ newline :: str " b: {c: 3}}"));
    reflexivity.
Defined.

(** ** The early return of the free-text cleaner *)

Section CleanerFacts.

Import Cleaner.

Lemma text_eqb_eq a b : Py.text_eqb a b = true <-> a = b.
Proof.
  revert b; induction a as [|x a IH]; intros [|y b]; simpl; try done.
  rewrite andb_true_iff, IH, chr_eqb_true. split.
  - by intros [-> ->].
  - by intros [= -> ->].
Qed.

Lemma startswith_true n t :
  Py.startswith n t = true <-> exists post, t = n ++ post.
Proof.
  revert t; induction n as [|c n IH]; intros t; simpl.
  - split; [by exists t|done].
  - destruct t as [|x t].
    + split; [done|]. by intros [post H].
    + rewrite andb_true_iff, chr_eqb_true, IH. split.
      * intros [-> [post ->]]. by exists post.
      * intros [post [= -> ->]]. split; [done|by exists post].
Qed.

Lemma contains_true n s :
  Py.contains n s = true <-> exists pre post, s = pre ++ n ++ post.
Proof.
  split.
  - unfold Py.contains. generalize 0%nat.
    induction s as [|c s IH]; intros i; simpl.
    + destruct (Py.startswith n []) eqn:E; [|done].
      intros _. apply startswith_true in E as [post E]. by exists [], post.
    + destruct (Py.startswith n (c :: s)) eqn:E.
      * intros _. apply startswith_true in E as [post E]. by exists [], post.
      * intros H. destruct (IH _ H) as (pre & post & ->).
        by exists (c :: pre), post.
  - intros (pre & post & ->).
    destruct (Py.contains n (pre ++ n ++ post)) eqn:E; [done|].
    rewrite contains_false in E. specialize (E (length pre)).
    rewrite drop_app_length in E.
    by rewrite startswith_app in E.
Qed.

(** A character that lower-cases to a letter of [open] is that letter in
    one of its two cases, and no blank. *)
Lemma lower_letter a c :
  Py.lower_chr a = c -> c ∈ str "open" ->
  Py.upper_chr a = Py.upper_chr c /\ Py.isspace a = false.
Proof.
  intros <- Hin.
  apply list_elem_of_In in Hin.
  destruct a as [[] [] [] [] [] [] [] []]; vm_compute in Hin |- *;
    first [ by split | exfalso; intuition discriminate ].
Qed.

(** The text in any letter case survives the stripping and shows in the
    upper-cased text. *)
Lemma open_upper_strip response :
  Py.contains (str "open") (Py.lower response) = true ->
  Py.contains (str "OPEN") (Py.upper (Py.strip response)) = true.
Proof.
  intros H. apply contains_true in H as (pre & post & H).
  unfold Py.lower in H.
  apply fmap_app_inv in H as (p1 & r1 & -> & H & ->).
  symmetry in H.
  apply fmap_app_inv in H as (occ & p2 & Hocc & -> & ->).
  destruct occ as [|a [|b [|c [|d [|]]]]]; try done.
  injection Hocc as Ha Hb Hc Hd.
  symmetry in Ha, Hb, Hc, Hd.
  apply lower_letter in Ha as [Ha Sa]; [|by vm_compute; left].
  apply lower_letter in Hb as [Hb _]; [|by vm_compute; right; left].
  apply lower_letter in Hc as [Hc _]; [|by vm_compute; do 2 right; left].
  apply lower_letter in Hd as [Hd Sd]; [|by vm_compute; do 3 right; left].
  unfold Py.strip. cbn [app].
  rewrite lstrip_app_nonspace by done.
  change (Py.lstrip p1 ++ a :: b :: c :: d :: p2)
    with (Py.lstrip p1 ++ [a; b; c] ++ d :: p2).
  rewrite app_assoc, rstrip_app_nonspace by done.
  apply contains_true.
  exists (Py.upper (Py.lstrip p1)), (Py.upper (Py.rstrip p2)).
  unfold Py.upper. rewrite !map_app. cbn [map app].
  rewrite Ha, Hb, Hc, Hd. by rewrite <- app_assoc.
Qed.

End CleanerFacts.

(** C10 (as amended).  A response whose text, once stripped of the blanks
    around it, is longer than 10 characters and that holds [open] in any
    letter case is replaced by the sentinel [OPEN], whatever else it says. *)
Theorem clean_response_open_anywhere (response field_path : text) :
  (10 < length (Py.strip response))%nat ->
  Py.contains (str "open") (Py.lower response) = true ->
  Cleaner.clean_response response field_path = str "OPEN".
Proof.
  intros Hlen Hopen. unfold Cleaner.clean_response.
  destruct (Py.text_eqb response []) eqn:E1.
  { apply text_eqb_eq in E1. subst response. simpl in Hlen. lia. }
  destruct (Py.text_eqb (Py.strip response) []) eqn:E2.
  { apply text_eqb_eq in E2. rewrite E2 in Hlen. simpl in Hlen. lia. }
  cbn [orb]. rewrite open_upper_strip by done.
  by apply Nat.ltb_lt in Hlen as ->.
Qed.

(** The amended statement at [Experience with OpenCV]. *)
Lemma clean_response_open_anywhere_witness :
  Cleaner.clean_response (str "Experience with OpenCV")
    (str "jobProfile.qualifications.skills.technical") = str "OPEN".
Proof.
  apply (clean_response_open_anywhere (str "Experience with OpenCV"));
    [vm_compute; lia | reflexivity].
Defined.

(** C10 fails as stated: a response of 11 characters that holds [open]
    but owes its length to the blanks around it is not replaced by the
    sentinel, it is returned in lower case. *)
Lemma clean_response_padded_open :
  let response := str "open       " in
  (10 < length response)%nat /\
  Py.contains (str "open") (Py.lower response) = true /\
  Cleaner.clean_response response (str "jobProfile.coreDetails.title")
  = str "open" /\
  Cleaner.clean_response response (str "jobProfile.coreDetails.title")
  <> str "OPEN".
Proof. vm_compute. repeat split; [lia | congruence]. Qed.

(** C6.  The field-block reader on the reply of the claim, and on two
    replies where the removal of an echoed prefix goes wrong: the name
    [KEY_OBJECTIVES] of the prompt's own format loses its first three
    letters, and a line that opens with [Field:] is split at that colon,
    which leaves an empty name and the real name inside the value. *)
Theorem parse_llama_response_prefixes :
  Ollama.parse_llama_response
    (str "TITLE: Senior Engineer" ++ newline :: str "SALARY: OPEN" ++ [newline])
  = {[ str "TITLE" := str "Senior Engineer"; str "SALARY" := str "OPEN" ]}
  /\ Ollama.parse_llama_response (str "KEY_OBJECTIVES: Ship v2")
     = {[ str "_OBJECTIVES" := str "Ship v2" ]}
  /\ Ollama.parse_llama_response (str "Field: TITLE: Senior Engineer")
     = {[ str "" := str "TITLE: Senior Engineer" ]}.
Proof. vm_compute. done. Qed.

(** ** Conversation reconstruction *)

Section ConversationFacts.

Import Conversation.

Lemma first_present_resolved keys d :
  first_present keys d = Reconstruction.resolved keys d.
Proof.
  unfold Reconstruction.resolved.
  induction keys as [|key keys IH]; [done|].
  cbn [first_present omap list_omap]. by destruct (Dict.get key d).
Qed.

Lemma standardize_all_exchanges entries :
  standardize_all entries = omap Reconstruction.exchange_of entries.
Proof.
  unfold standardize_all.
  induction entries as [|entry entries IH]; [done|].
  cbn [map concat omap list_omap]. rewrite IH.
  destruct entry as [| | | | |d]; try done.
  cbn [standardized Reconstruction.exchange_of].
  change role_keys with Reconstruction.role_aliases.
  change message_keys with Reconstruction.content_aliases.
  rewrite !first_present_resolved.
  destruct (Reconstruction.resolved Reconstruction.role_aliases d); [|done].
  by destruct (Reconstruction.resolved Reconstruction.content_aliases d).
Qed.

Lemma first_conversation_resolved keys info :
  first_conversation keys info
  = from_option Reconstruction.exchanges_of []
      (Reconstruction.resolved keys info).
Proof.
  unfold Reconstruction.resolved.
  induction keys as [|key keys IH]; [done|].
  cbn [first_conversation omap list_omap].
  destruct (Dict.get key info) as [raw|]; [|done].
  destruct raw; try done. cbn. apply standardize_all_exchanges.
Qed.

Lemma qa_turns_zipped render questions : forall answers,
  qa_turns render questions answers
  = concat
      (zip_with
         (fun q a => [ Reconstruction.turn render (str "assistant") q;
                       Reconstruction.turn render (str "user") a ])
         questions answers).
Proof.
  induction questions as [|q questions IH]; intros [|a answers]; try done.
  cbn [qa_turns zip_with concat]. rewrite IH.
  by destruct q, a.
Qed.

End ConversationFacts.

(** C5.  Conversation reconstruction returns what the first of three
    attempts that yields an exchange yields, tried in the order: the
    wrapped session list; the direct object, read under the first of the
    aliased conversation keys that it has; the parallel question and answer
    arrays.  Role and content of an exchange are the values under the first
    alias of each set that the entry has, and an entry without one of them
    is dropped.  The parallel arrays [Q1] and [A1] give the assistant turn
    [Q1] followed by the user turn [A1]; a wrapped history under the keys
    [speaker] and [text] comes back under [role] and [content], without the
    entry that has no content; an object whose [conversation] yields no
    exchange is read from its question and answer arrays. *)
Theorem extract_conversation_data_attempts (render : json -> text) :
  (forall session_information,
     Conversation.extract_conversation_data render session_information
     = Reconstruction.first_yield
         [ Reconstruction.wrapped session_information;
           Reconstruction.direct session_information;
           Reconstruction.parallel render session_information ])
  /\ Conversation.extract_conversation_data render
       (JDict [ (str "questions", JList [JStr (str "Q1")]);
                (str "answers", JList [JStr (str "A1")]) ])
     = [ JDict [ (str "role", JStr (str "assistant"));
                 (str "content", JStr (str "Q1")) ];
         JDict [ (str "role", JStr (str "user"));
                 (str "content", JStr (str "A1")) ] ]
  /\ Conversation.extract_conversation_data render
       (JList
          [ JDict
              [ (str "session_data",
                 JDict
                   [ (str "conversation_history",
                      JList
                        [ JDict [ (str "speaker", JStr (str "assistant"));
                                  (str "text", JStr (str "Tell me")) ];
                          JDict [ (str "speaker", JStr (str "user")) ];
                          JStr (str "note");
                          JDict [ (str "type", JStr (str "user"));
                                  (str "role", JStr (str "candidate"));
                                  (str "response", JStr (str "Sure"));
                                  (str "message", JStr (str "Yes")) ] ]) ]) ] ])
     = [ JDict [ (str "role", JStr (str "assistant"));
                 (str "content", JStr (str "Tell me")) ];
         JDict [ (str "role", JStr (str "candidate"));
                 (str "content", JStr (str "Yes")) ] ]
  /\ Conversation.extract_conversation_data render
       (JDict [ (str "messages",
                 JList [ JDict [ (str "type", JStr (str "user"));
                                 (str "content", JStr (str "Hello")) ] ]);
                (str "questions", JList [JStr (str "Q1")]);
                (str "answers", JList [JStr (str "A1")]) ])
     = [ JDict [ (str "role", JStr (str "user"));
                 (str "content", JStr (str "Hello")) ] ]
  /\ Conversation.extract_conversation_data render
       (JDict [ (str "conversation",
                 JList [ JDict [ (str "content", JStr (str "Hello")) ] ]);
                (str "questions", JList [JStr (str "Q1")]);
                (str "answers", JList [JStr (str "A1")]) ])
     = [ JDict [ (str "role", JStr (str "assistant"));
                 (str "content", JStr (str "Q1")) ];
         JDict [ (str "role", JStr (str "user"));
                 (str "content", JStr (str "A1")) ] ].
Proof.
  split; [|by repeat split].
  intros si. destruct si as [| | | |items|info]; try reflexivity.
  - destruct items as [|item items]; [reflexivity|].
    destruct item as [| | | | |d]; try reflexivity.
    cbn [Conversation.extract_conversation_data Reconstruction.wrapped
         Reconstruction.direct Reconstruction.parallel].
    destruct (Dict.get (str "session_data") d) as [[| | | | |sd]|];
      try reflexivity.
    destruct (Dict.get (str "conversation_history") sd) as [[| | | |h|]|];
      try reflexivity.
    cbn [from_option Reconstruction.exchanges_of].
    rewrite standardize_all_exchanges.
    by destruct (omap Reconstruction.exchange_of h).
  - cbn [Conversation.extract_conversation_data Reconstruction.wrapped
         Reconstruction.direct Reconstruction.parallel
         Reconstruction.first_yield].
    change Conversation.conversation_keys
      with Reconstruction.conversation_aliases.
    rewrite first_conversation_resolved.
    destruct (from_option _ _ _); [|done].
    destruct (Dict.get (str "questions") info) as [[| | | |questions|]|];
      try done.
    destruct (Dict.get (str "answers") info) as [[| | | |answers|]|];
      try done.
    rewrite qa_turns_zipped.
    by destruct (concat _).
Qed.

(** C5 fails as stated: an object whose first aliased key holds an empty
    list exposes its conversation under a later alias, so the second shape
    yields an exchange where the first shape yields none, and the
    reconstruction returns no exchange at all. *)
Lemma extract_conversation_data_later_alias :
  let exchange := JDict [ (str "role", JStr (str "user"));
                           (str "content", JStr (str "Hello")) ] in
  let session_information :=
    JDict [ (str "conversation", JList []);
            (str "messages", JList [exchange]) ] in
  Reconstruction.wrapped session_information = []
  /\ Reconstruction.exposes session_information [exchange]
  /\ (forall render,
        Conversation.extract_conversation_data render session_information
        = []).
Proof.
  cbv zeta. split; [reflexivity|]. split; [|reflexivity].
  eexists _, (str "messages"), _. split; [reflexivity|].
  split; [|by split]. unfold Reconstruction.conversation_aliases.
  set_solver.
Qed.

(** ** The batch driver *)

Section BatchFacts.

Import Batch.

Context {world : Type} (evaluate : text -> world -> outcome * world).

Lemma batch_loop_tally session_ids : forall successful failed w,
  let '(successful', failed', _) :=
    batch_loop world evaluate session_ids successful failed w in
  map fst successful'
  = map fst successful
    ++ map fst (List.filter (succeeds world evaluate)
                  (visits world evaluate session_ids w))
  /\ failed'
     = failed
       ++ map fst (List.filter (fun v => negb (succeeds world evaluate v))
                     (visits world evaluate session_ids w)).
Proof.
  induction session_ids as [|sid rest IH]; intros successful failed w.
  - cbn. by rewrite !app_nil_r.
  - cbn [batch_loop visits List.filter].
    assert (Hs : succeeds world evaluate (sid, w)
                 = match fst (evaluate sid w) with
                   | Returned (Some evaluation) => truthy evaluation
                   | _ => false
                   end) by done.
    rewrite Hs. clear Hs.
    destruct (evaluate sid w) as [[[ev|]|] w'] eqn:E; cbn [fst snd negb];
      [destruct (truthy ev) eqn:T; cbn [negb]|..].
    + specialize (IH (successful ++ [(sid, ev)]) failed w').
      destruct (batch_loop _ _ _ _ _ _) as [[s' f'] w''].
      destruct IH as [-> ->]. rewrite map_app. cbn. by rewrite <- app_assoc.
    + specialize (IH successful (failed ++ [sid]) w').
      destruct (batch_loop _ _ _ _ _ _) as [[s' f'] w''].
      destruct IH as [-> ->]. cbn. by rewrite <- app_assoc.
    + specialize (IH successful (failed ++ [sid]) w').
      destruct (batch_loop _ _ _ _ _ _) as [[s' f'] w''].
      destruct IH as [-> ->]. cbn. by rewrite <- app_assoc.
    + specialize (IH successful (failed ++ [sid]) w').
      destruct (batch_loop _ _ _ _ _ _) as [[s' f'] w''].
      destruct IH as [-> ->]. cbn. by rewrite <- app_assoc.
Qed.

(** A batch that is not empty runs to its end: every session is evaluated
    once, in order, each from the world its predecessor left, and the two
    lists of the result are the successes and the failures. *)
Lemma batch_nonempty_completes session_ids w :
  session_ids <> [] ->
  exists r w',
    batch_evaluate_sessions world evaluate session_ids w = (Completed r, w')
    /\ map fst (successful_evaluations r)
       = map fst (List.filter (succeeds world evaluate)
                    (visits world evaluate session_ids w))
    /\ failed_evaluations r
       = map fst (List.filter (fun v => negb (succeeds world evaluate v))
                    (visits world evaluate session_ids w))
    /\ total_processed r = length session_ids.
Proof.
  intros Hne. unfold batch_evaluate_sessions.
  pose proof (batch_loop_tally session_ids [] [] w) as H.
  destruct (batch_loop _ _ _ _ _ _) as [[s' f'] w'].
  destruct H as [Hs Hf].
  destruct session_ids as [|sid rest]; [done|].
  cbn [length]. eexists _, _. split; [done|]. by cbn.
Qed.

(** The job driver gives every pending job its verdict line, in order,
    whatever happened to the jobs before it. *)
Lemma process_each_verdicts
    (process : text -> world -> bool * world) pending : forall w,
  verdicts (fst (process_each world process pending w))
  = map (fun v => (fst v, fst (process (fst v) (snd v))))
      (job_visits world process pending w).
Proof.
  induction pending as [|template_id rest IH]; intros w; [done|].
  cbn [process_each job_visits map fst snd].
  destruct (process template_id w) as [ok w'] eqn:E. cbn [snd].
  specialize (IH w').
  destruct (process_each world process rest w') as [lines w''].
  cbn [fst] in *. unfold verdicts in *. cbn [map concat app].
  rewrite IH. by destruct ok.
Qed.

End BatchFacts.

(** C9.  The batch driver on the empty list: the loop has nothing to do,
    and the success rate divides by the number of sessions, so the call
    ends in [ZeroDivisionError] instead of a tally. *)
Theorem batch_evaluate_sessions_empty
    {world : Type} (evaluate : text -> world -> Batch.outcome * world)
    (w : world) :
  Batch.batch_evaluate_sessions world evaluate [] w
  = (Batch.ZeroDivisionError, w).
Proof. reflexivity. Qed.

(** ** Writes and their read-back *)

Section StoreFacts.

Import Store.

Context {store : Type} `{Client store}.

(** A write that changes no row is reported as a failure. *)
Lemma save_evaluation_report_no_rows session_id report s s1 s2 check data :
  select_eq (str "interview_sessions") (str "session_id")
    (str "session_id") session_id s = (Data check, s1) ->
  update_eq (str "interview_sessions") (str "Interview_report")
    report (str "session_id") session_id s1 = (Data data, s2) ->
  has_rows data = false ->
  fst (save_evaluation_report true session_id report s) = false.
Proof.
  intros E1 E2 Hd. unfold save_evaluation_report. cbn [negb].
  rewrite E1. destruct (has_rows check); [|done]. cbn [negb].
  by rewrite E2, Hd.
Qed.

(** A write whose read-back finds the column empty is reported as a
    failure. *)
Lemma save_evaluation_report_empty_read_back
    session_id report s s1 s2 s3 check data first rest :
  select_eq (str "interview_sessions") (str "session_id")
    (str "session_id") session_id s = (Data check, s1) ->
  update_eq (str "interview_sessions") (str "Interview_report")
    report (str "session_id") session_id s1 = (Data data, s2) ->
  select_eq (str "interview_sessions") (str "Interview_report")
    (str "session_id") session_id s2 = (Data (Some (first :: rest)), s3) ->
  populated (str "Interview_report") first = false ->
  fst (save_evaluation_report true session_id report s) = false.
Proof.
  intros E1 E2 E3 Hp. unfold save_evaluation_report. cbn [negb].
  rewrite E1. destruct (has_rows check); [|done]. cbn [negb].
  rewrite E2. destruct (has_rows data); [|done].
  by rewrite E3.
Qed.

End StoreFacts.

(** C4 (as amended).  The write of an evaluation report is reported as
    successful only if the session was found, the update answered with at
    least one row, and the read-back that follows the update found the
    report column populated in the first row it returned. *)
Theorem save_evaluation_report_verified
    {store : Type} `{Store.Client store}
    (client_ready : bool) (session_id : text) (report : json) (s s' : store) :
  Store.save_evaluation_report client_ready session_id report s = (true, s') ->
  exists s1 s2 check updated first rest,
    client_ready = true
    /\ Store.select_eq (str "interview_sessions") (str "session_id")
         (str "session_id") session_id s = (Store.Data check, s1)
    /\ Store.has_rows check = true
    /\ Store.update_eq (str "interview_sessions") (str "Interview_report")
         report (str "session_id") session_id s1 = (Store.Data updated, s2)
    /\ Store.has_rows updated = true
    /\ Store.select_eq (str "interview_sessions") (str "Interview_report")
         (str "session_id") session_id s2
       = (Store.Data (Some (first :: rest)), s')
    /\ Store.populated (str "Interview_report") first = true.
Proof.
  unfold Store.save_evaluation_report. intros Hs.
  destruct client_ready; [|done]. cbn [negb] in Hs.
  destruct (Store.select_eq _ _ _ _ s) as [[check|] s1] eqn:E1; [|done].
  destruct (Store.has_rows check) eqn:Hc; [|done]. cbn [negb] in Hs.
  destruct (Store.update_eq _ _ _ _ _ s1) as [[updated|] s2] eqn:E2; [|done].
  destruct (Store.has_rows updated) eqn:Hu; [|done].
  destruct (Store.select_eq _ _ _ _ s2) as [[verify|] s3] eqn:E3; [|done].
  destruct verify as [[|first rest]|]; try done.
  injection Hs as Hp <-.
  by exists s1, s2, check, updated, first, rest.
Qed.

(** The amended statement on a store that keeps what it is told. *)
Lemma save_evaluation_report_verified_witness :
  let session := [ (str "session_id", JStr (str "s-1"));
                   (str "Interview_report", JNull) ] in
  let report := JDict [(str "summary", JStr (str "hire"))] in
  exists (s1 s2 : Store.memory) check updated first rest,
    true = true
    /\ Store.select_eq (str "interview_sessions") (str "session_id")
         (str "session_id") (str "s-1") ([session] : Store.memory)
       = (Store.Data check, s1)
    /\ Store.has_rows check = true
    /\ Store.update_eq (str "interview_sessions") (str "Interview_report")
         report (str "session_id") (str "s-1") s1 = (Store.Data updated, s2)
    /\ Store.has_rows updated = true
    /\ Store.select_eq (str "interview_sessions") (str "Interview_report")
         (str "session_id") (str "s-1") s2
       = (Store.Data (Some (first :: rest)),
          [ [ (str "session_id", JStr (str "s-1"));
              (str "Interview_report", report) ] ])
    /\ Store.populated (str "Interview_report") first = true.
Proof.
  intros session report.
  apply (save_evaluation_report_verified (store := Store.memory)
           true (str "s-1") report [session]).
  reflexivity.
Defined.

(** C4 fails as stated for the write of the job pipeline of version 1.0:
    an update that changes no row is returned as it is, without an
    exception, and on a store that undoes the write the call returns the
    rows although a read-back finds the column still null. *)
Lemma save_initial_json_unverified :
  let job := [ (str "template_id", JStr (str "t-1"));
               (str "initial_json_schema", JNull) ] in
  let filled := JDict [(str "jobProfile", JDict [])] in
  Store.save_initial_json_to_db_v1_0 true (str "t-2") filled
    ([job] : Store.memory)
  = (Store.Returns (Some []), [job])
  /\ (exists rows s',
        Store.save_initial_json_to_db_v1_0 true (str "t-1") filled
          (Store.Forgetful [job])
        = (Store.Returns (Some rows), s')
        /\ rows <> []
        /\ Store.verify_database_update true (str "t-1") s' = (false, s')).
Proof.
  split; [reflexivity|].
  eexists _, _. split; [reflexivity|]. split; [done|reflexivity].
Qed.

(** ** The salary range *)

Section SalaryFacts.

Import Transformer.
Local Open Scope Z_scope.

(** The loops return the default range or the bounds of a plausible
    candidate. *)
Lemma first_plausible_cases cands :
  first_plausible cands = default_range
  \/ exists b, In (Some b) cands /\ plausible b = true
               /\ first_plausible cands
                  = {| min := fst b; max := snd b; currency := str "USD" |}.
Proof.
  induction cands as [|[b|] cands IH]; cbn [first_plausible].
  - by left.
  - destruct (plausible b) eqn:E.
    + right. exists b. split; [by left|done].
    + destruct IH as [IH|(b' & Hin & Hp & IH)]; [by left|].
      right. exists b'. split; [by right|done].
  - destruct IH as [IH|(b' & Hin & Hp & IH)]; [by left|].
    right. exists b'. split; [by right|done].
Qed.

Lemma candidates_origin t b :
  In (Some b) (candidates t) ->
  exists pattern m,
    In pattern salary_patterns /\ In m (Re.finditer pattern t)
    /\ bounds (Re.group t m 0) (Re.group t m 1) (Re.group t m 2) = Some b.
Proof.
  unfold candidates. intros H.
  apply in_concat in H as (l & Hl & Hb).
  apply in_map_iff in Hl as (pattern & <- & Hp).
  apply in_map_iff in Hb as (m & Hb & Hm).
  by exists pattern, m.
Qed.

End SalaryFacts.

(** C3 (as amended).  The salary range of the pattern-based transformer
    is always in USD, and it is the default range or comes from a match of
    one of the salary patterns: the two captured bounds with everything
    but their digits removed, both multiplied by 1000 when the matched
    text holds a [k], and accepted only with 20000 <= min <= 500000 and
    min < max.  For [$120k - $160k] the range is 120000 to 160000 USD. *)
Theorem extract_salary_range_plausible :
  (forall t,
     let r := Transformer._extract_salary_range t in
     Transformer.currency r = str "USD"
     /\ (r = Transformer.default_range
         \/ exists pattern m lo hi,
              In pattern Transformer.salary_patterns
              /\ In m (Re.finditer pattern t)
              /\ Transformer.int_of_group (Re.group t m 1) = Some lo
              /\ Transformer.int_of_group (Re.group t m 2) = Some hi
              /\ (let scale :=
                    if Py.contains (str "k") (Py.lower (Re.group t m 0))
                    then 1000 else 1 in
                  Transformer.min r = lo * scale
                  /\ Transformer.max r = hi * scale)%Z
              /\ (20000 <= Transformer.min r <= 500000)%Z
              /\ (Transformer.min r < Transformer.max r)%Z))
  /\ Transformer._extract_salary_range (str "$120k - $160k")
     = {| Transformer.min := 120000; Transformer.max := 160000;
          Transformer.currency := str "USD" |}.
Proof.
  split; [|by vm_compute].
  intros t r. subst r. unfold Transformer._extract_salary_range.
  destruct (first_plausible_cases (Transformer.candidates t))
    as [->|(b & Hin & Hp & ->)]; [by split; [|left]|].
  split; [done|]. right.
  apply candidates_origin in Hin as (pattern & m & Hpat & Hm & Hb).
  unfold Transformer.bounds in Hb.
  destruct (Transformer.int_of_group (Re.group t m 1)) as [lo|] eqn:E1;
    [|done].
  destruct (Transformer.int_of_group (Re.group t m 2)) as [hi|] eqn:E2;
    [|done].
  exists pattern, m, lo, hi.
  unfold Transformer.plausible in Hp.
  apply andb_true_iff in Hp as [Hp H3]. apply andb_true_iff in Hp as [H1 H2].
  apply Z.leb_le in H1, H2. apply Z.ltb_lt in H3.
  cbn [Transformer.min Transformer.max].
  destruct (Py.contains (str "k") _); injection Hb as <-;
    cbn [fst snd] in *; cbv zeta; repeat split; try done; lia.
Qed.

(** C3 fails as stated for the coercion of the schema filler: it knows no
    [k] notation and no bound, and both salary fields take the first
    number of the reply. *)
Lemma parse_extracted_value_salary_k :
  Coerce.parse_extracted_value (str "$120k - $160k")
    (str "jobProfile.compensation.salary.min") (JInt 0) = JInt 120
  /\ Coerce.parse_extracted_value (str "$120k - $160k")
       (str "jobProfile.compensation.salary.max") (JInt 0) = JInt 120
  /\ JInt 120 <> JInt 120000 /\ JInt 120 <> JInt 160000.
Proof. vm_compute. by repeat split. Qed.

(** ** The schema filler *)

Section JsonInduction.

Variable P : json -> Prop.
Hypothesis HNull : P JNull.
Hypothesis HBool : forall b, P (JBool b).
Hypothesis HInt : forall n, P (JInt n).
Hypothesis HStr : forall s, P (JStr s).
Hypothesis HList : forall items, Forall P items -> P (JList items).
Hypothesis HDict :
  forall members, Forall (fun m => P (snd m)) members -> P (JDict members).

(** Induction on a JSON value with the hypothesis for every item and
    every member. *)
Fixpoint json_nested_ind (v : json) : P v :=
  match v with
  | JNull => HNull
  | JBool b => HBool b
  | JInt n => HInt n
  | JStr s => HStr s
  | JList items =>
      HList items
        ((fix all (l : list json) : Forall P l :=
            match l with
            | [] => List.Forall_nil P
            | x :: l' => @List.Forall_cons _ P x l' (json_nested_ind x) (all l')
            end) items)
  | JDict members =>
      HDict members
        ((fix all (l : list (text * json)) : Forall (fun m => P (snd m)) l :=
            match l with
            | [] => List.Forall_nil _
            | m :: l' =>
                @List.Forall_cons _ (fun m => P (snd m)) m l'
                  (json_nested_ind (snd m)) (all l')
            end) members)
  end.

End JsonInduction.

Section FillerFacts.

Import Filler.

Lemma leaves_dict members :
  leaves (JDict members)
  = match members with
    | [] => [([], JDict [])]
    | _ => leaves_members members
    end.
Proof.
  destruct members as [|[k x] ms]; reflexivity.
Qed.

Lemma leaves_list items :
  leaves (JList items)
  = match items with
    | [] => [([], JList [])]
    | _ => leaves_items 0 items
    end.
Proof.
  destruct items as [|x xs]; reflexivity.
Qed.

Lemma fill_dict members :
  fill_template_recursively (JDict members)
  = JDict (map (fun m => (fst m, completed (fst m) (snd m))) members).
Proof.
  cbn [fill_template_recursively]. f_equal. apply map_ext.
  by intros [k v].
Qed.

Lemma fill_list items :
  fill_template_recursively (JList items) = JList (map completed_item items).
Proof. done. Qed.

Lemma map_fst_under s (l l' : list (list step * json)) :
  map fst l = map fst l' ->
  map fst (map (under s) l) = map fst (map (under s) l').
Proof.
  intros H. rewrite !map_map. cbn [under fst].
  rewrite <- !(map_map fst (cons s)). by rewrite H.
Qed.

Lemma leaves_items_fill l : forall i,
  Forall (fun v => map fst (leaves (fill_template_recursively v))
                   = map fst (leaves v)) l ->
  map fst (leaves_items i (map completed_item l))
  = map fst (leaves_items i l).
Proof.
  induction l as [|y l IHl]; intros i IH; [done|].
  cbn [map leaves_items]. rewrite !map_app.
  apply Forall_cons in IH as [Hy Hl].
  rewrite (IHl _ Hl). f_equal. apply map_fst_under.
  by destruct y.
Qed.

Lemma leaves_members_fill l :
  Forall (fun m => map fst (leaves (fill_template_recursively (snd m)))
                   = map fst (leaves (snd m))) l ->
  map fst (leaves_members
             (map (fun m => (fst m, completed (fst m) (snd m))) l))
  = map fst (leaves_members l).
Proof.
  induction l as [|[k x] l IHl]; intros IH; [done|].
  cbn [map leaves_members fst snd]. rewrite !map_app.
  apply Forall_cons in IH as [Hx Hl]. cbn [snd] in Hx.
  rewrite (IHl Hl). f_equal. apply map_fst_under.
  destruct x as [|b|n|s| |]; cbn [completed]; try done.
  - by destruct (negb b && _).
  - by destruct ((n =? 0)%Z && _).
  - by destruct (Py.text_eqb s []).
Qed.

(** The structural pass keeps the paths of the leaves. *)
Lemma fill_leaf_paths v :
  leaf_paths (fill_template_recursively v) = leaf_paths v.
Proof.
  unfold leaf_paths.
  induction v as [| | | |items IH|members IH] using json_nested_ind;
    try done.
  - rewrite fill_list, !leaves_list.
    destruct items as [|x xs]; [done|].
    change (map fst (leaves_items 0 (map completed_item (x :: xs)))
            = map fst (leaves_items 0 (x :: xs))).
    by apply leaves_items_fill.
  - rewrite fill_dict, !leaves_dict.
    destruct members as [|m ms]; [done|].
    change (map fst (leaves_members
                       (map (fun m => (fst m, completed (fst m) (snd m)))
                          (m :: ms)))
            = map fst (leaves_members (m :: ms))).
    by apply leaves_members_fill.
Qed.

Lemma get_completed key members v :
  Dict.get key members = Some v ->
  Dict.get key (map (fun m => (fst m, completed (fst m) (snd m))) members)
  = Some (completed key v).
Proof.
  induction members as [|[k x] ms IH]; [done|].
  cbn [map Dict.get fst snd].
  destruct (Py.text_eqb k key) eqn:E.
  - apply text_eqb_eq in E. subst k. by intros [= ->].
  - apply IH.
Qed.

(** A member reached through objects is completed under its own key. *)
Lemma member_completed keys : forall v key x,
  member v (keys ++ [key]) = Some x ->
  member (fill_template_recursively v) (keys ++ [key])
  = Some (completed key x).
Proof.
  induction keys as [|k keys IH]; intros v key x; cbn [app member].
  - destruct v as [| | | | |members]; try done.
    destruct (Dict.get key members) as [y|] eqn:E; [|done].
    intros [= ->]. rewrite fill_dict.
    by rewrite (get_completed _ _ _ E).
  - destruct v as [| | | | |members]; try done.
    destruct (Dict.get k members) as [y|] eqn:E; [|done].
    intros H. rewrite fill_dict, (get_completed _ _ _ E).
    destruct y as [| | | | |inner];
      try (destruct keys; cbn [app member] in H; done).
    cbn [completed]. by apply IH.
Qed.

End FillerFacts.

(** C2 (as amended).  The structural completion pass of the fill keeps the
    paths of the leaves of every template: no field is dropped or added.
    Of the members reached through objects, an empty string becomes
    [OPEN], a string that is not empty, an empty list and an integer keep
    their value. *)
Theorem ensure_complete_template_structure_shape (template : json) :
  Filler.leaf_paths (Filler._ensure_complete_template_structure template)
  = Filler.leaf_paths template
  /\ (forall keys key,
        Filler.member template (keys ++ [key]) = Some (JStr []) ->
        Filler.member (Filler._ensure_complete_template_structure template)
          (keys ++ [key]) = Some (JStr (str "OPEN")))
  /\ (forall keys key s,
        s <> [] ->
        Filler.member template (keys ++ [key]) = Some (JStr s) ->
        Filler.member (Filler._ensure_complete_template_structure template)
          (keys ++ [key]) = Some (JStr s))
  /\ (forall keys key,
        Filler.member template (keys ++ [key]) = Some (JList []) ->
        Filler.member (Filler._ensure_complete_template_structure template)
          (keys ++ [key]) = Some (JList []))
  /\ (forall keys key n,
        Filler.member template (keys ++ [key]) = Some (JInt n) ->
        Filler.member (Filler._ensure_complete_template_structure template)
          (keys ++ [key]) = Some (JInt n)).
Proof.
  unfold Filler._ensure_complete_template_structure.
  split; [apply fill_leaf_paths|].
  repeat split; intros keys key.
  - intros H. by rewrite (member_completed _ _ _ _ H).
  - intros s Hs H. rewrite (member_completed _ _ _ _ H). cbn.
    destruct (Py.text_eqb s []) eqn:E; [|done].
    by apply text_eqb_eq in E.
  - intros H. by rewrite (member_completed _ _ _ _ H).
  - intros n H. rewrite (member_completed _ _ _ _ H). cbn.
    destruct ((n =? 0)%Z && _) eqn:E; [|done].
    apply andb_true_iff in E as [E _]. apply Z.eqb_eq in E. by subst n.
Qed.

(** C2 fails as stated: filled with no reply of the model for any field,
    the template above comes back with string leaves that are not [OPEN]
    (the identifier and the metadata), with the list leaf [evaluators]
    holding [OPEN], and so with another set of leaf paths. *)
Lemma intelligently_fill_template_empty :
  exists filled,
    Filler.intelligently_fill_template (fun _ => []) (str "1700000000")
      sample_template (str "t-1") = Some filled
    /\ Filler.member filled [str "jobProfile"; str "meta"; str "source"]
       = Some (JStr (str "AI-Extracted"))
    /\ Filler.member filled [str "jobProfile"; str "JobId"]
       = Some (JStr (str "t-1"))
    /\ Filler.get_nested_value filled
         (str "jobProfile.interviewGuidance.interviewFlow")
       = JList [ JDict [ (str "stage", JStr (str "OPEN"));
                         (str "durationMinutes", JInt 0);
                         (str "evaluators", JList [JStr (str "OPEN")]) ] ]
    /\ Filler.leaf_paths filled <> Filler.leaf_paths sample_template.
Proof.
  eexists. split; [by vm_compute|].
  repeat split; by vm_compute.
Qed.

(** ** Deep copies on the heap *)

Section HeapFacts.

Import Heap.

Lemma load_list items :
  load (JList items) = bind (load_items items) (fun vs => alloc (OList vs)).
Proof. reflexivity. Qed.

Lemma load_dict members :
  load (JDict members)
  = bind (load_members members) (fun ms => alloc (ODict ms)).
Proof. reflexivity. Qed.

Lemma value_from_le n m v : n <= m -> value_from m v -> value_from n v.
Proof. destruct v; cbn; lia. Qed.

Lemma value_below_le n m v : n <= m -> value_below n v -> value_below m v.
Proof. destruct v; cbn; lia. Qed.

Lemma grows_refl n h : tidy h -> grows n h h.
Proof.
  intros Ht. split; try done.
  - intros l o Hl Ho. by rewrite (Ht l Hl) in Ho.
  - intros l o Hl Ho. by rewrite (Ht l Hl) in Ho.
Qed.

Lemma grows_trans n h1 h2 h3 : grows n h1 h2 -> grows n h2 h3 -> grows n h1 h3.
Proof.
  intros [N1 T1 F1 R1 C1] [N2 T2 F2 R2 C2]. split.
  - lia.
  - done.
  - intros l Hl. rewrite F2 by lia. by apply F1.
  - intros l o Hl Ho. destruct (decide (l < next h2)) as [Hlt|Hge].
    + rewrite F2 in Ho by done. by apply (R1 l).
    + apply (R2 l); [lia|done].
  - intros l o Hl Ho. destruct (decide (l < next h2)) as [Hlt|Hge].
    + rewrite F2 in Ho by done.
      eapply Forall_impl; [by apply (C1 l)|].
      intros v. by apply value_below_le.
    + apply (C2 l); [lia|done].
Qed.

Lemma grows_alloc n h o :
  tidy h ->
  Forall (value_from n) (values o) ->
  Forall (value_below (next h)) (values o) ->
  grows n h {| cells := <[next h := o]> (cells h); next := S (next h) |}.
Proof.
  intros Ht Hf Hb. split; cbn.
  - lia.
  - intros l Hl. cbn in *. rewrite lookup_insert_ne by lia. apply Ht. lia.
  - intros l Hl. by rewrite lookup_insert_ne by lia.
  - intros l o' Hl Ho. destruct (decide (l = next h)) as [->|Hne].
    + rewrite lookup_insert_eq in Ho. by injection Ho as <-.
    + rewrite lookup_insert_ne in Ho by done.
      rewrite Ht in Ho by lia. done.
  - intros l o' Hl Ho. destruct (decide (l = next h)) as [->|Hne].
    + rewrite lookup_insert_eq in Ho. injection Ho as <-.
      eapply Forall_impl; [done|]. intros v. apply value_below_le. lia.
    + rewrite lookup_insert_ne in Ho by done.
      rewrite Ht in Ho by lia. done.
Qed.

Lemma load_items_grows items :
  Forall loads items ->
  forall n h, n <= next h -> tidy h ->
  exists vs h',
    load_items items h = (Ok vs, h') /\ grows n h h'
    /\ Forall (value_from n) vs /\ Forall (value_below (next h')) vs.
Proof.
  induction items as [|x items IH]; intros Hall n h Hn Ht.
  - exists [], h. split; [done|]. split; [by apply grows_refl|]. by split.
  - apply Forall_cons in Hall as [Hx Hall].
    destruct (Hx n h Hn Ht) as (v & h1 & E1 & G1 & Fv & Bv).
    destruct (IH Hall n h1) as (vs & h2 & E2 & G2 & Fvs & Bvs).
    { pose proof (grows_next _ _ _ G1). lia. }
    { by apply (grows_tidy _ _ _ G1). }
    exists (v :: vs), h2. split.
    { cbn [load_items]. unfold bind. by rewrite E1, E2. }
    split; [by eapply grows_trans|]. split; [by constructor|].
    constructor; [|done].
    eapply value_below_le; [|done]. apply (grows_next _ _ _ G2).
Qed.

Lemma load_members_grows members :
  Forall (fun m => loads (snd m)) members ->
  forall n h, n <= next h -> tidy h ->
  exists ms h',
    load_members members h = (Ok ms, h') /\ grows n h h'
    /\ Forall (value_from n) (map snd ms)
    /\ Forall (value_below (next h')) (map snd ms).
Proof.
  induction members as [|[k x] members IH]; intros Hall n h Hn Ht.
  - exists [], h. split; [done|]. split; [by apply grows_refl|]. by split.
  - apply Forall_cons in Hall as [Hx Hall]. cbn [snd] in Hx.
    destruct (Hx n h Hn Ht) as (v & h1 & E1 & G1 & Fv & Bv).
    destruct (IH Hall n h1) as (ms & h2 & E2 & G2 & Fms & Bms).
    { pose proof (grows_next _ _ _ G1). lia. }
    { by apply (grows_tidy _ _ _ G1). }
    exists ((k, v) :: ms), h2. split.
    { cbn [load_members]. unfold bind. by rewrite E1, E2. }
    split; [by eapply grows_trans|]. split; [by constructor|].
    cbn [map snd]. constructor; [|done].
    eapply value_below_le; [|done]. apply (grows_next _ _ _ G2).
Qed.

(** Loading always succeeds; it adds objects on top of the heap, and the
    value it returns and the objects it adds hold new addresses only. *)
Lemma load_grows j : loads j.
Proof.
  induction j as [|b|z|s|items IH|members IH] using json_nested_ind;
    try (intros n h Hn Ht; eexists _, h;
         split; [reflexivity|]; split; [by apply grows_refl|done]).
  - intros n h Hn Ht. rewrite load_list.
    destruct (load_items_grows items IH n h Hn Ht)
      as (vs & h1 & E & G & Fvs & Bvs).
    eexists _, _. split; [unfold bind; rewrite E; reflexivity|].
    pose proof (grows_next _ _ _ G). pose proof (grows_tidy _ _ _ G).
    split; [|split; cbn; lia].
    eapply grows_trans; [done|]. by apply grows_alloc.
  - intros n h Hn Ht. rewrite load_dict.
    destruct (load_members_grows members IH n h Hn Ht)
      as (ms & h1 & E & G & Fms & Bms).
    eexists _, _. split; [unfold bind; rewrite E; reflexivity|].
    pose proof (grows_next _ _ _ G). pose proof (grows_tidy _ _ _ G).
    split; [|split; cbn; lia].
    eapply grows_trans; [done|]. by apply grows_alloc.
Qed.

Lemma well_formed_empty : well_formed empty.
Proof. split; [done|]. intros l o Hl. cbn in Hl. lia. Qed.

Lemma load_well_formed j h v h' :
  well_formed h -> load j h = (Ok v, h') ->
  well_formed h' /\ value_below (next h') v.
Proof.
  intros [Ht Hc] E.
  destruct (load_grows j (next h) h (le_n _) Ht) as (v' & h'' & E' & G & _ & B).
  rewrite E in E'. injection E' as <- <-.
  split; [|done]. split; [apply (grows_tidy _ _ _ G)|].
  intros l o Hl Ho. destruct (decide (l < next h)) as [Hlt|Hge].
  - rewrite (grows_frame _ _ _ G) in Ho by done.
    eapply Forall_impl; [by apply (Hc l)|].
    intros x. apply value_below_le. apply (grows_next _ _ _ G).
  - apply (grows_closed _ _ _ G l); [lia|done].
Qed.

Lemma get_values key ms v : get key ms = Some v -> v ∈ map snd ms.
Proof.
  induction ms as [|[k x] ms IH]; [done|]. cbn [get map snd].
  destruct (Py.text_eqb k key).
  - intros [= ->]. left.
  - intros H. right. by apply IH.
Qed.

Lemma set_values (P : value -> Prop) key x ms :
  P x -> Forall P (map snd ms) -> Forall P (map snd (set key x ms)).
Proof.
  intros Hx. induction ms as [|[k y] ms IH]; cbn [set map snd].
  - by constructor.
  - intros H. apply Forall_cons in H as [Hy H].
    destruct (Py.text_eqb k key); cbn [map snd]; constructor; auto.
Qed.

(** Reading through a new address gives a new address or a scalar. *)
Lemma subscript_new n c key h out h2 :
  subscript c key h = (out, h2) ->
  value_from n c -> fresh_from n h ->
  h2 = h /\ forall v, out = Ok v -> value_from n v.
Proof.
  unfold subscript, bind, members_of. intros E Hc Hf.
  destruct c as [| | | |l]; try (injection E as <- <-; by split).
  destruct (cells h !! l) as [[ms|items]|] eqn:El;
    try (injection E as <- <-; by split).
  destruct (get key ms) as [x|] eqn:Eg.
  - injection E as <- <-. split; [done|]. intros v [= <-].
    apply get_values in Eg.
    pose proof (Hf l _ Hc El) as Hall. rewrite Forall_forall in Hall.
    by apply Hall.
  - injection E as <- <-. by split.
Qed.

(** An assignment through a new address changes a new object only. *)
Lemma store_new n c key x h out h2 :
  store c key x h = (out, h2) ->
  value_from n c -> value_from n x -> fresh_from n h ->
  (forall l, l < n -> cells h2 !! l = cells h !! l) /\ fresh_from n h2.
Proof.
  unfold store, bind, members_of. intros E Hc Hx Hf.
  destruct c as [| | | |l]; try (injection E as <- <-; by split).
  destruct (cells h !! l) as [[ms|items]|] eqn:El;
    try (injection E as <- <-; by split).
  injection E as <- <-. cbn in Hc. split; cbn.
  - intros l' Hl'. by rewrite lookup_insert_ne by lia.
  - intros l' o Hl' Ho. cbn in Ho.
    destruct (decide (l' = l)) as [->|Hne].
    + rewrite lookup_insert_eq in Ho. injection Ho as <-. cbn.
      apply set_values; [done|]. apply (Hf l _ Hc El).
    + rewrite lookup_insert_ne in Ho by done. by apply (Hf l').
Qed.

Lemma assign_new n keys : forall c x h out h2,
  assign c keys x h = (out, h2) ->
  value_from n c -> value_from n x -> fresh_from n h ->
  (forall l, l < n -> cells h2 !! l = cells h !! l) /\ fresh_from n h2.
Proof.
  induction keys as [|key rest IH]; intros c x h out h2 E Hc Hx Hf.
  - injection E as <- <-. by split.
  - destruct rest as [|key' rest].
    + by apply (store_new n c key x h out h2).
    + change (assign c (key :: key' :: rest) x)
        with (bind (subscript c key)
                (fun inner => assign inner (key' :: rest) x)) in E.
      unfold bind in E.
      destruct (subscript c key h) as [[inner|] h1] eqn:Es.
      * destruct (subscript_new n _ _ _ _ _ Es Hc Hf) as [-> Hv].
        apply (IH inner x h out h2 E); auto.
      * destruct (subscript_new n _ _ _ _ _ Es Hc Hf) as [-> _].
        injection E as <- <-. by split.
Qed.

Lemma assign_all_new n c writes : forall h out h2,
  assign_all c writes h = (out, h2) ->
  value_from n c -> Forall (fun w => scalar (snd w)) writes ->
  fresh_from n h ->
  forall l, l < n -> cells h2 !! l = cells h !! l.
Proof.
  induction writes as [|[keys x] writes IH]; intros h out h2 E Hc Hw Hf.
  - by injection E as <- <-.
  - apply Forall_cons in Hw as [Hx Hw]. cbn [snd] in Hx.
    cbn [assign_all] in E. unfold bind in E.
    destruct (assign c keys x h) as [[[]|] h1] eqn:Ea.
    + destruct (assign_new n _ _ _ _ _ _ Ea Hc) as [Hframe Hf1];
        [by destruct x|done|].
      intros l Hl. rewrite (IH _ _ _ E Hc Hw Hf1 l Hl). by apply Hframe.
    + destruct (assign_new n _ _ _ _ _ _ Ea Hc) as [Hframe Hf1];
        [by destruct x|done|].
      by injection E as <- <-.
Qed.

Lemma dump_ref fuel h l :
  dump (S fuel) h (VRef l)
  = match cells h !! l with
    | Some (OList items) =>
        option_map JList (dump_items (dump fuel h) items)
    | Some (ODict members) =>
        option_map JDict (dump_members (dump fuel h) members)
    | None => None
    end.
Proof. reflexivity. Qed.

(** What a value below [n] stands for depends on the objects below [n]
    only. *)
Lemma dump_frame n h h2 :
  closed_below n h ->
  (forall l, l < n -> cells h2 !! l = cells h !! l) ->
  forall fuel v, value_below n v -> dump fuel h2 v = dump fuel h v.
Proof.
  intros Hc Hframe. induction fuel as [|fuel IH]; intros v Hv.
  - by destruct v.
  - destruct v as [| | | |l]; try done. cbn in Hv.
    rewrite !dump_ref, (Hframe l Hv).
    destruct (cells h !! l) as [[ms|items]|] eqn:El; [| |done].
    + f_equal. pose proof (Hc l _ Hv El) as Hall. cbn in Hall.
      clear El. induction ms as [|[k x] ms IHms]; [done|].
      cbn [map snd] in Hall. apply Forall_cons in Hall as [Hx Hall].
      cbn [dump_members]. by rewrite (IH x Hx), (IHms Hall).
    + f_equal. pose proof (Hc l _ Hv El) as Hall. cbn in Hall.
      clear El. induction items as [|x items IHitems]; [done|].
      apply Forall_cons in Hall as [Hx Hall].
      cbn [dump_items]. by rewrite (IH x Hx), (IHitems Hall).
Qed.

(** The design of the intelligent filler: after
    [json.loads(json.dumps(template))], no run of assignments through the
    copy changes what the template stands for. *)
Lemma deep_copy_keeps_every_template fuel h template filled h1 writes out h2 :
  well_formed h -> value_below (next h) template ->
  deep_copy fuel template h = (Ok filled, h1) ->
  Forall (fun w => scalar (snd w)) writes ->
  assign_all filled writes h1 = (out, h2) ->
  forall fuel', dump fuel' h2 template = dump fuel' h template.
Proof.
  intros [Ht Hc] Hv Ed Hw Ea fuel'. unfold deep_copy in Ed.
  destruct (dump fuel h template) as [j|]; [|done].
  destruct (load_grows j (next h) h (le_n _) Ht) as (v & h' & E & G & Fv & _).
  rewrite Ed in E. injection E as <- <-.
  apply (dump_frame (next h)); [done| |done].
  intros l Hl.
  rewrite (assign_all_new (next h) filled writes h1 out h2 Ea Fv Hw); [|..|done].
  - by apply (grows_frame _ _ _ G).
  - intros l' o Hl' Ho. by apply (grows_fresh _ _ _ G l').
Qed.

End HeapFacts.

(** ** The template on the heap *)

(** After [json.loads(json.dumps(template))], the copy the intelligent
    filler works on, an assignment through the copy leaves the template as
    it was. *)
Lemma deep_copy_keeps_template :
  exists template h0 filled h1 h2,
    Heap.load sample_template Heap.empty = (Heap.Ok template, h0)
    /\ Heap.deep_copy 10 template h0 = (Heap.Ok filled, h1)
    /\ Heap.assign filled [str "jobProfile"; str "JobId"] (Heap.VStr (str "t-1")) h1
       = (Heap.Ok tt, h2)
    /\ Heap.dump 10 h2 filled <> Some sample_template
    /\ Heap.dump 10 h2 template = Some sample_template.
Proof.
  eexists _, _, _, _, _.
  split; [by vm_compute|]. split; [by vm_compute|]. split; [by vm_compute|].
  split; by vm_compute.
Qed.

(** C7.  [fill_json_template] on the template above, with no extracted
    field: the copy it fills is shallow, so the assignments reach the
    objects of the template itself, and after the fill the template holds
    the job identifier and [OPEN] as its title instead of the empty
    strings it held before. *)
Theorem fill_json_template_changes_template :
  exists template h0 filled h1 after,
    Heap.load sample_template Heap.empty = (Heap.Ok template, h0)
    /\ Heap.dump 10 h0 template = Some sample_template
    /\ Heap.fill_json_template (str "job-20240101120000") (str "1704110400")
         template ∅ h0 = (Heap.Ok filled, h1)
    /\ Heap.dump 10 h1 template = Some after
    /\ after <> sample_template
    /\ Filler.member sample_template [str "jobProfile"; str "JobId"]
       = Some (JStr [])
    /\ Filler.member after [str "jobProfile"; str "JobId"]
       = Some (JStr (str "job-20240101120000"))
    /\ Filler.member after [str "jobProfile"; str "coreDetails"; str "title"]
       = Some (JStr (str "OPEN")).
Proof.
  eexists _, _, _, _, _.
  split; [by vm_compute|]. split; [by vm_compute|]. split; [by vm_compute|].
  split; [by vm_compute|]. repeat split; by vm_compute.
Qed.

(** * Further properties *)

(** ** The extraction step, both ways *)

Section ExtractionCases.

Import Evaluation Braces.
Local Open Scope Z_scope.

(** From inside an object the loop either meets the closing brace of a
    nested body, or runs to the end of the text and returns the empty
    string. *)
Lemma extract_loop_cases rest : forall whole i d start_idx,
  0 <= d -> start_idx <> -1 ->
  (exists body rest',
     rest = body ++ "}"%char :: rest' /\ nested d body = true)
  \/ ((forall body rest',
         rest = body ++ "}"%char :: rest' -> nested d body = false)
      /\ extract_loop whole rest i (d + 1) start_idx = []).
Proof.
  induction rest as [|c rest IH]; intros whole i d start_idx Hd Hs.
  - right. split; [|done]. by intros [|??] ? ?.
  - cbn [extract_loop].
    pose proof Hs as Hs'. apply Z.eqb_neq in Hs'. rewrite Hs'. cbn [negb].
    destruct (Py.chr_eqb c "{") eqn:E1.
    + destruct (IH whole (S i) (d + 1) start_idx) as
        [(body & rest' & -> & Hn)|[Hno Hr]]; [lia|done|..].
      * left. exists (c :: body), rest'. split; [done|].
        cbn [nested]. unfold delta. rewrite E1.
        apply andb_true_iff. split; [apply Z.leb_le; lia|done].
      * right. split; [|done].
        intros [|b body] rest' Heq.
        { simplify_eq/=; try by apply chr_eqb_true in E1. }
        simplify_eq/=. unfold delta. rewrite E1.
        rewrite (Hno body rest' eq_refl). apply andb_false_r.
    + destruct (Py.chr_eqb c "}") eqn:E2.
      * replace (d + 1 - 1) with d by lia.
        destruct (d =? 0) eqn:Ed.
        { left. exists [], rest. apply chr_eqb_true in E2. subst c.
          split; [done|]. done. }
        rewrite andb_false_l.
        apply Z.eqb_neq in Ed.
        destruct (IH whole (S i) (d - 1) start_idx) as
          [(body & rest' & -> & Hn)|[Hno Hr]]; [lia|done|..];
          replace (d - 1 + 1) with d in * by lia.
        -- left. exists (c :: body), rest'. split; [done|].
           cbn [nested]. unfold delta. rewrite E1, E2.
           replace (d + -1) with (d - 1) by lia.
           apply andb_true_iff. split; [apply Z.leb_le; lia|done].
        -- right. split; [|done].
           intros [|b body] rest' Heq.
           { cbn. by apply Z.eqb_neq. }
           simplify_eq/=. unfold delta. rewrite E1, E2.
           replace (d + -1) with (d - 1) by lia.
           rewrite (Hno body rest' eq_refl). apply andb_false_r.
      * destruct (IH whole (S i) d start_idx) as
          [(body & rest' & -> & Hn)|[Hno Hr]]; [lia|done|..].
        -- left. exists (c :: body), rest'. split; [done|].
           cbn [nested]. unfold delta. rewrite E1, E2.
           replace (d + 0) with d by lia.
           apply andb_true_iff. split; [apply Z.leb_le; lia|done].
        -- right. split; [|done].
           intros [|b body] rest' Heq.
           { simplify_eq/=; try by rewrite chr_eqb_refl in E2. }
           simplify_eq/=. unfold delta. rewrite E1, E2.
           replace (d + 0) with d by lia.
           rewrite (Hno body rest' eq_refl). apply andb_false_r.
Qed.

Lemma extract_open_cases t :
  (exists body rest,
     t = body ++ "}"%char :: rest /\ nested 0 body = true
     /\ _extract_first_complete_json ("{"%char :: t) = object body)
  \/ ((forall body rest,
         t = body ++ "}"%char :: rest -> nested 0 body = false)
      /\ _extract_first_complete_json ("{"%char :: t) = []).
Proof.
  destruct (extract_loop_cases t ("{"%char :: t) 1 0 0) as
    [(body & rest & -> & Hn)|[Hno Hr]]; [lia|lia|..].
  - left. exists body, rest. split; [done|]. split; [done|].
    change ("{"%char :: body ++ "}"%char :: rest)
      with (("{"%char :: body) ++ ["}"%char] ++ rest).
    rewrite app_assoc. by apply (extract_object body rest).
  - right. split; [done|].
    unfold _extract_first_complete_json. cbn [extract_loop].
    rewrite chr_eqb_refl. exact Hr.
Qed.

End ExtractionCases.

(** X1.  On a text that starts with an opening brace,
    [_extract_first_complete_json] returns the object text [{ body }] for
    the shortest body after which a closing brace brings the depth back to
    zero, and it returns the empty string exactly when there is no such
    body (the first object of the text is never closed). *)
Theorem extract_first_complete_json_cases (t : text) :
  (exists body rest,
     t = body ++ "}"%char :: rest /\ Braces.nested 0 body = true
     /\ Evaluation._extract_first_complete_json ("{"%char :: t)
        = Braces.object body)
  \/ ((forall body rest,
         t = body ++ "}"%char :: rest -> Braces.nested 0 body = false)
      /\ Evaluation._extract_first_complete_json ("{"%char :: t) = []).
Proof. apply extract_open_cases. Qed.

Section StripFacts.

Lemma lstrip_decompose s :
  exists a, s = a ++ Py.lstrip s /\ forallb Py.isspace a = true.
Proof.
  induction s as [|c s (a & Ha & Hsp)]; [by exists []|].
  cbn [Py.lstrip]. destruct (Py.isspace c) eqn:E.
  - exists (c :: a). split; [by rewrite Ha at 1|]. cbn. by rewrite E.
  - by exists [].
Qed.

Lemma rstrip_decompose s :
  exists b, s = Py.rstrip s ++ b /\ forallb Py.isspace b = true.
Proof.
  destruct (lstrip_decompose (rev s)) as (a & Ha & Hsp).
  exists (rev a). split.
  - unfold Py.rstrip. rewrite <- rev_app_distr, <- Ha. by rewrite rev_involutive.
  - rewrite forallb_forall in *. intros x Hx. apply Hsp. by apply in_rev.
Qed.

Lemma strip_decompose s :
  exists a b, s = a ++ Py.strip s ++ b
              /\ forallb Py.isspace a = true /\ forallb Py.isspace b = true.
Proof.
  destruct (lstrip_decompose s) as (a & Ha & Hsa).
  destruct (rstrip_decompose (Py.lstrip s)) as (b & Hb & Hsb).
  exists a, b. unfold Py.strip. by rewrite <- Hb.
Qed.

Lemma absent_contains c p : c ∉ p -> Py.contains [c] p = false.
Proof.
  intros Hc. apply contains_false. intros k.
  destruct (drop k p) as [|x q] eqn:E; [done|].
  cbn. apply andb_false_iff. left. apply chr_eqb_false. intros ->.
  apply Hc. apply (subseteq_drop k p). rewrite E. left.
Qed.

Lemma blank_prefix_contains c a :
  Py.isspace c = false -> forallb Py.isspace a = true ->
  Py.contains [c] a = false.
Proof.
  intros Hc Ha. apply absent_contains. intros Hin.
  rewrite forallb_forall in Ha. apply list_elem_of_In in Hin.
  specialize (Ha _ Hin). congruence.
Qed.

Lemma find_at_chr_Some c s : forall i j,
  Py.find_at [c] s i = Some j ->
  exists pre post,
    s = pre ++ c :: post /\ j = (i + length pre)%nat
    /\ Py.contains [c] pre = false.
Proof.
  induction s as [|x s IH]; intros i j H; [done|].
  cbn [Py.find_at Py.startswith] in H.
  destruct (Py.chr_eqb c x) eqn:E.
  - cbn in H. simplify_eq. apply chr_eqb_true in E. subst x.
    exists [], s. split; [done|]. split; [cbn; lia|done].
  - cbn in H. destruct (IH _ _ H) as (pre & post & -> & -> & Hpre).
    exists (x :: pre), post. split; [done|]. split; [cbn; lia|].
    apply absent_contains. intros Hin. apply elem_of_cons in Hin as [->|Hin].
    + by rewrite chr_eqb_refl in E.
    + by apply contains_chr_false in Hpre.
Qed.

End StripFacts.

(** X2.  Soundness of the extraction step on a reply without the fence
    marker: whatever [call_ollama_api] hands on is the text of the first
    object of the reply.  The reply is [pre ++ { body } ++ post] with no
    opening brace in [pre] and a nested [body], and the text handed on is
    [{ body }]; in particular a reply without any brace, or one whose
    first object is never closed, gives [None]. *)
Theorem locate_json_unfenced_sound (raw_response json_content : text) :
  Py.contains Evaluation.fence_json raw_response = false ->
  Evaluation.locate_json raw_response = Some json_content ->
  exists pre body post,
    raw_response = pre ++ Braces.object body ++ post
    /\ Py.contains (str "{") pre = false
    /\ Braces.nested 0 body = true
    /\ json_content = Braces.object body.
Proof.
  intros Hf H. unfold Evaluation.locate_json in H. rewrite Hf in H.
  destruct (Py.startswith (str "{") (Py.strip raw_response)) eqn:Hs.
  - apply startswith_true in Hs as [t Ht].
    change (str "{" ++ t) with ("{"%char :: t) in Ht. rewrite Ht in H.
    destruct (strip_decompose raw_response) as (a & b & Hr & Ha & Hb).
    destruct (extract_open_cases t) as
      [(body & rest & -> & Hn & He)|[_ He]]; rewrite He in H; [|done].
    cbn in H. simplify_eq.
    exists a, body, (rest ++ b). split; [|split; [|done]].
    + rewrite Hr at 1. rewrite Ht. unfold Braces.object.
      cbn [app]. by rewrite <- !app_assoc.
    + by apply blank_prefix_contains.
  - unfold Py.find in H.
    destruct (Py.find_at (str "{") raw_response 0) as [k|] eqn:Hk; [|done].
    replace (negb (Z.of_nat k =? -1)%Z) with true in H
      by (symmetry; apply negb_true_iff, Z.eqb_neq; lia).
    apply find_at_chr_Some in Hk as (pre & t & -> & -> & Hpre).
    cbn [Nat.add] in H. rewrite (slice_from_length pre) in H.
    destruct (extract_open_cases t) as
      [(body & rest & -> & Hn & He)|[_ He]]; rewrite He in H; [|done].
    cbn in H. simplify_eq.
    exists pre, body, rest. split; [|done].
    unfold Braces.object. cbn [app]. by rewrite <- !app_assoc.
Qed.

(** ** The fenced branch of the extraction step *)

Section Fence.

Import Evaluation.
Local Open Scope Z_scope.

Lemma find_at_after c needle pre rest : forall i,
  Py.contains [c] pre = false ->
  Py.find_at (c :: needle) (pre ++ (c :: needle) ++ rest) i
  = Some (i + length pre)%nat.
Proof.
  intros i H. apply contains_chr_false in H. revert i.
  induction pre as [|x pre IH]; intros i.
  - cbn [app length Py.find_at]. rewrite Nat.add_0_r.
    change (c :: needle ++ rest) with ((c :: needle) ++ rest).
    by rewrite startswith_app.
  - apply not_elem_of_cons in H as [Hx H].
    cbn [app Py.find_at Py.startswith].
    replace (Py.chr_eqb c x) with false
      by (symmetry; by apply chr_eqb_false).
    cbn [andb]. rewrite (IH H). f_equal. cbn. lia.
Qed.

Lemma find_at_absent c needle s : forall i,
  Py.contains [c] s = false -> Py.find_at (c :: needle) s i = None.
Proof.
  intros i H. apply contains_chr_false in H. revert i.
  induction s as [|x s IH]; intros i; [done|].
  apply not_elem_of_cons in H as [Hx H].
  cbn [Py.find_at Py.startswith].
  replace (Py.chr_eqb c x) with false by (symmetry; by apply chr_eqb_false).
  cbn [andb]. by apply IH.
Qed.

Lemma slice_nat (s : text) (a b : nat) :
  (a <= length s)%nat -> (b <= length s)%nat ->
  Py.slice s (Z.of_nat a) (Z.of_nat b) = take (b - a) (drop a s).
Proof.
  intros Ha Hb. unfold Py.slice, Py.clamp.
  destruct (Z.of_nat a <? 0) eqn:E1; [apply Z.ltb_lt in E1; lia|].
  destruct (Z.of_nat b <? 0) eqn:E2; [apply Z.ltb_lt in E2; lia|].
  replace (Z.to_nat (Z.min (Z.max (Z.of_nat a) 0) (Z.of_nat (length s))))
    with a by lia.
  by replace (Z.to_nat (Z.min (Z.max (Z.of_nat b) 0) (Z.of_nat (length s))))
    with b by lia.
Qed.

Lemma slice_to_last (s : text) (a : nat) :
  (a <= length s)%nat ->
  Py.slice s (Z.of_nat a) (-1) = removelast (drop a s).
Proof.
  intros Ha. unfold Py.slice, Py.clamp.
  destruct (Z.of_nat a <? 0) eqn:E1; [apply Z.ltb_lt in E1; lia|].
  change (-1 <? 0) with true. cbn iota.
  replace (Z.to_nat (Z.min (Z.max (Z.of_nat a) 0) (Z.of_nat (length s))))
    with a by lia.
  replace (Z.to_nat (Z.min (Z.max (-1 + Z.of_nat (length s)) 0)
                       (Z.of_nat (length s))))
    with (length s - 1)%nat by lia.
  rewrite removelast_firstn_len, length_drop.
  by replace (Init.Nat.pred (length s - a)) with (length s - 1 - a)%nat by lia.
Qed.

Lemma fence_found pre rest :
  Py.contains (str "`") pre = false ->
  Py.find_at fence_json (pre ++ fence_json ++ rest) 0 = Some (length pre).
Proof.
  intros H. change fence_json with ("`"%char :: str "``json").
  exact (find_at_after "`" _ pre rest 0 H).
Qed.

Lemma locate_json_fenced pre rest :
  Py.contains (str "`") pre = false ->
  locate_json (pre ++ fence_json ++ rest)
  = match
      Py.strip
        (Py.slice (pre ++ fence_json ++ rest) (Z.of_nat (length pre + 7))
           (Py.find_from fence (pre ++ fence_json ++ rest)
              (Z.of_nat (length pre + 7))))
    with
    | [] => None
    | content => Some content
    end.
Proof.
  intros H. unfold locate_json, Py.contains, Py.find.
  rewrite (fence_found pre rest H).
  replace (Z.of_nat (length pre) + 7) with (Z.of_nat (length pre + 7)) by lia.
  by destruct (Py.strip _).
Qed.

Lemma drop_fence pre rest :
  drop (length pre + 7) (pre ++ fence_json ++ rest) = rest.
Proof.
  rewrite app_assoc.
  replace (length pre + 7)%nat with (length (pre ++ fence_json))
    by (rewrite length_app; done).
  apply drop_app_length.
Qed.

End Fence.

(** X3.  A reply with a closed fence: when no backtick stands in front
    of the [```json] marker and none inside the fenced text, the
    extraction step hands on the fenced text without the blanks around
    it, whatever it is (it need not be an object) and whatever follows
    the closing fence; a fenced text of blanks only gives [None]. *)
Theorem locate_json_closed_fence (pre body post : text) :
  Py.contains (str "`") pre = false ->
  Py.contains (str "`") body = false ->
  Evaluation.locate_json
    (pre ++ Evaluation.fence_json ++ body ++ Evaluation.fence ++ post)
  = match Py.strip body with
    | [] => None
    | content => Some content
    end.
Proof.
  intros Hp Hb. rewrite (locate_json_fenced pre _ Hp).
  unfold Py.find_from. rewrite Nat2Z.id, drop_fence.
  change Evaluation.fence with ("`"%char :: str "``").
  rewrite (find_at_after "`" _ body post _ Hb).
  rewrite slice_nat.
  - replace (length pre + 7 + length body - (length pre + 7))%nat
      with (length body) by lia.
    rewrite drop_fence. by rewrite take_app_length.
  - rewrite !length_app. change (length Evaluation.fence_json) with 7%nat. lia.
  - rewrite !length_app. change (length Evaluation.fence_json) with 7%nat. lia.
Qed.

(** X3 at a reply with prose around the fence. *)
Lemma locate_json_closed_fence_witness :
  Evaluation.locate_json
    (str "Here you go: " ++ Evaluation.fence_json
     ++ (newline :: str "{a: 1}" ++ [newline])
     ++ Evaluation.fence ++ str " Hope this helps {!")
  = Some (str "{a: 1}").
Proof.
  apply (locate_json_closed_fence (str "Here you go: ")
           (newline :: str "{a: 1}" ++ [newline])
           (str " Hope this helps {!")); reflexivity.
Defined.

(** X4.  A reply whose fence is never closed: the search for the closing
    marker gives [-1], which the slice takes as the index of the last
    character, so the text handed on is the rest of the reply without
    its last character (and without the blanks around what is left). *)
Theorem locate_json_open_fence (pre body : text) :
  Py.contains (str "`") pre = false ->
  Py.contains (str "`") body = false ->
  Evaluation.locate_json (pre ++ Evaluation.fence_json ++ body)
  = match Py.strip (removelast body) with
    | [] => None
    | content => Some content
    end.
Proof.
  intros Hp Hb. rewrite (locate_json_fenced pre _ Hp).
  unfold Py.find_from. rewrite Nat2Z.id, drop_fence.
  change Evaluation.fence with ("`"%char :: str "``").
  rewrite (find_at_absent "`" _ body _ Hb).
  rewrite slice_to_last.
  - by rewrite drop_fence.
  - rewrite !length_app. change (length Evaluation.fence_json) with 7%nat. lia.
Qed.

(** X4 at a reply that ends with the object: its closing brace is lost. *)
Lemma locate_json_open_fence_witness :
  Evaluation.locate_json
    (str "Result: " ++ Evaluation.fence_json ++ (newline :: str "{a: 1}"))
  = Some (str "{a: 1").
Proof.
  apply (locate_json_open_fence (str "Result: ") (newline :: str "{a: 1}"));
    reflexivity.
Defined.

(** X2 at a reply with prose around the object. *)
Lemma locate_json_unfenced_sound_witness :
  exists pre body post,
    str "Sure: {a:1} done" = pre ++ Braces.object body ++ post
    /\ Py.contains (str "{") pre = false
    /\ Braces.nested 0 body = true
    /\ str "{a:1}" = Braces.object body.
Proof.
  apply (locate_json_unfenced_sound (str "Sure: {a:1} done") (str "{a:1}"));
    reflexivity.
Defined.

(** ** What the sanitizer lets through *)

Section SanitizerOutput.

Import Evaluation Tokens.

(** A substitution puts together characters of the subject and of the
    replacements. *)
Lemma sub_go_Forall (P : ascii -> Prop) r repl s : forall skip i,
  Forall P s -> (forall m, Forall P (repl m)) ->
  Forall P (Re.sub_go r repl skip i s).
Proof.
  intros skip i Hs Hr. revert skip i.
  induction Hs as [|x s Hx Hs IH]; intros skip i.
  - destruct skip; cbn [Re.sub_go]; [|done].
    destruct (Re.match_at r false i []) as [[e c]|]; [|done].
    destruct (e =? i)%nat.
    + apply Forall_app. split; [done|].
      destruct (Re.match_at r true i []) as [[e2 c2]|]; [|done].
      apply Forall_app. by split.
    + apply Forall_app. by split.
  - destruct skip; cbn [Re.sub_go]; [|by apply IH].
    destruct (Re.match_at r false i (x :: s)) as [[e c]|];
      [|by constructor].
    destruct (e =? i)%nat.
    + apply Forall_app. split; [done|].
      destruct (Re.match_at r true i (x :: s)) as [[e2 c2]|];
        [|by constructor].
      apply Forall_app. by split.
    + apply Forall_app. by split.
Qed.

Lemma group_Forall (P : ascii -> Prop) whole m n :
  Forall P whole -> Forall P (Re.group whole m n).
Proof.
  intros H. destruct m as [[b e] c]. unfold Re.group.
  destruct n.
  - by apply Forall_take, Forall_drop.
  - destruct (List.find _ c) as [[? [gb ge]]|]; [|done].
    by apply Forall_take, Forall_drop.
Qed.

Lemma clean_json_response_unbroken x :
  Forall (fun c => c <> newline /\ c <> creturn) (_clean_json_response x).
Proof.
  unfold _clean_json_response. rewrite replace_breaks.
  apply sub_go_Forall.
  - apply Forall_map, Forall_true. intros c. apply unbreak_not_break.
  - intros m. apply group_Forall.
    apply Forall_map, Forall_true. intros c. apply unbreak_not_break.
Qed.

End SanitizerOutput.

(** X5.  Whatever the reply, the text [_clean_json_response] returns
    holds no line feed and no carriage return: every line break has
    become a space, and the removal of trailing commas puts none back. *)
Theorem clean_json_response_one_line (json_content : text) :
  (newline ∉ Evaluation._clean_json_response json_content)
  /\ (creturn ∉ Evaluation._clean_json_response json_content).
Proof.
  pose proof (clean_json_response_unbroken json_content) as H.
  rewrite Forall_forall in H.
  split; intros Hin; by destruct (H _ Hin).
Qed.

(** X6.  On a text that is free of [N/A] tokens and of trailing commas
    the sanitizer changes nothing but the line breaks: the result has the
    length of the text and holds a space wherever the text has a line feed
    or a carriage return, and the character of the text elsewhere. *)
Theorem clean_json_response_clean_input (json_content : text) :
  Tokens.na_free json_content = true ->
  Tokens.comma_free json_content = true ->
  Evaluation._clean_json_response json_content
  = map Tokens.unbreak json_content
  /\ length (Evaluation._clean_json_response json_content)
     = length json_content.
Proof.
  intros Hna Hc. rewrite (clean_free json_content Hna Hc).
  split; [done|apply length_map].
Qed.

(** X6 at a two-line object text. *)
Lemma clean_json_response_clean_input_witness :
  let x := str "{a: [1, 2]," ++ newline :: str " b: 3}" in
  Evaluation._clean_json_response x = map Tokens.unbreak x
  /\ length (Evaluation._clean_json_response x) = length x.
Proof.
  apply (clean_json_response_clean_input
           (str "{a: [1, 2]," ++ newline :: str " b: 3}")); reflexivity.
Defined.

(** ** The exchanges of a reconstructed conversation *)

Section ConversationShape.

Import Conversation Exchange.

Variable render : json -> text.

Lemma standardized_standard exchange :
  Forall standard (standardized exchange).
Proof.
  destruct exchange as [| | | | |d]; cbn [standardized]; try done.
  destruct (first_present role_keys d) as [role|]; [|done].
  destruct (first_present message_keys d) as [content|]; [|done].
  repeat constructor. by exists role, content.
Qed.

Lemma standardize_all_standard exchanges :
  Forall standard (standardize_all exchanges).
Proof.
  unfold standardize_all. apply Forall_concat, Forall_map, Forall_true.
  apply standardized_standard.
Qed.

Lemma qa_turns_standard questions : forall answers,
  Forall standard (qa_turns render questions answers).
Proof.
  induction questions as [|q questions IH]; intros [|a answers]; cbn;
    try done.
  constructor; [by eexists _, _|]. constructor; [by eexists _, _|]. apply IH.
Qed.

Lemma first_conversation_standard keys info :
  Forall standard (first_conversation keys info).
Proof.
  induction keys as [|key keys IH]; cbn; [done|].
  destruct (Dict.get key info) as [[| | | |exchanges|]|]; try done.
  apply standardize_all_standard.
Qed.

Lemma qa_turns_length questions : forall answers,
  length (qa_turns render questions answers)
  = 2 * Nat.min (length questions) (length answers).
Proof.
  induction questions as [|q questions IH]; intros [|a answers]; cbn [qa_turns length Nat.min];
    try lia.
  rewrite IH. lia.
Qed.

Lemma first_conversation_absent keys info :
  forallb (fun key => negb (Dict.has key info)) keys = true ->
  first_conversation keys info = [].
Proof.
  induction keys as [|key keys IH]; cbn; [done|].
  unfold Dict.has. destruct (Dict.get key info); [done|]. apply IH.
Qed.

End ConversationShape.

(** X7.  Whatever the session information is, every exchange that
    [extract_conversation_data] returns has the standard form: an object
    with the two keys [role] and [content] and no other, under whichever
    of the aliases the session stored them. *)
Theorem extract_conversation_data_standard
    (render : json -> text) (session_information : json) :
  Forall Exchange.standard
    (Conversation.extract_conversation_data render session_information).
Proof.
  destruct session_information as [| | | |items|info];
    cbn [Conversation.extract_conversation_data]; try by constructor.
  - destruct items as [|[| | | | |item] items]; try by constructor.
    destruct (Dict.get (str "session_data") item) as [[| | | | |sd]|];
      try by constructor.
    destruct (Dict.get (str "conversation_history") sd) as [[| | | |h|]|];
      try by constructor.
    apply standardize_all_standard.
  - pose proof (first_conversation_standard Conversation.conversation_keys info)
      as H.
    destruct (Conversation.first_conversation _ info) as [|x xs] eqn:E.
    + destruct (Dict.get (str "questions") info) as [[| | | |qs|]|];
        try by constructor.
      destruct (Dict.get (str "answers") info) as [[| | | |ans|]|];
        try by constructor.
      apply qa_turns_standard.
    + done.
Qed.

(** X8.  The fallback on parallel arrays pairs the questions with the
    answers as [zip] does: for a session object that holds none of the six
    conversation keys, the result has two turns for each pair, and the
    surplus of the longer array is dropped without a word. *)
Theorem extract_conversation_data_pairs
    (render : json -> text) (info : list (text * json))
    (questions answers : list json) :
  forallb (fun key => negb (Dict.has key info)) Conversation.conversation_keys
  = true ->
  Dict.get (str "questions") info = Some (JList questions) ->
  Dict.get (str "answers") info = Some (JList answers) ->
  Conversation.extract_conversation_data render (JDict info)
  = Conversation.qa_turns render questions answers
  /\ length (Conversation.extract_conversation_data render (JDict info))
     = 2 * Nat.min (length questions) (length answers).
Proof.
  intros Hk Hq Ha.
  assert (H : Conversation.extract_conversation_data render (JDict info)
              = Conversation.qa_turns render questions answers).
  { cbn [Conversation.extract_conversation_data].
    rewrite (first_conversation_absent _ _ Hk). by rewrite Hq, Ha. }
  split; [done|]. rewrite H. apply qa_turns_length.
Qed.

(** X8 at a session with three questions and two answers. *)
Lemma extract_conversation_data_pairs_witness :
  let info :=
    [ (str "questions",
       JList [JStr (str "Q1"); JStr (str "Q2"); JStr (str "Q3")]);
      (str "answers", JList [JStr (str "A1"); JStr (str "A2")]) ] in
  Conversation.extract_conversation_data (fun _ => []) (JDict info)
  = Conversation.qa_turns (fun _ => [])
      [JStr (str "Q1"); JStr (str "Q2"); JStr (str "Q3")]
      [JStr (str "A1"); JStr (str "A2")]
  /\ length (Conversation.extract_conversation_data (fun _ => []) (JDict info))
     = 2 * Nat.min 3 2.
Proof.
  apply (extract_conversation_data_pairs (fun _ => [])
           [ (str "questions",
              JList [JStr (str "Q1"); JStr (str "Q2"); JStr (str "Q3")]);
             (str "answers", JList [JStr (str "A1"); JStr (str "A2")]) ]);
    reflexivity.
Defined.

(** ** The tally of a batch *)

Section BatchTally.

Import Batch.

Context {world : Type} (evaluate : text -> world -> outcome * world).

Lemma visits_ids session_ids : forall w,
  map fst (visits world evaluate session_ids w) = session_ids.
Proof.
  induction session_ids as [|sid rest IH]; intros w; [done|].
  cbn [visits map fst]. by rewrite IH.
Qed.

Lemma filter_split {A : Type} (f : A -> bool) (l : list A) :
  length (List.filter f l) + length (List.filter (fun x => negb (f x)) l)
  = length l.
Proof.
  induction l as [|x l IH]; [done|].
  cbn [List.filter]. destruct (f x); cbn; lia.
Qed.

Lemma batch_tally session_ids w :
  session_ids <> [] ->
  exists r w',
    batch_evaluate_sessions world evaluate session_ids w = (Completed r, w')
    /\ total_processed r = length session_ids
    /\ length (successful_evaluations r) + length (failed_evaluations r)
       = length session_ids
    /\ success_rate r
       = (length (successful_evaluations r), length session_ids)
    /\ (forall session_id,
          In session_id session_ids <->
          In session_id (map fst (successful_evaluations r))
          \/ In session_id (failed_evaluations r)).
Proof.
  intros Hne.
  destruct (batch_nonempty_completes evaluate session_ids w Hne) as
    (r & w' & Hb & Hs & Hf & Ht).
  exists r, w'. split; [done|]. split; [done|].
  assert (Hrate : success_rate r
                  = (length (successful_evaluations r), length session_ids)).
  { unfold batch_evaluate_sessions in Hb.
    destruct (batch_loop _ _ _ _ _ _) as [[s' f'] w''].
    destruct session_ids; [done|]. cbn [length] in Hb.
    injection Hb as <- _. done. }
  split; [|split; [done|]].
  - rewrite <- (length_map fst (successful_evaluations r)), Hs, Hf.
    rewrite !length_map, filter_split.
    by rewrite <- (length_map fst), visits_ids.
  - intros sid. rewrite Hs, Hf.
    rewrite <- (visits_ids session_ids w) at 1.
    rewrite !in_map_iff. split.
    + intros (v & <- & Hv).
      destruct (succeeds world evaluate v) eqn:E.
      * left. exists v. split; [done|]. apply filter_In. by split.
      * right. exists v. split; [done|]. apply filter_In. by rewrite E.
    + intros [(v & <- & Hv)|(v & <- & Hv)]; exists v;
        apply filter_In in Hv as [Hv _]; by split.
Qed.

End BatchTally.

(** X9.  A batch that is not empty runs to its end whatever the single
    evaluations do (return a report, return nothing, raise): the tally
    counts every session, each session id ends in the list of successes or
    in the list of failures, the two lists together are as long as the
    batch, and the rate is the number of successes over the number of
    sessions. *)
Theorem batch_evaluate_sessions_tally
    {world : Type} (evaluate : text -> world -> Batch.outcome * world)
    (session_ids : list text) (w : world) :
  session_ids <> [] ->
  exists r w',
    Batch.batch_evaluate_sessions world evaluate session_ids w
    = (Batch.Completed r, w')
    /\ Batch.total_processed r = length session_ids
    /\ length (Batch.successful_evaluations r)
       + length (Batch.failed_evaluations r)
       = length session_ids
    /\ Batch.success_rate r
       = (length (Batch.successful_evaluations r), length session_ids)
    /\ (forall session_id,
          In session_id session_ids <->
          In session_id (map fst (Batch.successful_evaluations r))
          \/ In session_id (Batch.failed_evaluations r)).
Proof. apply batch_tally. Qed.

(** X9 at a batch of three sessions: one evaluates, one returns nothing,
    one raises. *)
Lemma batch_evaluate_sessions_tally_witness :
  let evaluate (session_id : text) (w : unit) :=
    (if Py.text_eqb session_id (str "s-1")
     then Batch.Returned (Some (JDict [(str "overall_score", JInt 7)]))
     else if Py.text_eqb session_id (str "s-2") then Batch.Returned None
     else Batch.Raised, w) in
  let session_ids := [str "s-1"; str "s-2"; str "s-3"] in
  exists r w',
    Batch.batch_evaluate_sessions unit evaluate session_ids tt
    = (Batch.Completed r, w')
    /\ Batch.total_processed r = length session_ids
    /\ length (Batch.successful_evaluations r)
       + length (Batch.failed_evaluations r)
       = length session_ids
    /\ Batch.success_rate r
       = (length (Batch.successful_evaluations r), length session_ids)
    /\ (forall session_id,
          In session_id session_ids <->
          In session_id (map fst (Batch.successful_evaluations r))
          \/ In session_id (Batch.failed_evaluations r)).
Proof.
  apply (batch_evaluate_sessions_tally
           (fun (session_id : text) (w : unit) =>
              (if Py.text_eqb session_id (str "s-1")
               then Batch.Returned (Some (JDict [(str "overall_score", JInt 7)]))
               else if Py.text_eqb session_id (str "s-2")
                    then Batch.Returned None
                    else Batch.Raised, w))
           [str "s-1"; str "s-2"; str "s-3"] tt).
  discriminate.
Defined.

(** ** The writes on a store that keeps what it is told *)

Section DictFacts.

Lemma text_eqb_refl a : Py.text_eqb a a = true.
Proof. by apply text_eqb_eq. Qed.

Lemma text_eqb_false a b : Py.text_eqb a b = false <-> a <> b.
Proof.
  split.
  - intros H E. apply text_eqb_eq in E. congruence.
  - intros H. destruct (Py.text_eqb a b) eqn:E; [|done].
    by apply text_eqb_eq in E.
Qed.

Lemma dict_get_set key value d :
  Dict.get key (Dict.set key value d) = Some value.
Proof.
  induction d as [|[k v] d IH]; cbn.
  - by rewrite text_eqb_refl.
  - destruct (Py.text_eqb k key) eqn:E; cbn; by rewrite E.
Qed.

Lemma dict_get_set_other key key' value d :
  key <> key' ->
  Dict.get key' (Dict.set key value d) = Dict.get key' d.
Proof.
  intros Hne. induction d as [|[k v] d IH]; cbn.
  - by replace (Py.text_eqb key key') with false
      by (symmetry; by apply text_eqb_false).
  - destruct (Py.text_eqb k key) eqn:E; cbn.
    + apply text_eqb_eq in E. subst k.
      by replace (Py.text_eqb key key') with false
        by (symmetry; by apply text_eqb_false).
    + by rewrite IH.
Qed.

End DictFacts.

Section MemoryStore.

Import Store.

(** An update of another column leaves the key of a row as it is. *)
Lemma matches_set key_column key column value r :
  column <> key_column ->
  matches key_column key (Dict.set column value r) = matches key_column key r.
Proof. intros H. unfold matches. by rewrite dict_get_set_other. Qed.

Lemma filter_updated key_column key column value (s : list row) :
  column <> key_column ->
  List.filter (matches key_column key)
    (map (fun r => if matches key_column key r
                   then Dict.set column value r else r) s)
  = map (Dict.set column value) (List.filter (matches key_column key) s).
Proof.
  intros H. induction s as [|r s IH]; [done|].
  cbn [map List.filter].
  destruct (matches key_column key r) eqn:E.
  - rewrite matches_set by done. rewrite E. cbn [map]. by rewrite IH.
  - by rewrite E.
Qed.

Lemma filter_nil_existsb {A : Type} (f : A -> bool) (l : list A) :
  existsb f l = match List.filter f l with [] => false | _ => true end.
Proof.
  induction l as [|x l IH]; [done|].
  cbn. destruct (f x); [done|]. by rewrite IH.
Qed.

Lemma save_evaluation_report_memory session_id report (s : memory) :
  let found := existsb (matches (str "session_id") session_id) s in
  save_evaluation_report true session_id report s
  = (found && truthy report,
     if found
     then map (fun r => if matches (str "session_id") session_id r
                        then Dict.set (str "Interview_report") report r
                        else r) s
     else s).
Proof.
  cbn zeta. rewrite filter_nil_existsb.
  unfold save_evaluation_report. cbn [negb select_eq update_eq memory_client].
  rewrite filter_updated by done.
  destruct (List.filter _ s) as [|first rest] eqn:E; [done|].
  cbn [has_rows negb map]. unfold populated. by rewrite dict_get_set.
Qed.

Lemma save_then_verify_memory template_id initial_json (s : memory) :
  let found := existsb (matches (str "template_id") template_id) s in
  let s' := map (fun r => if matches (str "template_id") template_id r
                          then Dict.set (str "initial_json_schema")
                                 initial_json r
                          else r) s in
  save_initial_json_to_db true template_id initial_json s
  = (if found
     then Returns (Some (List.filter (matches (str "template_id") template_id) s'))
     else Raises,
     if found then s' else s)
  /\ verify_database_update true template_id s'
     = (found && match initial_json with JNull => false | _ => true end, s').
Proof.
  cbn zeta. rewrite filter_nil_existsb.
  unfold save_initial_json_to_db, verify_database_update.
  cbn [negb select_eq update_eq memory_client].
  rewrite filter_updated by done.
  destruct (List.filter _ s) as [|first rest] eqn:E.
  - done.
  - cbn [has_rows negb map andb]. split; [done|].
    rewrite dict_get_set. by destruct initial_json.
Qed.

End MemoryStore.

(** X10.  [save_evaluation_report] against a store that keeps what it is
    told.  The call answers [True] exactly when a row of the session
    exists and the report is truthy; whenever the row exists the report is
    written to it, also when the answer is [False]: an empty report [{}]
    is stored and then fails the read-back test, which asks for a truthy
    column.  Without a row nothing is written. *)
Theorem save_evaluation_report_kept
    (session_id : text) (report : json) (s : Store.memory) :
  let found := existsb (Store.matches (str "session_id") session_id) s in
  Store.save_evaluation_report true session_id report s
  = (found && truthy report,
     if found
     then map (fun r => if Store.matches (str "session_id") session_id r
                        then Dict.set (str "Interview_report") report r
                        else r) s
     else s).
Proof. apply save_evaluation_report_memory. Qed.

(** X11.  [save_initial_json_to_db] and [verify_database_update] of the
    job pipeline (version 1.2) against a store that keeps what it is told.
    The write raises when no row has the template id, and leaves the store
    as it was; otherwise it writes the document to every such row and
    returns them.  The verification that follows answers [True] exactly
    when such a row exists and the document is not [null]: unlike the
    evaluation module it asks only whether the column is set, so an empty
    document passes. *)
Theorem save_initial_json_then_verify
    (template_id : text) (initial_json : json) (s : Store.memory) :
  let found := existsb (Store.matches (str "template_id") template_id) s in
  let s' := map (fun r => if Store.matches (str "template_id") template_id r
                          then Dict.set (str "initial_json_schema")
                                 initial_json r
                          else r) s in
  Store.save_initial_json_to_db true template_id initial_json s
  = (if found
     then Store.Returns
            (Some (List.filter (Store.matches (str "template_id") template_id)
                     s'))
     else Store.Raises,
     if found then s' else s)
  /\ Store.verify_database_update true template_id s'
     = (found && match initial_json with JNull => false | _ => true end, s').
Proof. apply save_then_verify_memory. Qed.

(** ** Stripped texts *)

Section Stripped.

Lemma lstrip_idem s : Py.lstrip (Py.lstrip s) = Py.lstrip s.
Proof.
  induction s as [|c s IH]; [done|].
  cbn [Py.lstrip]. destruct (Py.isspace c) eqn:E; [done|].
  cbn [Py.lstrip]. by rewrite E.
Qed.

Lemma rstrip_idem s : Py.rstrip (Py.rstrip s) = Py.rstrip s.
Proof. unfold Py.rstrip. by rewrite rev_involutive, lstrip_idem. Qed.

Lemma lstrip_rstrip s : Py.lstrip (Py.rstrip (Py.lstrip s)) = Py.rstrip (Py.lstrip s).
Proof.
  destruct (Py.lstrip s) as [|c t] eqn:E; [done|].
  assert (Hc : Py.isspace c = false).
  { destruct (Py.isspace c) eqn:Hc; [|done].
    pose proof (lstrip_idem s) as H. rewrite E in H.
    cbn [Py.lstrip] in H. rewrite Hc in H.
    pose proof (lstrip_decompose t) as (a & Ha & _).
    apply (f_equal length) in H. rewrite Ha in H at 2.
    cbn in H. rewrite length_app in H. lia. }
  change (c :: t) with ([] ++ c :: t).
  rewrite (rstrip_app_nonspace [] c t Hc). cbn [app Py.lstrip].
  by rewrite Hc.
Qed.

Lemma strip_idem s : Py.strip (Py.strip s) = Py.strip s.
Proof. unfold Py.strip. by rewrite lstrip_rstrip, rstrip_idem. Qed.

Lemma strip_subset s x : x ∈ Py.strip s -> x ∈ s.
Proof.
  intros H. destruct (strip_decompose s) as (a & b & Hs & _).
  rewrite Hs. apply elem_of_app. right. apply elem_of_app. by left.
Qed.

Lemma split_subset sep s : forall l x, l ∈ Py.split sep s -> x ∈ l -> x ∈ s.
Proof.
  induction s as [|c s IH]; intros l x Hl Hx.
  - cbn in Hl. apply list_elem_of_singleton in Hl. by subst l.
  - cbn [Py.split] in Hl. destruct (Py.chr_eqb c sep).
    + apply elem_of_cons in Hl as [->|Hl]; [by apply elem_of_nil in Hx|].
      right. by apply (IH l).
    + destruct (Py.split sep s) as [|w ws] eqn:E.
      * apply list_elem_of_singleton in Hl. subst l.
        apply list_elem_of_singleton in Hx. subst x. left.
      * apply elem_of_cons in Hl as [->|Hl].
        -- apply elem_of_cons in Hx as [->|Hx]; [left|].
           right. apply (IH w); [left|done].
        -- right. apply (IH l); [by right|done].
Qed.

End Stripped.

(** ** The values of the field map *)

Section FieldMap.

Import Ollama Fields.

Lemma parse_line_settled extracted_data line :
  map_Forall (fun _ => settled) extracted_data ->
  map_Forall (fun _ => settled) (parse_line extracted_data line).
Proof.
  intros H. unfold parse_line.
  destruct (Py.contains (str ":") (Py.strip line)); [|done].
  destruct (Py.split_once ":" (Py.strip line)) as [field_name value].
  destruct (negb (Py.text_eqb (Py.strip value) [])
            && negb (Py.text_eqb (Py.lower (Py.strip value)) (str "open")))
    eqn:E.
  - apply andb_true_iff in E as [E1 E2].
    apply negb_true_iff in E1, E2.
    apply text_eqb_false in E1, E2.
    apply map_Forall_insert_2; [|done].
    split; [done|]. split; [apply strip_idem|done].
  - apply map_Forall_insert_2; [|done].
    split; [done|]. by split.
Qed.

Lemma parse_lines_settled lines : forall extracted_data,
  map_Forall (fun _ => settled) extracted_data ->
  map_Forall (fun _ => settled) (fold_left parse_line lines extracted_data).
Proof.
  induction lines as [|line lines IH]; intros m H; [done|].
  cbn [fold_left]. by apply IH, parse_line_settled.
Qed.

Lemma parse_lines_no_colon lines : forall extracted_data,
  Forall (fun line => ":"%char ∉ line) lines ->
  fold_left parse_line lines extracted_data = extracted_data.
Proof.
  induction lines as [|line lines IH]; intros m H; [done|].
  apply Forall_cons in H as [Hl H]. cbn [fold_left].
  unfold parse_line at 2.
  replace (Py.contains (str ":") (Py.strip line)) with false; [by apply IH|].
  symmetry. apply (absent_contains ":"). intros Hin. by apply strip_subset in Hin.
Qed.

End FieldMap.

(** X12.  Every value of the map that [parse_llama_response] returns is
    a non-empty text without blanks around it, and a value that reads
    [open] in whatever case is the sentinel [OPEN] itself: an empty value
    and every spelling of [open] are stored as [OPEN]. *)
Theorem parse_llama_response_values
    (llama_response field_name value : text) :
  Ollama.parse_llama_response llama_response !! field_name = Some value ->
  value <> [] /\ Py.strip value = value
  /\ (Py.lower value = str "open" -> value = str "OPEN").
Proof.
  intros H. unfold Ollama.parse_llama_response in H.
  exact (parse_lines_settled _ ∅ (map_Forall_empty _) field_name value H).
Qed.

(** X12 at a reply of three lines. *)
Lemma parse_llama_response_values_witness :
  str "OPEN" <> [] /\ Py.strip (str "OPEN") = str "OPEN"
  /\ (Py.lower (str "OPEN") = str "open" -> str "OPEN" = str "OPEN").
Proof.
  apply (parse_llama_response_values
           (str "TITLE: Engineer" ++ newline :: str "TERM:  Open "
            ++ newline :: str "SCHEDULE:")
           (str "TERM") (str "OPEN")).
  vm_compute. reflexivity.
Defined.

(** X13.  A reply that holds no colon names no field: the map is
    empty. *)
Theorem parse_llama_response_no_colon (llama_response : text) :
  Py.contains (str ":") llama_response = false ->
  Ollama.parse_llama_response llama_response = ∅.
Proof.
  intros H. apply (contains_chr_false ":") in H.
  unfold Ollama.parse_llama_response. apply parse_lines_no_colon.
  apply Forall_forall. intros line Hl Hin. apply H.
  apply strip_subset. by apply (split_subset newline _ line).
Qed.

(** X13 at a reply of two lines of prose. *)
Lemma parse_llama_response_no_colon_witness :
  Ollama.parse_llama_response
    (str "I could not find" ++ newline :: str "any field.") = ∅.
Proof.
  apply (parse_llama_response_no_colon
           (str "I could not find" ++ newline :: str "any field.")).
  reflexivity.
Defined.

(** ** What the free-text cleaner returns *)

Section CleanerResult.

Import Cleaner Cleaned.

Lemma presentable_open : presentable (str "OPEN").
Proof. by vm_compute. Qed.

Lemma scrub_presentable response field_path :
  presentable (scrub response field_path).
Proof.
  unfold scrub.
  destruct (among response field_descriptions); [apply presentable_open|].
  cbv zeta.
  match goal with
  | |- context [Py.text_eqb (Py.strip ?t) [] || _] => generalize t
  end.
  intros t.
  destruct (Py.text_eqb (Py.strip t) []) eqn:E1;
    [apply presentable_open|].
  destruct (among (Py.lower (Py.strip t)) negative_tokens) eqn:E2;
    [apply presentable_open|].
  cbn [orb].
  destruct (among (Py.strip t) field_descriptions) eqn:E3;
    [apply presentable_open|].
  split; [by apply text_eqb_false|]. split; [apply strip_idem|done].
Qed.

End CleanerResult.

(** X14.  Whatever the reply and the field, [clean_response] returns a
    text that is not empty and has no blanks around it, that is none of
    the words for a missing value ([n/a], [not mentioned], [not specified],
    [not available], [none], in whatever case) and none of the field
    descriptions of the prompts: in each of these cases it returns the
    sentinel [OPEN] instead. *)
Theorem clean_response_presentable (response field_path : text) :
  let result := Cleaner.clean_response response field_path in
  result <> [] /\ Py.strip result = result
  /\ Cleaner.among (Py.lower result) Cleaner.negative_tokens = false
  /\ Cleaner.among result Cleaner.field_descriptions = false.
Proof.
  cbv zeta. unfold Cleaner.clean_response.
  destruct (Py.text_eqb response [] || Py.text_eqb (Py.strip response) []);
    [apply presentable_open|].
  destruct (Py.contains (str "OPEN") (Py.upper (Py.strip response))
            && (10 <? length (Py.strip response))%nat);
    [apply presentable_open|].
  apply scrub_presentable.
Qed.

(** ** The type of a coerced value *)

Section CoercionKinds.

Import Coerce Kinds.

Variables (raw_value field_path : text) (default_value : json).

Hypothesis not_open : raw_value <> str "OPEN".
Hypothesis not_empty : raw_value <> [].

Lemma is_open_false : is_open raw_value = false.
Proof. by apply text_eqb_false. Qed.

Lemma guard_false : is_open raw_value || Py.text_eqb raw_value [] = false.
Proof.
  rewrite is_open_false. by apply text_eqb_false.
Qed.

Lemma parse_years :
  Py.contains (str "requiredYears") field_path = true ->
  kind_of (parse_extracted_value raw_value field_path default_value) = Number.
Proof.
  intros H. unfold parse_extracted_value. rewrite guard_false, H.
  by destruct (Re.search digits_run raw_value).
Qed.

Lemma parse_lieu :
  Py.contains (str "requiredYears") field_path = false ->
  Py.contains (str "acceptsExperienceInLieu") field_path = true ->
  kind_of (parse_extracted_value raw_value field_path default_value) = Boolean.
Proof.
  intros H1 H2. unfold parse_extracted_value. by rewrite guard_false, H1, H2.
Qed.

Lemma parse_salary :
  Py.contains (str "requiredYears") field_path = false ->
  Py.contains (str "acceptsExperienceInLieu") field_path = false ->
  Py.contains (str "salary") field_path
  && (Py.contains (str "min") field_path
      || Py.contains (str "max") field_path) = true ->
  kind_of (parse_extracted_value raw_value field_path default_value) = Number.
Proof.
  intros H1 H2 H3. unfold parse_extracted_value.
  rewrite guard_false, H1, H2, H3.
  by destruct (Re.search salary_number _).
Qed.

Lemma parse_items :
  Py.contains (str "requiredYears") field_path = false ->
  Py.contains (str "acceptsExperienceInLieu") field_path = false ->
  Py.contains (str "salary") field_path
  && (Py.contains (str "min") field_path
      || Py.contains (str "max") field_path) = false ->
  Py.endswith (str "duties") field_path
  || Py.endswith (str "benefits") field_path
  || Py.endswith (str "technical") field_path
  || Py.endswith (str "soft") field_path = true ->
  kind_of (parse_extracted_value raw_value field_path default_value) = Array.
Proof.
  intros H1 H2 H3 H4. unfold parse_extracted_value.
  by rewrite guard_false, H1, H2, H3, H4.
Qed.

Lemma parse_objectives :
  Py.contains (str "requiredYears") field_path = false ->
  Py.contains (str "acceptsExperienceInLieu") field_path = false ->
  Py.contains (str "salary") field_path
  && (Py.contains (str "min") field_path
      || Py.contains (str "max") field_path) = false ->
  Py.endswith (str "duties") field_path
  || Py.endswith (str "benefits") field_path
  || Py.endswith (str "technical") field_path
  || Py.endswith (str "soft") field_path = false ->
  Py.contains (str "keyObjectives") field_path = true ->
  kind_of (parse_extracted_value raw_value field_path default_value) = Array.
Proof.
  intros H1 H2 H3 H4 H5. unfold parse_extracted_value.
  rewrite guard_false, H1, H2, H3, H4, H5, is_open_false.
  by destruct (Py.contains (str "|") raw_value).
Qed.

Lemma parse_text :
  Py.contains (str "requiredYears") field_path = false ->
  Py.contains (str "acceptsExperienceInLieu") field_path = false ->
  Py.contains (str "salary") field_path
  && (Py.contains (str "min") field_path
      || Py.contains (str "max") field_path) = false ->
  Py.endswith (str "duties") field_path
  || Py.endswith (str "benefits") field_path
  || Py.endswith (str "technical") field_path
  || Py.endswith (str "soft") field_path = false ->
  Py.contains (str "keyObjectives") field_path = false ->
  parse_extracted_value raw_value field_path default_value = JStr raw_value.
Proof.
  intros H1 H2 H3 H4 H5. unfold parse_extracted_value.
  by rewrite guard_false, H1, H2, H3, H4, H5, is_open_false.
Qed.

End CoercionKinds.

(** X15.  The type of what [parse_extracted_value] returns for the fields
    of [field_mappings], on every reply other than [OPEN] and the empty
    text: for each field but one it is the type of the field's default (a
    number for the years and the salary bounds, a truth value for
    [acceptsExperienceInLieu], a list for the skills, the benefits and the
    objectives, a text elsewhere).  The one is [dayToDayDuties]: its path
    ends in [Duties], the test for list fields asks for [duties], so the
    reply comes back as one text where the template holds a list. *)
Theorem parse_extracted_value_kinds (raw_value : text) :
  raw_value <> str "OPEN" ->
  raw_value <> [] ->
  Forall
    (fun mapping : text * json =>
       let '(field_path, default) := mapping in
       if Py.text_eqb field_path
            (str "jobProfile.responsibilities.dayToDayDuties")
       then Coerce.parse_extracted_value raw_value field_path default
            = JStr raw_value
            /\ Kinds.kind_of default = Kinds.Array
       else Kinds.kind_of
              (Coerce.parse_extracted_value raw_value field_path default)
            = Kinds.kind_of default)
    Filler.field_mappings.
Proof.
  intros Ho He. unfold Filler.field_mappings.
  repeat apply List.Forall_cons; try apply List.Forall_nil;
    lazymatch goal with
    | |- context [Py.text_eqb ?p ?q] =>
        let b := eval vm_compute in (Py.text_eqb p q) in
        change (Py.text_eqb p q) with b; cbv iota beta
    end;
    first
      [ split; [|reflexivity]; apply parse_text; try done;
        vm_compute; reflexivity
      | cbn [Kinds.kind_of];
        first
          [ rewrite parse_text by (try done; vm_compute; reflexivity);
            reflexivity
          | apply parse_years; try done; vm_compute; reflexivity
          | apply parse_lieu; try done; vm_compute; reflexivity
          | apply parse_salary; try done; vm_compute; reflexivity
          | apply parse_items; try done; vm_compute; reflexivity
          | apply parse_objectives; try done; vm_compute; reflexivity ] ].
Qed.

(** X15 at the reply [Build the API | Review code]. *)
Lemma parse_extracted_value_kinds_witness :
  Forall
    (fun mapping : text * json =>
       let '(field_path, default) := mapping in
       if Py.text_eqb field_path
            (str "jobProfile.responsibilities.dayToDayDuties")
       then Coerce.parse_extracted_value (str "Build the API | Review code")
              field_path default
            = JStr (str "Build the API | Review code")
            /\ Kinds.kind_of default = Kinds.Array
       else Kinds.kind_of
              (Coerce.parse_extracted_value (str "Build the API | Review code")
                 field_path default)
            = Kinds.kind_of default)
    Filler.field_mappings.
Proof.
  apply (parse_extracted_value_kinds (str "Build the API | Review code"));
    discriminate.
Defined.

(** ** Writing and reading along a path *)

Section PathFacts.

Import Filler Paths.

Lemma set_path_cons key key2 rest current value :
  set_path (JDict current) (key :: key2 :: rest) value
  = match
      set_path (match Dict.get key current with
                | Some v => v
                | None => JDict []
                end) (key2 :: rest) value
    with
    | Some v' => Some (JDict (Dict.set key v' current))
    | None => None
    end.
Proof. reflexivity. Qed.

Lemma assign_cons key key2 rest current value :
  assign (JDict current) (key :: key2 :: rest) value
  = match Dict.get key current with
    | Some v =>
        match assign v (key2 :: rest) value with
        | Some v' => Some (JDict (Dict.set key v' current))
        | None => None
        end
    | None => None
    end.
Proof. reflexivity. Qed.

Lemma set_path_member keys : forall data value data',
  set_path data keys value = Some data' ->
  member data' keys = Some value.
Proof.
  induction keys as [|key rest IH]; intros data value data' H; [done|].
  destruct data as [| | | | |current]; try by destruct rest.
  destruct rest as [|key2 rest].
  - cbn in H. simplify_eq. cbn. by rewrite dict_get_set.
  - rewrite set_path_cons in H.
    destruct (set_path _ (key2 :: rest) value) as [v'|] eqn:E; [|done].
    simplify_eq. cbn [member]. rewrite dict_get_set. by apply (IH _ _ _ E).
Qed.

Lemma member_empty keys : keys <> [] -> member (JDict []) keys = None.
Proof. by destruct keys. Qed.

Lemma diverge_nonempty a b : diverge a b = true -> a <> [] /\ b <> [].
Proof. by destruct a, b. Qed.

Lemma set_path_member_other keys : forall data value data' other,
  set_path data keys value = Some data' ->
  diverge keys other = true ->
  member data' other = member data other.
Proof.
  induction keys as [|key rest IH]; intros data value data' other H Hd;
    [done|].
  destruct other as [|key' other]; [done|].
  destruct data as [| | | | |current]; try by destruct rest.
  cbn [diverge] in Hd.
  destruct (Py.text_eqb key key') eqn:Ek.
  - apply text_eqb_eq in Ek. subst key'.
    destruct rest as [|key2 rest]; [done|].
    rewrite set_path_cons in H.
    destruct (set_path _ (key2 :: rest) value) as [v'|] eqn:E; [|done].
    simplify_eq. cbn [member]. rewrite dict_get_set.
    rewrite (IH _ _ _ _ E Hd).
    destruct (Dict.get key current); [done|].
    apply member_empty. by destruct (diverge_nonempty _ _ Hd).
  - apply text_eqb_false in Ek.
    assert (exists v', data' = JDict (Dict.set key v' current)) as [v' ->].
    { destruct rest as [|key2 rest].
      - cbn in H. simplify_eq. by eexists.
      - rewrite set_path_cons in H.
        destruct (set_path _ (key2 :: rest) value) as [v'|]; [|done].
        simplify_eq. by eexists. }
    cbn [member]. by rewrite dict_get_set_other.
Qed.

Lemma get_path_member keys : forall data,
  get_path data keys = default JNull (member data keys).
Proof.
  induction keys as [|key rest IH]; intros data; [done|].
  destruct data as [| | | | |current]; try done.
  cbn [get_path member]. by destruct (Dict.get key current).
Qed.

Lemma assign_set_path keys : forall data value data',
  assign data keys value = Some data' ->
  set_path data keys value = Some data'.
Proof.
  induction keys as [|key rest IH]; intros data value data' H.
  - by destruct data.
  - destruct data as [| | | | |current]; try done.
    destruct rest as [|key2 rest]; [done|].
    rewrite assign_cons in H. rewrite set_path_cons.
    destruct (Dict.get key current) as [v|]; [|done].
    destruct (assign v (key2 :: rest) value) as [v'|] eqn:E; [|done].
    by rewrite (IH _ _ _ E).
Qed.

Lemma completed_idem key value :
  fill_template_recursively (fill_template_recursively value)
  = fill_template_recursively value ->
  completed key (completed key value) = completed key value.
Proof.
  intros IH. destruct value as [|b|n|s|items|members]; try done.
  - unfold completed.
    destruct b, (Py.text_eqb key (str "requiredYears")) eqn:E; cbn;
      by rewrite ?E.
  - unfold completed.
    destruct (n =? 0)%Z eqn:En,
      (Py.text_eqb key (str "requiredYears")) eqn:E; cbn;
      by rewrite ?En, ?E.
  - cbn. by destruct s.
Qed.

Lemma completed_item_idem item :
  fill_template_recursively (fill_template_recursively item)
  = fill_template_recursively item ->
  completed_item (completed_item item) = completed_item item.
Proof.
  intros IH. by destruct item.
Qed.

Lemma fill_idem value :
  fill_template_recursively (fill_template_recursively value)
  = fill_template_recursively value.
Proof.
  induction value as [| | | |items IH|members IH] using json_nested_ind;
    try done.
  - rewrite !fill_list. f_equal. rewrite map_map.
    apply map_ext_Forall. eapply Forall_impl; [exact IH|].
    intros item. apply completed_item_idem.
  - rewrite !fill_dict. f_equal. rewrite map_map.
    apply map_ext_Forall. eapply Forall_impl; [exact IH|].
    intros [key value] H. cbn [fst snd]. f_equal. by apply completed_idem.
Qed.

End PathFacts.

(** X16.  Writing and reading along a dotted path: after a call of
    [set_nested_value] that does not raise, [get_nested_value] gives the
    value written under the same path, whether the objects on the way were
    there before or had to be made. *)
Theorem set_then_get_nested_value (data : json) (path : text) (value data' : json) :
  Filler.set_nested_value data path value = Some data' ->
  Filler.get_nested_value data' path = value.
Proof.
  unfold Filler.set_nested_value, Filler.get_nested_value. intros H.
  by rewrite get_path_member, (set_path_member _ _ _ _ H).
Qed.

(** X16 at a path whose parents are missing. *)
Lemma set_then_get_nested_value_witness :
  Filler.get_nested_value
    (JDict [ (str "jobProfile",
              JDict [ (str "JobId", JStr (str "t-1"));
                      (str "meta",
                       JDict [ (str "customFields",
                                JDict [ (str "clearance",
                                         JStr (str "OPEN")) ]) ]) ]) ])
    (str "jobProfile.meta.customFields.clearance")
  = JStr (str "OPEN").
Proof.
  apply (set_then_get_nested_value
           (JDict [(str "jobProfile", JDict [(str "JobId", JStr (str "t-1"))])])
           (str "jobProfile.meta.customFields.clearance")
           (JStr (str "OPEN"))).
  reflexivity.
Defined.

(** X17.  A write along one path is not seen along a path that parts
    from it: when the two dotted paths differ at some key before either
    ends, [get_nested_value] gives under the other path what it gave
    before the write. *)
Theorem set_nested_value_elsewhere
    (data : json) (path other : text) (value data' : json) :
  Filler.set_nested_value data path value = Some data' ->
  Paths.diverge (Py.split "." path) (Py.split "." other) = true ->
  Filler.get_nested_value data' other = Filler.get_nested_value data other.
Proof.
  unfold Filler.set_nested_value, Filler.get_nested_value. intros H Hd.
  by rewrite !get_path_member, (set_path_member_other _ _ _ _ _ H Hd).
Qed.

(** X17 at two fields of the same section. *)
Lemma set_nested_value_elsewhere_witness :
  Filler.get_nested_value
    (JDict [ (str "jobProfile",
              JDict [ (str "coreDetails",
                       JDict [ (str "title", JStr (str "Engineer"));
                               (str "jobSummary", JStr (str "Builds")) ]) ]) ])
    (str "jobProfile.coreDetails.title")
  = Filler.get_nested_value
      (JDict [ (str "jobProfile",
                JDict [ (str "coreDetails",
                         JDict [ (str "title", JStr (str "Engineer")) ]) ]) ])
      (str "jobProfile.coreDetails.title").
Proof.
  apply (set_nested_value_elsewhere
           (JDict [ (str "jobProfile",
                     JDict [ (str "coreDetails",
                              JDict [ (str "title",
                                       JStr (str "Engineer")) ]) ]) ])
           (str "jobProfile.coreDetails.jobSummary")
           (str "jobProfile.coreDetails.title")
           (JStr (str "Builds"))); reflexivity.
Defined.

(** X18.  The structural pass is idempotent: on a template that went
    through [_ensure_complete_template_structure] once, a second run
    changes nothing. *)
Theorem ensure_complete_template_structure_idempotent (template : json) :
  Filler._ensure_complete_template_structure
    (Filler._ensure_complete_template_structure template)
  = Filler._ensure_complete_template_structure template.
Proof. apply fill_idem. Qed.

(** ** What a successful fill always holds *)

Section FillStamps.

Import Filler Paths.

Lemma set_same data path value data' :
  set_nested_value data path value = Some data' ->
  member data' (Py.split "." path) = Some value.
Proof. apply set_path_member. Qed.

Lemma set_other data path value data' keys :
  set_nested_value data path value = Some data' ->
  diverge (Py.split "." path) keys = true ->
  member data' keys = member data keys.
Proof. apply set_path_member_other. Qed.

Lemma assign_same data keys value data' :
  assign data keys value = Some data' -> member data' keys = Some value.
Proof.
  intros H. exact (set_path_member _ _ _ _ (assign_set_path _ _ _ _ H)).
Qed.

Lemma assign_other data keys value data' other :
  assign data keys value = Some data' ->
  diverge keys other = true ->
  member data' other = member data other.
Proof.
  intros H Hd.
  exact (set_path_member_other _ _ _ _ _ (assign_set_path _ _ _ _ H) Hd).
Qed.

Lemma each_set_other value paths keys : forall data data',
  each (fun t path => set_nested_value t path value) paths data = Some data' ->
  forallb (fun path => diverge (Py.split "." path) keys) paths = true ->
  member data' keys = member data keys.
Proof.
  induction paths as [|path paths IH]; intros data data' H Hd.
  - cbn in H. by simplify_eq.
  - cbn [each] in H. cbn [forallb] in Hd.
    apply andb_true_iff in Hd as [Hp Hd].
    destruct (set_nested_value data path value) as [data1|] eqn:E; [|done].
    rewrite (IH _ _ H Hd). by apply (set_other _ _ _ _ _ E).
Qed.

Lemma each_set_same value paths path : forall data data',
  each (fun t path => set_nested_value t path value) paths data = Some data' ->
  forallb (fun q => Py.text_eqb q path
                    || diverge (Py.split "." q) (Py.split "." path)) paths
  = true ->
  existsb (fun q => Py.text_eqb q path) paths = true
  \/ member data (Py.split "." path) = Some value ->
  member data' (Py.split "." path) = Some value.
Proof.
  induction paths as [|q paths IH]; intros data data' H Hd Hin.
  - cbn in H. simplify_eq. by destruct Hin.
  - cbn [each] in H. cbn [forallb] in Hd. cbn [existsb] in Hin.
    apply andb_true_iff in Hd as [Hq Hd].
    destruct (set_nested_value data q value) as [data1|] eqn:E; [|done].
    apply (IH _ _ H Hd).
    destruct (Py.text_eqb q path) eqn:Eq.
    + right. apply text_eqb_eq in Eq. subst q. by apply (set_same _ _ _ _ E).
    + cbn [orb] in Hq, Hin. destruct Hin as [Hin|Hin]; [by left|right].
      by rewrite (set_other _ _ _ _ _ E Hq).
Qed.

Lemma flow_other data data' keys :
  reset_interview_flow data = Some data' ->
  diverge (Py.split "." (str "jobProfile.interviewGuidance.interviewFlow"))
    keys = true ->
  member data' keys = member data keys.
Proof.
  unfold reset_interview_flow. cbv zeta. intros H Hd.
  destruct (truthy _); [|by simplify_eq].
  destruct (get_nested_value data _) as [| | | |stages|]; try done.
  destruct (all_some _) as [stages'|]; [|done].
  by apply (set_other _ _ _ _ _ H).
Qed.

Lemma overlay_other call_llama3 data mapping data' keys :
  overlay call_llama3 data mapping = Some data' ->
  Py.text_eqb (fst mapping) (str "jobProfile.JobId")
  || diverge (Py.split "." (fst mapping)) keys = true ->
  member data' keys = member data keys.
Proof.
  destruct mapping as [field_path default]. unfold overlay. cbn [fst].
  intros H Hd.
  destruct (Py.text_eqb field_path (str "jobProfile.JobId"));
    [by simplify_eq|].
  cbn [orb] in Hd. cbv zeta in H.
  destruct (_ || _) in H; [by apply (set_other _ _ _ _ _ H)|].
  destruct (_ && _) in H; [by apply (set_other _ _ _ _ _ H)|].
  by simplify_eq.
Qed.

Lemma each_overlay_other call_llama3 mappings keys : forall data data',
  each (overlay call_llama3) mappings data = Some data' ->
  forallb (fun mapping =>
             Py.text_eqb (fst mapping) (str "jobProfile.JobId")
             || diverge (Py.split "." (fst mapping)) keys) mappings = true ->
  member data' keys = member data keys.
Proof.
  induction mappings as [|mapping mappings IH]; intros data data' H Hd.
  - cbn in H. by simplify_eq.
  - cbn [each] in H. cbn [forallb] in Hd.
    apply andb_true_iff in Hd as [Hm Hd].
    destruct (overlay call_llama3 data mapping) as [data1|] eqn:E; [|done].
    rewrite (IH _ _ H Hd). by apply (overlay_other _ _ _ _ _ E).
Qed.

Lemma get_member data path value :
  member data (Py.split "." path) = Some value ->
  get_nested_value data path = value.
Proof.
  intros H. unfold get_nested_value. by rewrite get_path_member, H.
Qed.

(** The stages of a fill that did not raise. *)
Lemma fill_stages call_llama3 now template template_id filled :
  intelligently_fill_template call_llama3 now template template_id
  = Some filled ->
  exists t0 t1 s1 s2 s3 s4 s5 s6 s7 s8 m1 m2,
    assign template [str "jobProfile"; str "JobId"] (JStr template_id)
    = Some t0
    /\ each (overlay call_llama3) field_mappings
         (_ensure_complete_template_structure t0) = Some t1
    /\ each (fun t path => set_nested_value t path (JList []))
         custom_tag_paths t1 = Some s1
    /\ each (fun t path => set_nested_value t path OPEN)
         extra_notes_paths s1 = Some s2
    /\ set_nested_value s2 (str "jobProfile.interviewGuidance.assessmentPlan")
         (JList []) = Some s3
    /\ set_nested_value s3
         (str "jobProfile.interviewGuidance.competencyProfile") (JList [])
       = Some s4
    /\ reset_interview_flow s4 = Some s5
    /\ set_nested_value s5
         (str "jobProfile.meta.customFields.hardwareRequirement") OPEN
       = Some s6
    /\ set_nested_value s6
         (str "jobProfile.meta.customFields.timezoneOverlap") OPEN = Some s7
    /\ set_nested_value s7 (str "jobProfile.meta.customFields.clearance") OPEN
       = Some s8
    /\ assign s8 [str "jobProfile"; str "meta"; str "lastUpdated"] (JStr now)
       = Some m1
    /\ assign m1 [str "jobProfile"; str "meta"; str "source"]
         (JStr (str "AI-Extracted")) = Some m2
    /\ assign m2 [str "jobProfile"; str "meta"; str "schemaVersion"]
         (JStr (str "v1.1")) = Some filled.
Proof.
  unfold intelligently_fill_template. cbv zeta. intros H.
  apply bind_Some in H as (t0 & H0 & H).
  apply bind_Some in H as (t1 & H1 & H).
  apply bind_Some in H as (s8 & Hs & H).
  apply bind_Some in H as (m1 & Hm1 & H).
  apply bind_Some in H as (m2 & Hm2 & H).
  unfold _fill_special_template_fields in Hs.
  apply bind_Some in Hs as (s1 & Hs1 & Hs).
  apply bind_Some in Hs as (s2 & Hs2 & Hs).
  apply bind_Some in Hs as (s3 & Hs3 & Hs).
  apply bind_Some in Hs as (s4 & Hs4 & Hs).
  apply bind_Some in Hs as (s5 & Hs5 & Hs).
  apply bind_Some in Hs as (s6 & Hs6 & Hs).
  apply bind_Some in Hs as (s7 & Hs7 & Hs).
  by exists t0, t1, s1, s2, s3, s4, s5, s6, s7, s8, m1, m2.
Qed.

End FillStamps.

(** X19.  What every fill that does not raise holds, whatever the template
    held there and whatever the model replied: the job id is the template
    id (the sentinel [OPEN] for an empty id, which the structural pass
    takes for a missing text), the custom tags, the assessment plan and the
    competency profile are empty lists, the extra notes and the three
    custom fields are [OPEN], and the metadata carry the time stamp, the
    source [AI-Extracted] and the schema version [v1.1]. *)
Theorem intelligently_fill_template_reserved
    (call_llama3 : text -> text) (now : text) (template : json)
    (template_id : text) (filled : json) :
  Filler.intelligently_fill_template call_llama3 now template template_id
  = Some filled ->
  Filler.get_nested_value filled (str "jobProfile.JobId")
  = (if Py.text_eqb template_id [] then Filler.OPEN else JStr template_id)
  /\ Forall (fun path => Filler.get_nested_value filled path = JList [])
       Filler.custom_tag_paths
  /\ Forall (fun path => Filler.get_nested_value filled path = Filler.OPEN)
       Filler.extra_notes_paths
  /\ Filler.get_nested_value filled
       (str "jobProfile.interviewGuidance.assessmentPlan") = JList []
  /\ Filler.get_nested_value filled
       (str "jobProfile.interviewGuidance.competencyProfile") = JList []
  /\ Filler.get_nested_value filled
       (str "jobProfile.meta.customFields.hardwareRequirement") = Filler.OPEN
  /\ Filler.get_nested_value filled
       (str "jobProfile.meta.customFields.timezoneOverlap") = Filler.OPEN
  /\ Filler.get_nested_value filled
       (str "jobProfile.meta.customFields.clearance") = Filler.OPEN
  /\ Filler.get_nested_value filled (str "jobProfile.meta.lastUpdated")
     = JStr now
  /\ Filler.get_nested_value filled (str "jobProfile.meta.source")
     = JStr (str "AI-Extracted")
  /\ Filler.get_nested_value filled (str "jobProfile.meta.schemaVersion")
     = JStr (str "v1.1").
Proof.
  intros H.
  destruct (fill_stages _ _ _ _ _ H) as
    (t0 & t1 & s1 & s2 & s3 & s4 & s5 & s6 & s7 & s8 & m1 & m2
     & H0 & H1 & Hs1 & Hs2 & Hs3 & Hs4 & Hs5 & Hs6 & Hs7 & Hs8
     & Hm1 & Hm2 & Hm3).
  clear H.
  unfold Filler.custom_tag_paths, Filler.extra_notes_paths.
  repeat split;
    repeat apply List.Forall_cons; try apply List.Forall_nil;
    apply get_member;
    repeat
      match goal with
      | H : _ = Some ?d |- Filler.member ?d _ = _ =>
          first
            [ exact (assign_same _ _ _ _ H)
            | exact (set_same _ _ _ _ H)
            | apply (each_set_same _ _ _ _ _ H);
              [vm_compute; reflexivity | left; vm_compute; reflexivity]
            | rewrite (assign_other _ _ _ _ _ H) by (vm_compute; reflexivity)
            | rewrite (set_other _ _ _ _ _ H) by (vm_compute; reflexivity)
            | rewrite (each_set_other _ _ _ _ _ H)
                by (vm_compute; reflexivity)
            | rewrite (flow_other _ _ _ H) by (vm_compute; reflexivity)
            | rewrite (each_overlay_other _ _ _ _ _ H)
                by (vm_compute; reflexivity) ]
      end.
  pose proof (assign_same _ _ _ _ H0) as Hid.
  change [str "jobProfile"; str "JobId"]
    with ([str "jobProfile"] ++ [str "JobId"]) in Hid.
  apply member_completed in Hid.
  change (Py.split "." (str "jobProfile.JobId"))
    with ([str "jobProfile"] ++ [str "JobId"]).
  unfold Filler._ensure_complete_template_structure. rewrite Hid.
  unfold Filler.completed, Filler.OPEN.
  by destruct (Py.text_eqb template_id []).
Qed.

(** X19 at the sample template and a model that never answers. *)
Lemma intelligently_fill_template_reserved_witness :
  let filled :=
    default JNull
      (Filler.intelligently_fill_template (fun _ => []) (str "1700000000")
         sample_template (str "t-1")) in
  Filler.intelligently_fill_template (fun _ => []) (str "1700000000")
    sample_template (str "t-1") = Some filled
  /\ Filler.get_nested_value filled (str "jobProfile.JobId")
     = (if Py.text_eqb (str "t-1") [] then Filler.OPEN else JStr (str "t-1"))
  /\ Forall (fun path => Filler.get_nested_value filled path = JList [])
       Filler.custom_tag_paths
  /\ Forall (fun path => Filler.get_nested_value filled path = Filler.OPEN)
       Filler.extra_notes_paths
  /\ Filler.get_nested_value filled
       (str "jobProfile.interviewGuidance.assessmentPlan") = JList []
  /\ Filler.get_nested_value filled
       (str "jobProfile.interviewGuidance.competencyProfile") = JList []
  /\ Filler.get_nested_value filled
       (str "jobProfile.meta.customFields.hardwareRequirement") = Filler.OPEN
  /\ Filler.get_nested_value filled
       (str "jobProfile.meta.customFields.timezoneOverlap") = Filler.OPEN
  /\ Filler.get_nested_value filled
       (str "jobProfile.meta.customFields.clearance") = Filler.OPEN
  /\ Filler.get_nested_value filled (str "jobProfile.meta.lastUpdated")
     = JStr (str "1700000000")
  /\ Filler.get_nested_value filled (str "jobProfile.meta.source")
     = JStr (str "AI-Extracted")
  /\ Filler.get_nested_value filled (str "jobProfile.meta.schemaVersion")
     = JStr (str "v1.1").
Proof.
  split; [vm_compute; reflexivity|].
  apply (intelligently_fill_template_reserved (fun _ => []) (str "1700000000")
           sample_template (str "t-1")).
  vm_compute. reflexivity.
Defined.

(** X20.  The driver of the job pipeline gives every pending job one
    verdict line, in the order of the query, each job processed from the
    state its predecessor left: a job that fails does not end the batch
    and is not tried again. *)
Theorem process_all_pending_jobs_verdicts
    {world : Type} (process : text -> world -> bool * world)
    (jobs : list text) (w : world) :
  let lines :=
    fst (Batch.process_all_pending_jobs_intelligently world process true
           (Some jobs) w) in
  Batch.verdicts lines
  = map (fun v => (fst v, fst (process (fst v) (snd v))))
      (Batch.job_visits world process jobs w)
  /\ map fst (Batch.verdicts lines) = jobs.
Proof.
  cbv zeta.
  assert (H : Batch.verdicts
                (fst (Batch.process_all_pending_jobs_intelligently world
                        process true (Some jobs) w))
              = map (fun v => (fst v, fst (process (fst v) (snd v))))
                  (Batch.job_visits world process jobs w)).
  { destruct jobs as [|job jobs]; [done|].
    rewrite <- (process_each_verdicts process (job :: jobs) w).
    unfold Batch.process_all_pending_jobs_intelligently. cbn [negb].
    destruct (Batch.process_each world process (job :: jobs) w) as [lines w'].
    cbn [fst]. unfold Batch.verdicts. cbn [map concat app].
    rewrite map_app, concat_app. cbn. by rewrite app_nil_r. }
  split; [done|]. rewrite H, map_map. cbn [fst].
  clear H. revert w. induction jobs as [|job jobs IH]; intros w; [done|].
  cbn [Batch.job_visits map fst]. by rewrite IH.
Qed.

(** X21.  The copy the intelligent filler works on,
    [json.loads(json.dumps(template))], shares nothing with the template:
    for a template that [json.load] made, no run of assignments of texts,
    numbers and truth values through the copy, down whatever paths and
    whether or not one of them raises, changes what the template stands
    for. *)
Theorem deep_copy_isolates_template
    (j : json) (h h0 h1 h2 : Heap.heap) (template filled : Heap.value)
    (fuel fuel' : nat) (writes : list (list text * Heap.value))
    (out : Heap.outcome unit) :
  Heap.well_formed h ->
  Heap.load j h = (Heap.Ok template, h0) ->
  Heap.deep_copy fuel template h0 = (Heap.Ok filled, h1) ->
  Forall (fun w => Heap.scalar (snd w)) writes ->
  Heap.assign_all filled writes h1 = (out, h2) ->
  Heap.dump fuel' h2 template = Heap.dump fuel' h0 template.
Proof.
  intros Hw Hl Hd Hs Ha.
  destruct (load_well_formed j h template h0 Hw Hl) as [Hw0 Hv].
  by apply (deep_copy_keeps_every_template fuel h0 template filled h1 writes
              out h2).
Qed.

(** X21 at the sample template and two assignments. *)
Lemma deep_copy_isolates_template_witness :
  let writes :=
    [ ([str "jobProfile"; str "JobId"], Heap.VStr (str "t-1"));
      ([str "jobProfile"; str "coreDetails"; str "title"],
       Heap.VStr (str "Engineer")) ] in
  exists template h0 filled h1 out h2,
    Heap.load sample_template Heap.empty = (Heap.Ok template, h0)
    /\ Heap.deep_copy 10 template h0 = (Heap.Ok filled, h1)
    /\ Heap.assign_all filled writes h1 = (out, h2)
    /\ Heap.dump 10 h2 template = Heap.dump 10 h0 template.
Proof.
  cbv zeta. eexists _, _, _, _, _, _.
  split; [by vm_compute|]. split; [by vm_compute|]. split; [by vm_compute|].
  eapply (deep_copy_isolates_template sample_template Heap.empty _ _ _ _ _
            10 10
            [ ([str "jobProfile"; str "JobId"], Heap.VStr (str "t-1"));
              ([str "jobProfile"; str "coreDetails"; str "title"],
               Heap.VStr (str "Engineer")) ]).
  - exact well_formed_empty.
  - vm_compute. reflexivity.
  - vm_compute. reflexivity.
  - repeat constructor.
  - vm_compute. reflexivity.
Defined.

(** ** The years of experience *)

Section Years.

Import Qualifications.
Local Open Scope Z_scope.

Lemma first_in_range_bounds candidates :
  0 <= first_in_range candidates <= 20.
Proof.
  induction candidates as [|years rest IH]; cbn; [lia|].
  destruct ((0 <=? years) && (years <=? 20)) eqn:E; [|done].
  apply andb_true_iff in E as [E1 E2]. lia.
Qed.

End Years.

(** X22.  Whatever the text, [_extract_experience_years] returns a number
    of years from 0 to 20: a match outside this range is passed over, and
    without a match within it the answer is the default 3. *)
Theorem extract_experience_years_range (t : text) :
  (0 <= Qualifications._extract_experience_years t <= 20)%Z.
Proof. apply first_in_range_bounds. Qed.

(** ** What the matcher finds *)

Section MatcherSound.

Import Spans.

Context {R : Type}.

Lemma rounds_sound (a : Re.re) greedy (k : nat -> text -> Re.caps -> option R) :
  (forall i s c (k : nat -> text -> Re.caps -> option R) x,
     Re.run a i s c k = Some x ->
     exists i' s' c', spans a (i, s, c) (i', s', c') /\ k i' s' c' = Some x) ->
  forall fuel i s c x,
    Re.rounds greedy (Re.run a) k fuel i s c = Some x ->
    exists i' s' c',
      rtc (spans a) (i, s, c) (i', s', c') /\ k i' s' c' = Some x.
Proof.
  intros IHa. induction fuel as [|fuel IH]; intros i s c x H.
  - cbn in H. by exists i, s, c.
  - cbn [Re.rounds] in H.
    set (again := fun i' s' c' =>
                    if (i' =? i)%nat then None
                    else Re.rounds greedy (Re.run a) k fuel i' s' c') in H.
    assert (Hstep : forall y, Re.run a i s c again = Some y ->
              exists i' s' c',
                rtc (spans a) (i, s, c) (i', s', c') /\ k i' s' c' = Some y).
    { intros y Hy. destruct (IHa _ _ _ _ _ Hy) as (i1 & s1 & c1 & Ha & Hk).
      unfold again in Hk. destruct (i1 =? i)%nat; [done|].
      destruct (IH _ _ _ _ Hk) as (i2 & s2 & c2 & Hr & Hk2).
      exists i2, s2, c2. split; [|done]. by eapply rtc_l. }
    destruct greedy.
    + destruct (Re.run a i s c again) as [y|] eqn:E.
      * simplify_eq. by apply Hstep.
      * by exists i, s, c.
    + destruct (k i s c) as [y|] eqn:E.
      * simplify_eq. by exists i, s, c.
      * by apply Hstep.
Qed.

Lemma run_sound (r : Re.re) :
  forall i s c (k : nat -> text -> Re.caps -> option R) x,
    Re.run r i s c k = Some x ->
    exists i' s' c', spans r (i, s, c) (i', s', c') /\ k i' s' c' = Some x.
Proof.
  induction r as [|p|a IHa b IHb|a IHa b IHb|greedy a IHa|n a IHa| |];
    intros i s c k x H; cbn [Re.run] in H.
  - by exists i, s, c.
  - destruct s as [|y s]; [done|]. destruct (p y) eqn:E; [|done].
    exists (S i), s, c. split; [|done]. by exists y.
  - destruct (IHa _ _ _ _ _ H) as (i1 & s1 & c1 & Ha & H1).
    destruct (IHb _ _ _ _ _ H1) as (i2 & s2 & c2 & Hb & H2).
    exists i2, s2, c2. split; [|done]. by exists (i1, s1, c1).
  - destruct (Re.run a i s c k) as [y|] eqn:E.
    + simplify_eq. destruct (IHa _ _ _ _ _ E) as (i1 & s1 & c1 & Ha & H1).
      exists i1, s1, c1. split; [by left|done].
    + destruct (IHb _ _ _ _ _ H) as (i1 & s1 & c1 & Hb & H1).
      exists i1, s1, c1. split; [by right|done].
  - by apply (rounds_sound a greedy k IHa) in H.
  - destruct (IHa _ _ _ _ _ H) as (i1 & s1 & c1 & Ha & H1).
    exists i1, s1, ((n, (i, i1)) :: c1). split; [|done]. by exists c1.
  - destruct (i =? 0)%nat eqn:E; [|done]. apply Nat.eqb_eq in E.
    by exists i, s, c.
  - destruct s as [|y [|z s]]; try done.
    + exists i, [], c. split; [|done]. split; [by left|done].
    + destruct (Py.chr_eqb y "010") eqn:E; [|done].
      apply chr_eqb_true in E. subst y.
      exists i, ["010"%char], c. split; [|done]. split; [by right|done].
Qed.

End MatcherSound.

Section MatcherFacts.

Import Spans.

Lemma match_at_sound r must_advance i s e c :
  Re.match_at r must_advance i s = Some (e, c) ->
  exists s', spans r (i, s, []) (e, s', c).
Proof.
  unfold Re.match_at. intros H.
  destruct (run_sound r _ _ _ _ _ H) as (i' & s' & c' & Hs & Hk).
  destruct (must_advance && (i' =? i)%nat); [done|].
  simplify_eq. by exists s'.
Qed.

(** A match takes a prefix off the rest of the subject and moves the
    offset by its length. *)
Lemma spans_prefix r : forall st st',
  spans r st st' ->
  exists w, st.1.2 = w ++ st'.1.2 /\ st'.1.1 = st.1.1 + length w.
Proof.
  induction r as [|p|a IHa b IHb|a IHa b IHb|greedy a IHa|n a IHa| |];
    intros st st' H; cbn [spans] in H.
  - subst st'. exists []. split; [done|]. cbn. lia.
  - destruct H as (x & _ & Hs & Hi & _). exists [x]. split; [done|].
    rewrite Hi. cbn. lia.
  - destruct H as (st1 & Ha & Hb).
    destruct (IHa _ _ Ha) as (w1 & Hs1 & Hi1).
    destruct (IHb _ _ Hb) as (w2 & Hs2 & Hi2).
    exists (w1 ++ w2). split.
    + by rewrite Hs1, Hs2, app_assoc.
    + rewrite Hi2, Hi1, length_app. lia.
  - destruct H as [H|H]; [by apply IHa|by apply IHb].
  - induction H as [st|st st1 st2 H1 _ (w2 & Hs2 & Hi2)].
    + exists []. split; [done|]. cbn. lia.
    + destruct (IHa _ _ H1) as (w1 & Hs1 & Hi1).
      exists (w1 ++ w2). split.
      * by rewrite Hs1, Hs2, app_assoc.
      * rewrite Hi2, Hi1, length_app. lia.
  - destruct H as (c & Ha & _). by apply IHa in Ha.
  - destruct H as [_ ->]. exists []. split; [done|]. cbn. lia.
  - destruct H as [_ ->]. exists []. split; [done|]. cbn. lia.
Qed.

(** A search finds a match of the pattern at some offset of the
    subject. *)
Lemma search_from_sound r s : forall i b e c,
  Re.search_from r i s = Some (b, e, c) ->
  exists pre s1 s',
    s = pre ++ s1 /\ b = i + length pre /\ spans r (b, s1, []) (e, s', c).
Proof.
  induction s as [|x s IH]; intros i b e c H; cbn [Re.search_from] in H.
  - destruct (Re.match_at r false i []) as [[e' c']|] eqn:E; [|done].
    simplify_eq. apply match_at_sound in E as [s' Hs].
    exists [], [], s'. split; [done|]. split; [cbn; lia|done].
  - destruct (Re.match_at r false i (x :: s)) as [[e' c']|] eqn:E.
    + simplify_eq. apply match_at_sound in E as [s' Hs].
      exists [], (x :: s), s'. split; [done|]. split; [cbn; lia|done].
    + destruct (IH _ _ _ _ H) as (pre & s1 & s' & -> & -> & Hs).
      exists (x :: pre), s1, s'. split; [done|]. split; [cbn; lia|done].
Qed.

(** Where no attempt can match, an iteration over the matches finds
    none. *)
Lemma finditer_go_none r s : forall skip i,
  (forall must_advance i s', s' `suffix_of` s ->
     Re.match_at r must_advance i s' = None) ->
  Re.finditer_go r skip i s = [].
Proof.
  induction s as [|x s IH]; intros skip i H.
  - destruct skip; [|done]. cbn. by rewrite (H false i []).
  - assert (Hs : forall must_advance i s', s' `suffix_of` s ->
              Re.match_at r must_advance i s' = None).
    { intros ma j s' Hsuf. apply H. by apply suffix_cons_r. }
    destruct skip; cbn [Re.finditer_go]; [|by apply IH].
    rewrite (H false i (x :: s)) by done. by apply IH.
Qed.

End MatcherFacts.

(** ** Patterns that ask for a digit *)

Section Feeding.

Import Spans.

Variable P : ascii -> Prop.

Lemma spans_keeps r st st' x : spans r st st' -> x ∈ st'.1.2 -> x ∈ st.1.2.
Proof.
  intros H Hx. destruct (spans_prefix r st st' H) as (w & -> & _).
  apply elem_of_app. by right.
Qed.

Lemma feeds_chr (p : ascii -> bool) :
  (forall x, p x = true -> P x) -> feeds P (Re.Chr p).
Proof.
  intros Hp st st' (x & Hx & Hs & _). exists x. split; [|by apply Hp].
  rewrite Hs. left.
Qed.

Lemma feeds_seq_l a b : feeds P a -> feeds P (Re.Seq a b).
Proof. intros Ha st st' (st1 & H1 & _). by apply (Ha st st1). Qed.

Lemma feeds_seq_r a b : feeds P b -> feeds P (Re.Seq a b).
Proof.
  intros Hb st st' (st1 & H1 & H2).
  destruct (Hb st1 st' H2) as (x & Hx & HP).
  exists x. split; [|done]. by apply (spans_keeps a st st1).
Qed.

Lemma feeds_alt a b : feeds P a -> feeds P b -> feeds P (Re.Alt a b).
Proof. intros Ha Hb st st' [H|H]; [by apply (Ha st st')|by apply (Hb st st')]. Qed.

Lemma feeds_grp n a : feeds P a -> feeds P (Re.Grp n a).
Proof. intros Ha st st' (c & H & _). by apply (Ha st (st'.1, c)). Qed.

(** Without such a character in the subject, no attempt matches. *)
Lemma starved_match_at r s must_advance i :
  feeds P r -> Forall (fun x => ~ P x) s ->
  Re.match_at r must_advance i s = None.
Proof.
  intros Hr Hs.
  destruct (Re.match_at r must_advance i s) as [[e c]|] eqn:E; [|done].
  apply match_at_sound in E as [s' H].
  destruct (Hr _ _ H) as (x & Hx & HP).
  rewrite Forall_forall in Hs. by destruct (Hs x Hx).
Qed.

Lemma Forall_suffix {A : Type} (Q : A -> Prop) (s s' : list A) :
  s' `suffix_of` s -> Forall Q s -> Forall Q s'.
Proof. intros [pre ->] H. by apply Forall_app in H as [_ H]. Qed.

Lemma starved_finditer r s :
  feeds P r -> Forall (fun x => ~ P x) s -> Re.finditer r s = [].
Proof.
  intros Hr Hs. apply finditer_go_none. intros ma i s' Hsuf.
  apply starved_match_at; [done|]. by apply (Forall_suffix _ s).
Qed.

Lemma starved_search_from r s : forall i,
  feeds P r -> Forall (fun x => ~ P x) s -> Re.search_from r i s = None.
Proof.
  intros i Hr Hs. revert i.
  induction Hs as [|x s Hx Hs IH]; intros i; cbn [Re.search_from].
  - by rewrite starved_match_at.
  - rewrite starved_match_at; [apply IH|done|by constructor].
Qed.

End Feeding.

Section DigitFree.

Import Spans.

Lemma digit_free s :
  forallb (fun x => negb (Py.isdigit x)) s = true ->
  Forall (fun x => ~ digit x) s.
Proof.
  intros H. apply Forall_forall. intros x Hx Hd.
  rewrite forallb_forall in H. apply list_elem_of_In in Hx.
  specialize (H x Hx). unfold digit in Hd. by rewrite Hd in H.
Qed.

(** The patterns for salaries, for years of experience and for a run of
    digits all ask for a digit. *)
Lemma patterns_feed :
  Forall (feeds digit) Transformer.salary_patterns
  /\ Forall (feeds digit) Qualifications.experience_patterns
  /\ feeds digit Coerce.digits_run.
Proof.
  unfold Transformer.salary_patterns, Qualifications.experience_patterns.
  repeat split; repeat constructor; cbn;
    let rec feeding :=
      first
        [ apply feeds_chr; intros ? ?; assumption
        | apply feeds_grp; feeding
        | apply feeds_alt; feeding
        | apply feeds_seq_l; feeding
        | apply feeds_seq_r; feeding ] in
    feeding.
Qed.

End DigitFree.

(** X23.  A text without a digit has no salary to read:
    [_extract_salary_range] answers with the default range, 80000 to
    120000 USD (this takes the empty text). *)
Theorem extract_salary_range_default (t : text) :
  forallb (fun x => negb (Py.isdigit x)) t = true ->
  Transformer._extract_salary_range t = Transformer.default_range.
Proof.
  intros H. apply digit_free in H.
  unfold Transformer._extract_salary_range, Transformer.candidates.
  replace (map _ Transformer.salary_patterns)
    with (map (fun _ : Re.re => @nil (option (Z * Z)))
            Transformer.salary_patterns); [done|].
  apply map_ext_Forall.
  eapply Forall_impl; [exact (proj1 patterns_feed)|].
  intros pattern Hp. cbn beta. by rewrite (starved_finditer Spans.digit pattern t).
Qed.

(** X23 at a description without numbers. *)
Lemma extract_salary_range_default_witness :
  Transformer._extract_salary_range (str "Competitive pay and equity")
  = Transformer.default_range.
Proof.
  apply (extract_salary_range_default (str "Competitive pay and equity")).
  reflexivity.
Defined.

(** X24.  A text without a digit names no years:
    [_extract_experience_years] answers with the default 3. *)
Theorem extract_experience_years_default (t : text) :
  forallb (fun x => negb (Py.isdigit x)) t = true ->
  Qualifications._extract_experience_years t = 3%Z.
Proof.
  intros H. apply digit_free in H.
  unfold Qualifications._extract_experience_years,
    Qualifications.year_candidates.
  replace (map _ Qualifications.experience_patterns)
    with (map (fun _ : Re.re => @nil Z) Qualifications.experience_patterns);
    [done|].
  apply map_ext_Forall.
  eapply Forall_impl; [exact (proj1 (proj2 patterns_feed))|].
  intros pattern Hp. cbn beta. by rewrite (starved_finditer Spans.digit pattern t).
Qed.

(** X24 at a requirement spelled in words. *)
Lemma extract_experience_years_default_witness :
  Qualifications._extract_experience_years
    (str "At least five years of experience") = 3%Z.
Proof.
  apply (extract_experience_years_default
           (str "At least five years of experience")).
  reflexivity.
Defined.

(** ** The number the salary coercion reads *)

Section SalaryNumber.

Import Spans Amounts.
Local Open Scope Z_scope.

Lemma replace_drops c s : c ∉ Py.replace [c] [] s.
Proof.
  unfold Py.replace. induction s as [|x s IH]; [apply not_elem_of_nil|].
  cbn [Py.replace_go Py.startswith length Nat.sub].
  destruct (Py.chr_eqb c x) eqn:E; cbn [andb app]; [done|].
  apply not_elem_of_cons. split; [|done]. by apply chr_eqb_false.
Qed.

Lemma digit_value x : digit x -> 0 <= Z.of_N (Py.code x - 48) <= 9.
Proof.
  unfold digit, Py.isdigit. cbv zeta. intros H.
  apply andb_true_iff in H as [H1 H2].
  apply N.leb_le in H1, H2. lia.
Qed.

Lemma digit_plain x : digit x -> Py.chr_eqb x "." = false.
Proof.
  intros H. apply chr_eqb_false. intros ->. by vm_compute in H.
Qed.

Lemma int_of_amount_small w :
  amount w -> 0 <= Coerce.int_of_amount w <= 999.
Proof.
  unfold Coerce.int_of_amount, Py.int_of_digits.
  intros [d Hl Hd|d x y Hl Hd Hx Hy];
    destruct d as [|a [|b [|c [|? ?]]]]; cbn [length] in Hl; try lia;
    repeat match goal with
           | H : Forall digit (_ :: _) |- _ =>
               apply Forall_cons in H as [? H]
           end;
    cbn [app Py.split];
    rewrite ?digit_plain by done; rewrite ?chr_eqb_refl;
    cbn [Py.split hd List.filter];
    repeat match goal with
           | H : digit ?a |- context [Py.isdigit ?a] =>
               rewrite (H : Py.isdigit a = true)
           end;
    cbn [fold_left];
    repeat match goal with
           | H : digit ?a |- _ => apply digit_value in H
           end;
    lia.
Qed.

Lemma amount_no_comma w : amount w -> ","%char ∉ w.
Proof.
  assert (Hd : forall d, Forall digit d -> ","%char ∉ d).
  { intros d Hd Hin. rewrite Forall_forall in Hd.
    specialize (Hd _ Hin). by vm_compute in Hd. }
  intros [d Hl Hdig|d x y Hl Hdig Hx Hy]; [by apply Hd|].
  intros Hin. apply elem_of_app in Hin as [Hin|Hin]; [by apply (Hd d)|].
  apply (Hd [x; y]); [by repeat constructor|].
  by apply elem_of_cons in Hin as [?|Hin].
Qed.

End SalaryNumber.

Section SalaryShape.

Import Spans Amounts.

(** A match of the amount pattern in a text without commas. *)
Lemma amount_spans st st' :
  spans Transformer.grouped_amount st st' ->
  ","%char ∉ st.1.2 ->
  exists w, amount w /\ st.1.2 = w ++ st'.1.2.
Proof.
  destruct st as [[i s] c], st' as [[i' s'] c']. intros H Hc.
  cbn in H, Hc. cbn [fst snd].
  destruct H as (st1 & (st2 & Hd & Hstar) & Hf).
  assert (exists d, s = d ++ st2.1.2 /\ 1 <= length d <= 3 /\ Forall digit d)
    as (d & Hs & Hl & Hdig).
  { destruct Hd as
      (st3 & (x1 & D1 & Hs1 & _)
       & [(st4 & (x2 & D2 & Hs2 & _) & [(x3 & D3 & Hs3 & _)| ->])| ->]).
    - exists [x1; x2; x3]. rewrite Hs1, Hs2, Hs3.
      split; [done|]. split; [cbn; lia|]. by repeat constructor.
    - exists [x1; x2]. rewrite Hs1, Hs2.
      split; [done|]. split; [cbn; lia|]. by repeat constructor.
    - exists [x1]. rewrite Hs1.
      split; [done|]. split; [cbn; lia|]. by repeat constructor. }
  assert (st1 = st2) as ->.
  { inversion Hstar as [|? y ? Hstep Hrest]; [done|]. subst.
    destruct Hstep as (st3 & (x & Hx & Hsx & _) & _).
    apply chr_eqb_true in Hx. subst x. exfalso. apply Hc.
    apply elem_of_app. right. rewrite Hsx. left. }
  destruct Hf as [(st3 & (x & Hx & Hsx & _) & st4 & (y1 & Hy1 & Hs1 & _)
                   & st5 & (y2 & Hy2 & Hs2 & _) & Heq)|Heq].
  - apply chr_eqb_true in Hx. subst x st5.
    exists (d ++ ["."%char; y1; y2]). split; [by constructor|].
    rewrite Hs, Hsx, Hs1, Hs2. cbn. by rewrite <- app_assoc.
  - subst st2. exists d. split; [by constructor|done].
Qed.

Lemma take_drop_middle_app {A : Type} (pre w post : list A) :
  take (length w) (drop (length pre) (pre ++ w ++ post)) = w.
Proof. by rewrite drop_app_length, take_app_length. Qed.

(** The text of the group of a match of the salary pattern. *)
Lemma salary_number_group whole m :
  ","%char ∉ whole ->
  Re.search Coerce.salary_number whole = Some m ->
  amount (Re.group whole m 1).
Proof.
  intros Hc H. destruct m as [[b e] caps]. unfold Re.search in H.
  apply search_from_sound in H as (pre & s1 & s' & -> & -> & H).
  cbn [spans Coerce.salary_number] in H.
  destruct H as (st1 & H0 & c1 & Ha & Hcaps).
  destruct st1 as [[gb s2] c0]. cbn [fst snd] in *. subst caps.
  destruct (spans_prefix _ _ _ H0) as (w0 & Hs0 & Hi0). cbn [fst snd] in *.
  destruct (amount_spans _ _ Ha) as (w & Hw & Hsw).
  { cbn [fst snd]. intros Hin. apply Hc. rewrite Hs0.
    apply elem_of_app. right. apply elem_of_app. by right. }
  cbn [fst snd] in Hsw. subst s1 s2.
  destruct (spans_prefix _ _ _ Ha) as (w' & Hsw' & He). cbn [fst snd] in *.
  apply app_inv_tail in Hsw'. subst w'.
  cbn [Re.group List.find fst Nat.eqb].
  replace (e - gb)%nat with (length w) by lia.
  replace gb with (length (pre ++ w0)) by (rewrite length_app; lia).
  rewrite (app_assoc pre w0). by rewrite take_drop_middle_app.
Qed.

End SalaryShape.

(** X25.  The salary coercion never reads more than three digits.  For
    the two salary bounds of [field_mappings], [parse_extracted_value]
    takes the thousands separators out of the reply before it looks for a
    number of one to three digits with groups of three behind separators,
    so the groups are never found: whatever the reply, the bound it returns
    is a number from 0 to 999 (the reply [$85,000] gives 850). *)
Theorem parse_extracted_value_salary_small (raw_value : text) :
  Forall
    (fun field_path =>
       exists n,
         Coerce.parse_extracted_value raw_value field_path (JInt 0) = JInt n
         /\ (0 <= n <= 999)%Z)
    [ str "jobProfile.compensation.salary.min";
      str "jobProfile.compensation.salary.max" ]
  /\ Coerce.parse_extracted_value (str "$85,000")
       (str "jobProfile.compensation.salary.min") (JInt 0) = JInt 850.
Proof.
  split; [|by vm_compute].
  assert (H : exists n,
             match
               Re.search Coerce.salary_number
                 (Py.replace (str ",") [] raw_value)
             with
             | Some salary_match =>
                 JInt (Coerce.int_of_amount
                         (Py.replace (str ",") []
                            (Re.group (Py.replace (str ",") [] raw_value)
                               salary_match 1)))
             | None => JInt 0
             end = JInt n /\ (0 <= n <= 999)%Z).
  { destruct (Re.search _ _) as [m|] eqn:E; [|exists 0%Z; split; [done|lia]].
    pose proof (salary_number_group _ m (replace_drops "," raw_value) E) as Ha.
    eexists. split; [done|].
    rewrite replace_absent; [by apply int_of_amount_small|].
    by apply (absent_contains ","), amount_no_comma. }
  destruct H as (n & Hn & Hb).
  assert (Hp : forall field_path,
             Py.contains (str "requiredYears") field_path = false ->
             Py.contains (str "acceptsExperienceInLieu") field_path = false ->
             Py.contains (str "salary") field_path
             && (Py.contains (str "min") field_path
                 || Py.contains (str "max") field_path) = true ->
             exists n,
               Coerce.parse_extracted_value raw_value field_path (JInt 0)
               = JInt n /\ (0 <= n <= 999)%Z).
  { intros field_path H1 H2 H3. unfold Coerce.parse_extracted_value.
    destruct (Coerce.is_open raw_value || Py.text_eqb raw_value []);
      [exists 0%Z; split; [done|lia]|].
    rewrite H1, H2, H3. by exists n. }
  apply List.Forall_cons; [apply Hp; vm_compute; reflexivity|].
  apply List.Forall_cons; [apply Hp; vm_compute; reflexivity|].
  apply List.Forall_nil.
Qed.

(** ** The years the coercion reads *)

Section YearsNumber.

Local Open Scope Z_scope.

Lemma int_of_digits_nonneg s : 0 <= Py.int_of_digits s.
Proof.
  unfold Py.int_of_digits.
  assert (H : forall acc, 0 <= acc ->
            0 <= fold_left (fun acc c => 10 * acc + Z.of_N (Py.code c - 48))
                   s acc).
  { induction s as [|c s IH]; intros acc Hacc; [done|].
    cbn [fold_left]. apply IH. lia. }
  by apply H.
Qed.

End YearsNumber.

(** X26.  The years the coercion reads are never negative, and a reply
    without a digit gives 0: for [requiredYears] and a reply of at most
    4300 characters, [parse_extracted_value] returns a number that is the
    value of a run of digits of the reply (a sign in front of it is not
    read), or the default 0 for [OPEN] and the empty text, or 0 when there
    is no digit.  The bound keeps every run of digits within what [int]
    converts: on a run of more than 4300 digits [int] raises a
    [ValueError], which nothing in [parse_extracted_value] catches. *)
Theorem parse_extracted_value_years (raw_value : text) :
  (length raw_value <= 4300)%nat ->
  exists n,
    Coerce.parse_extracted_value raw_value
      (str "jobProfile.qualifications.experience.requiredYears") (JInt 0)
    = JInt n
    /\ (0 <= n)%Z
    /\ (forallb (fun x => negb (Py.isdigit x)) raw_value = true -> n = 0%Z).
Proof.
  intros _. unfold Coerce.parse_extracted_value.
  destruct (Coerce.is_open raw_value || Py.text_eqb raw_value []);
    [by exists 0%Z|].
  replace (Py.contains (str "requiredYears")
             (str "jobProfile.qualifications.experience.requiredYears"))
    with true by (by vm_compute).
  destruct (Re.search Coerce.digits_run raw_value) as [m|] eqn:E.
  - eexists. split; [done|]. split; [apply int_of_digits_nonneg|].
    intros H. apply digit_free in H. unfold Re.search in E.
    by rewrite (starved_search_from Spans.digit _ _ 0
                  (proj2 (proj2 patterns_feed)) H) in E.
  - by exists 0%Z.
Qed.

Lemma parse_extracted_value_years_witness :
  (length (str "5+ years of experience") <= 4300)%nat
  /\ exists n,
       Coerce.parse_extracted_value (str "5+ years of experience")
         (str "jobProfile.qualifications.experience.requiredYears") (JInt 0)
       = JInt n
       /\ (0 <= n)%Z
       /\ (forallb (fun x => negb (Py.isdigit x))
             (str "5+ years of experience") = true -> n = 0%Z).
Proof.
  assert (H : (length (str "5+ years of experience") <= 4300)%nat)
    by (vm_compute; lia).
  split; [exact H|].
  exact (parse_extracted_value_years (str "5+ years of experience") H).
Defined.

(** ** The entries of a list field *)

Section ListEntries.

Import Coerce.

Lemma clean_items_entries items :
  exists entries,
    clean_items items = map JStr entries
    /\ Forall (fun entry => entry <> [] /\ entry <> str "OPEN") entries.
Proof.
  unfold clean_items.
  induction items as [|item items (entries & IH & Hall)]; [by exists []|].
  cbn [map concat].
  match goal with
  | |- context [Py.text_eqb ?t []] => generalize t
  end.
  intros t. rewrite IH. unfold is_open.
  destruct (Py.text_eqb t []) eqn:E1; cbn [negb andb app]; [by exists entries|].
  destruct (Py.text_eqb t (str "OPEN")) eqn:E2; cbn [negb app];
    [by exists entries|].
  exists (t :: entries). split; [done|].
  constructor; [|done]. split; by apply text_eqb_false.
Qed.

Lemma objectives_entries (objs : list text) :
  exists entries,
    map (fun obj => objective (Py.strip obj))
      (List.filter (fun obj => negb (Py.text_eqb (Py.strip obj) [])) objs)
    = map objective entries
    /\ Forall (fun entry => entry <> []) entries.
Proof.
  induction objs as [|obj objs (entries & IH & Hall)]; [by exists []|].
  cbn [List.filter].
  destruct (Py.text_eqb (Py.strip obj) []) eqn:E; cbn [negb]; [by exists entries|].
  exists (Py.strip obj :: entries). cbn [map]. rewrite IH.
  split; [done|]. constructor; [by apply text_eqb_false|done].
Qed.

End ListEntries.

(** X27.  No list field holds an empty entry or the sentinel.  For the
    skills and the benefits, [parse_extracted_value] returns a list of
    texts none of which is empty or [OPEN]; for the key objectives it
    returns a list of objects with the keys [objective], [timeframe] and
    [metric] whose objective is not empty. *)
Theorem parse_extracted_value_entries (raw_value : text) :
  Forall
    (fun field_path =>
       exists entries,
         Coerce.parse_extracted_value raw_value field_path (JList [])
         = JList (map JStr entries)
         /\ Forall (fun entry => entry <> [] /\ entry <> str "OPEN") entries)
    [ str "jobProfile.qualifications.skills.technical";
      str "jobProfile.qualifications.skills.soft";
      str "jobProfile.compensation.benefits" ]
  /\ exists entries,
       Coerce.parse_extracted_value raw_value
         (str "jobProfile.responsibilities.keyObjectives") (JList [])
       = JList (map Coerce.objective entries)
       /\ Forall (fun entry => entry <> []) entries.
Proof.
  assert (Hp : forall field_path,
             Py.contains (str "requiredYears") field_path = false ->
             Py.contains (str "acceptsExperienceInLieu") field_path = false ->
             Py.contains (str "salary") field_path
             && (Py.contains (str "min") field_path
                 || Py.contains (str "max") field_path) = false ->
             Py.endswith (str "duties") field_path
             || Py.endswith (str "benefits") field_path
             || Py.endswith (str "technical") field_path
             || Py.endswith (str "soft") field_path = true ->
             exists entries,
               Coerce.parse_extracted_value raw_value field_path (JList [])
               = JList (map JStr entries)
               /\ Forall (fun entry => entry <> [] /\ entry <> str "OPEN")
                    entries).
  { intros field_path H1 H2 H3 H4. unfold Coerce.parse_extracted_value.
    destruct (Coerce.is_open raw_value || Py.text_eqb raw_value []);
      [by exists []|].
    rewrite H1, H2, H3, H4.
    match goal with
    | |- context [Coerce.clean_items ?items] =>
        destruct (clean_items_entries items) as (entries & -> & Hall)
    end.
    by exists entries. }
  split.
  - apply List.Forall_cons; [apply Hp; vm_compute; reflexivity|].
    apply List.Forall_cons; [apply Hp; vm_compute; reflexivity|].
    apply List.Forall_cons; [apply Hp; vm_compute; reflexivity|].
    apply List.Forall_nil.
  - unfold Coerce.parse_extracted_value.
    destruct (Coerce.is_open raw_value || Py.text_eqb raw_value []) eqn:G;
      [by exists []|].
    apply orb_false_iff in G as [G1 G2].
    replace (Py.contains (str "requiredYears")
               (str "jobProfile.responsibilities.keyObjectives"))
      with false by (by vm_compute).
    replace (Py.contains (str "acceptsExperienceInLieu")
               (str "jobProfile.responsibilities.keyObjectives"))
      with false by (by vm_compute).
    replace (Py.contains (str "salary")
               (str "jobProfile.responsibilities.keyObjectives"))
      with false by (by vm_compute).
    replace (Py.endswith (str "duties")
               (str "jobProfile.responsibilities.keyObjectives"))
      with false by (by vm_compute).
    replace (Py.endswith (str "benefits")
               (str "jobProfile.responsibilities.keyObjectives"))
      with false by (by vm_compute).
    replace (Py.endswith (str "technical")
               (str "jobProfile.responsibilities.keyObjectives"))
      with false by (by vm_compute).
    replace (Py.endswith (str "soft")
               (str "jobProfile.responsibilities.keyObjectives"))
      with false by (by vm_compute).
    replace (Py.contains (str "keyObjectives")
               (str "jobProfile.responsibilities.keyObjectives"))
      with true by (by vm_compute).
    cbn [andb orb]. rewrite G1. cbn [negb].
    destruct (Py.contains (str "|") raw_value).
    + destruct (objectives_entries (Py.split "|" raw_value))
        as (entries & -> & Hall).
      by exists entries.
    + exists [raw_value]. split; [done|].
      constructor; [by apply text_eqb_false|done].
Qed.
